(** * manipulate-string: the transformation catalog and its runner

    A shallow embedding of [src/manipulations.ts].  JavaScript strings are
    sequences of UTF-16 code units, a call that may throw returns a
    [completion], and the [string | null] result of a manipulation is an
    [option].  The built-ins of ECMAScript and Node that the catalog calls
    are written out where the properties proved below depend on them
    (UTF-8, hex, base64, percent-encoding, [parseInt], [JSON]); the
    others (URL parsing, dates, digests, [qs], the named-entity table,
    Unicode case tables and the helpers of [utils.ts]) are fields of a
    [Host] record that the catalog is parameterised by. *)

From Stdlib Require Import ZArith List String Ascii Bool Lia Arith.
From Stdlib Require DecimalString HexadecimalString DecimalPos HexadecimalPos.
Import ListNotations.
Local Open Scope Z_scope.

(** ** Strings *)

Module JS.

(** A JavaScript string: its UTF-16 code units, each in [0, 65535]. *)
Definition jsstring := list Z.

(** The code units of an ASCII literal. *)
Definition js (s : string) : jsstring :=
  map (fun a => Z.of_nat (nat_of_ascii a)) (list_ascii_of_string s).

Definition eqb (a b : jsstring) : bool :=
  if list_eq_dec Z.eq_dec a b then true else false.

(** [Array.prototype.join] on strings. *)
Fixpoint join (sep : jsstring) (parts : list jsstring) : jsstring :=
  match parts with
  | [] => []
  | [p] => p
  | p :: rest => p ++ sep ++ join sep rest
  end.

(** [String.prototype.slice] with non-negative integer bounds. *)
Definition slice (s : jsstring) (from to : nat) : jsstring :=
  firstn (to - from) (skipn from s).

(** WhiteSpace and LineTerminator code points, the set [trim] strips. *)
Definition is_whitespace (u : Z) : bool :=
  (9 <=? u) && (u <=? 13) || (u =? 32) || (u =? 160) || (u =? 5760)
  || (8192 <=? u) && (u <=? 8202) || (u =? 8232) || (u =? 8233)
  || (u =? 8239) || (u =? 8287) || (u =? 12288) || (u =? 65279).

Fixpoint trimStart (s : jsstring) : jsstring :=
  match s with
  | u :: rest => if is_whitespace u then trimStart rest else s
  | [] => []
  end.

Definition trimEnd (s : jsstring) : jsstring := rev (trimStart (rev s)).

Definition trim (s : jsstring) : jsstring := trimEnd (trimStart s).

(** [s.replaceAll(" ", "")]. *)
Definition remove_spaces (s : jsstring) : jsstring :=
  filter (fun u => negb (u =? 32)) s.

(** [String.prototype.split] on a single code unit. *)
Fixpoint split_on (sep : Z) (s : jsstring) : list jsstring :=
  match s with
  | [] => [[]]
  | u :: rest =>
      if u =? sep then [] :: split_on sep rest
      else match split_on sep rest with
           | p :: ps => (u :: p) :: ps
           | [] => [[u]]
           end
  end.

(** The input after the code unit [c], when the input starts with it. *)
Definition expect (c : Z) (s : jsstring) : option jsstring :=
  match s with
  | u :: rest => if u =? c then Some rest else None
  | [] => None
  end.

(** The input after the word [w], when the input starts with it. *)
Fixpoint expect_word (w s : jsstring) : option jsstring :=
  match w with
  | [] => Some s
  | c :: w' =>
      match expect c s with
      | Some rest => expect_word w' rest
      | None => None
      end
  end.

Definition is_ascii_upper (u : Z) : bool := (65 <=? u) && (u <=? 90).
Definition is_ascii_lower (u : Z) : bool := (97 <=? u) && (u <=? 122).
Definition is_ascii_digit (u : Z) : bool := (48 <=? u) && (u <=? 57).
Definition is_ascii (u : Z) : bool := (0 <=? u) && (u <? 128).

Definition is_high_surrogate (u : Z) : bool := (55296 <=? u) && (u <=? 56319).
Definition is_low_surrogate (u : Z) : bool := (56320 <=? u) && (u <=? 57343).

(** Well-formed UTF-16: every surrogate belongs to a high/low pair. *)
Fixpoint well_formed (s : jsstring) : bool :=
  match s with
  | [] => true
  | u :: rest =>
      if is_high_surrogate u then
        match rest with
        | v :: rest' => is_low_surrogate v && well_formed rest'
        | [] => false
        end
      else if is_low_surrogate u then false
      else (0 <=? u) && (u <? 65536) && well_formed rest
  end.

End JS.
Export JS.

(** ** Completions *)

(** The exceptions the built-ins raise; [HostError] is whatever a library
    of the host throws. *)
Inductive error : Type :=
  | SyntaxError | RangeError | TypeError | URIError | HostError.

(** The outcome of evaluating an expression: a value, or a thrown error. *)
Inductive completion (A : Type) : Type :=
  | Normal (a : A)
  | Throw (e : error).
Arguments Normal {A} a.
Arguments Throw {A} e.

Definition bind {A B} (c : completion A) (k : A -> completion B) : completion B :=
  match c with
  | Normal a => k a
  | Throw e => Throw e
  end.

Notation "x <- c ;; k" := (bind c (fun x => k))
  (at level 61, c at next level, right associativity).

(** [Array.prototype.map] with a callback that may throw: the first throw
    ends the loop and leaves the call. *)
Fixpoint mapM {A B} (f : A -> completion B) (l : list A) : completion (list B) :=
  match l with
  | [] => Normal []
  | a :: rest => b <- f a ;; bs <- mapM f rest ;; Normal (b :: bs)
  end.

(** ** Numbers *)

(** The Number values the catalog computes with: [parseInt] only yields
    NaN, an infinity or an integer-valued double (the sign of zero is not
    kept: every use prints it as ["0"]). *)
Inductive number : Type :=
  | NaN
  | Infinity (negative : bool)
  | Finite (z : Z).

Definition Number_isNaN (n : number) : bool :=
  match n with NaN => true | _ => false end.

(** The double nearest to the integer [z], ties to even. *)
Definition to_double (z : Z) : number :=
  let a := Z.abs z in
  if a <? 2 ^ 53 then Finite z
  else
    let e := Z.log2 a - 52 in
    let q := a / 2 ^ e in
    let r := a mod 2 ^ e in
    let half := 2 ^ (e - 1) in
    let q' := if r <? half then q
              else if half <? r then q + 1
              else if Z.even q then q else q + 1 in
    let m := q' * 2 ^ e in
    if 2 ^ 1024 <=? m then Infinity (z <? 0) else Finite (Z.sgn z * m).

(** The value of a code unit as a digit (0-9, a-z, A-Z), if it is one. *)
Definition digit_value (u : Z) : option Z :=
  if is_ascii_digit u then Some (u - 48)
  else if is_ascii_lower u then Some (u - 97 + 10)
  else if is_ascii_upper u then Some (u - 65 + 10)
  else None.

Definition radix_digit (radix u : Z) : option Z :=
  match digit_value u with
  | Some d => if d <? radix then Some d else None
  | None => None
  end.

(** The longest prefix of radix-[radix] digits, as digit values. *)
Fixpoint leading_digits (radix : Z) (s : jsstring) : list Z :=
  match s with
  | u :: rest =>
      match radix_digit radix u with
      | Some d => d :: leading_digits radix rest
      | None => []
      end
  | [] => []
  end.

Definition digits_value (radix : Z) (ds : list Z) : Z :=
  fold_left (fun acc d => acc * radix + d) ds 0.

(** [parseInt(string, radix)] for a radix in [2, 36]. *)
Definition parseInt (input : jsstring) (radix : Z) : number :=
  let s := trimStart input in
  let negative := match s with u :: _ => u =? 45 | [] => false end in
  let s := match s with
           | u :: rest => if (u =? 45) || (u =? 43) then rest else s
           | [] => s
           end in
  let s := if radix =? 16 then
             match s with
             | 48 :: x :: rest => if (x =? 120) || (x =? 88) then rest else s
             | _ => s
             end
           else s in
  match leading_digits radix s with
  | [] => NaN
  | ds =>
      let v := digits_value radix ds in
      to_double (if negative then - v else v)
  end.

(** Binary digits of a positive integer, most significant first. *)
Fixpoint binary_digits (p : positive) : jsstring :=
  match p with
  | xH => [49]
  | xO p' => binary_digits p' ++ [48]
  | xI p' => binary_digits p' ++ [49]
  end.

(** [n.toString(2)]: exact for every integer-valued double. *)
Definition Number_toString2 (n : number) : jsstring :=
  match n with
  | NaN => js "NaN"
  | Infinity false => js "Infinity"
  | Infinity true => js "-Infinity"
  | Finite Z0 => js "0"
  | Finite (Zpos p) => binary_digits p
  | Finite (Zneg p) => 45 :: binary_digits p
  end.

(** Decimal digits of an integer, with a leading [-] when negative. *)
Definition decimal_digits (z : Z) : jsstring :=
  js (DecimalString.NilZero.string_of_int (Z.to_int z)).

(** Lower-case hexadecimal digits of an integer. *)
Definition hexadecimal_digits (z : Z) : jsstring :=
  js (HexadecimalString.NilZero.string_of_int (Z.to_hex_int z)).

(** ** [formatBinaryNumber] *)

(** [new Array(len)] for the Number [len = num / den]: a length that is
    not an integer in [0, 2^32 - 1] is a RangeError.  The result is the
    length of the new array. *)
Definition new_Array (num den : nat) : completion nat :=
  if (Nat.eqb (Nat.modulo num den) 0) && (Z.of_nat (Nat.div num den) <? 2 ^ 32)
  then Normal (Nat.div num den)
  else Throw RangeError.

Definition formatBinaryNumber (text : jsstring) : completion jsstring :=
  n <- new_Array (List.length text) 8 ;;
  Normal (join (js " ")
            (map (fun i => slice text (i * 8) ((i + 1) * 8))%nat (seq 0 n))).

(** ** UTF-8 *)

Module Utf8.

Definition replacement : list Z := [239; 191; 189].

(** The UTF-8 bytes of a Unicode scalar value. *)
Definition encode_code_point (cp : Z) : list Z :=
  if cp <? 128 then [cp]
  else if cp <? 2048 then [192 + cp / 64; 128 + cp mod 64]
  else if cp <? 65536 then
    [224 + cp / 4096; 128 + (cp / 64) mod 64; 128 + cp mod 64]
  else
    [240 + cp / 262144; 128 + (cp / 4096) mod 64;
     128 + (cp / 64) mod 64; 128 + cp mod 64].

Definition surrogate_pair_value (hi lo : Z) : Z :=
  65536 + (hi - 55296) * 1024 + (lo - 56320).

(** [Buffer.from(text, "utf-8")]: a surrogate without its partner is
    written as U+FFFD. *)
Fixpoint encode (s : jsstring) : list Z :=
  match s with
  | [] => []
  | u :: rest =>
      if is_high_surrogate u then
        match rest with
        | v :: rest' =>
            if is_low_surrogate v
            then encode_code_point (surrogate_pair_value u v) ++ encode rest'
            else replacement ++ encode rest
        | [] => replacement
        end
      else if is_low_surrogate u then replacement ++ encode rest
      else encode_code_point u ++ encode rest
  end.

Definition is_continuation (b : Z) : bool := (128 <=? b) && (b <=? 191).

(** The UTF-16 code units of a code point. *)
Definition utf16 (cp : Z) : jsstring :=
  if cp <? 65536 then [cp]
  else [55296 + (cp - 65536) / 1024; 56320 + (cp - 65536) mod 1024].

(** One step of the decoder on a non-empty input: the code point decoded
    from the longest well-formed sequence at the head and the number of
    bytes it spans, or [None] and the length of the ill-formed prefix
    that one U+FFFD replaces. *)
Definition decode_step (bs : list Z) : option Z * nat :=
  match bs with
  | [] => (None, 1%nat)
  | b0 :: r0 =>
      if b0 <? 128 then (Some b0, 1%nat)
      else if (194 <=? b0) && (b0 <=? 223) then
        match r0 with
        | b1 :: _ =>
            if is_continuation b1
            then (Some ((b0 - 192) * 64 + (b1 - 128)), 2%nat)
            else (None, 1%nat)
        | [] => (None, 1%nat)
        end
      else if (224 <=? b0) && (b0 <=? 239) then
        let lo := if b0 =? 224 then 160 else 128 in
        let hi := if b0 =? 237 then 159 else 191 in
        match r0 with
        | b1 :: r1 =>
            if (lo <=? b1) && (b1 <=? hi) then
              match r1 with
              | b2 :: _ =>
                  if is_continuation b2
                  then (Some ((b0 - 224) * 4096 + (b1 - 128) * 64 + (b2 - 128)),
                        3%nat)
                  else (None, 2%nat)
              | [] => (None, 2%nat)
              end
            else (None, 1%nat)
        | [] => (None, 1%nat)
        end
      else if (240 <=? b0) && (b0 <=? 244) then
        let lo := if b0 =? 240 then 144 else 128 in
        let hi := if b0 =? 244 then 143 else 191 in
        match r0 with
        | b1 :: r1 =>
            if (lo <=? b1) && (b1 <=? hi) then
              match r1 with
              | b2 :: r2 =>
                  if is_continuation b2 then
                    match r2 with
                    | b3 :: _ =>
                        if is_continuation b3
                        then (Some ((b0 - 240) * 262144 + (b1 - 128) * 4096
                                    + (b2 - 128) * 64 + (b3 - 128)), 4%nat)
                        else (None, 3%nat)
                    | [] => (None, 3%nat)
                    end
                  else (None, 2%nat)
              | [] => (None, 2%nat)
              end
            else (None, 1%nat)
        | [] => (None, 1%nat)
        end
      else (None, 1%nat)
  end.

(** The decoding loop; [skip] counts the bytes the last step has already
    consumed. *)
Fixpoint decode_from (skip : nat) (bs : list Z) : jsstring :=
  match bs with
  | [] => []
  | _ :: rest =>
      match skip with
      | S k => decode_from k rest
      | O =>
          let '(cp, n) := decode_step bs in
          match cp with
          | Some c => utf16 c
          | None => [65533]
          end ++ decode_from (Nat.pred n) rest
      end
  end.

(** [buffer.toString("utf-8")]: ill-formed input decodes to U+FFFD, it
    never throws. *)
Definition decode (bs : list Z) : jsstring := decode_from 0 bs.

End Utf8.

(** ** Buffer encodings: hex and base64 *)

Module Hex.

Definition digit (d : Z) : Z := if d <? 10 then 48 + d else 87 + d.

(** [buffer.toString("hex")]. *)
Definition encode (bs : list Z) : jsstring :=
  flat_map (fun b => [digit (b / 16); digit (b mod 16)]) bs.

(** Node's [unhex] reads the low byte of a code unit. *)
Definition unhex (u : Z) : option Z :=
  let c := u mod 256 in
  if is_ascii_digit c then Some (c - 48)
  else if (97 <=? c) && (c <=? 102) then Some (c - 87)
  else if (65 <=? c) && (c <=? 70) then Some (c - 55)
  else None.

(** [Buffer.from(text, "hex")]: pairs of digits are decoded up to the
    first pair that is not two hex digits; what follows is dropped. *)
Fixpoint decode (s : jsstring) : list Z :=
  match s with
  | a :: b :: rest =>
      match unhex a, unhex b with
      | Some x, Some y => (x * 16 + y) :: decode rest
      | _, _ => []
      end
  | _ => []
  end.

End Hex.

Module Base64.

Definition alphabet (v : Z) : Z :=
  if v <? 26 then 65 + v
  else if v <? 52 then 97 + (v - 26)
  else if v <? 62 then 48 + (v - 52)
  else if v =? 62 then 43 else 47.

(** [buffer.toString("base64")]. *)
Fixpoint encode (bs : list Z) : jsstring :=
  match bs with
  | a :: b :: c :: rest =>
      [alphabet (a / 4); alphabet ((a mod 4) * 16 + b / 16);
       alphabet ((b mod 16) * 4 + c / 64); alphabet (c mod 64)] ++ encode rest
  | [a; b] =>
      [alphabet (a / 4); alphabet ((a mod 4) * 16 + b / 16);
       alphabet ((b mod 16) * 4); 61]
  | [a] => [alphabet (a / 4); alphabet ((a mod 4) * 16); 61; 61]
  | [] => []
  end.

(** Node's [unbase64] on the low byte of a code unit: the standard and the
    URL-safe alphabets are both accepted. *)
Definition unbase64 (u : Z) : option Z :=
  let c := u mod 256 in
  if is_ascii_upper c then Some (c - 65)
  else if is_ascii_lower c then Some (c - 97 + 26)
  else if is_ascii_digit c then Some (c - 48 + 52)
  else if (c =? 43) || (c =? 45) then Some 62
  else if (c =? 47) || (c =? 95) then Some 63
  else None.

(** The 6-bit values the decoder reads: characters outside the alphabet
    are skipped, the first [=] ends the input. *)
Fixpoint sextets (s : jsstring) : list Z :=
  match s with
  | [] => []
  | u :: rest =>
      match unbase64 u with
      | Some v => v :: sextets rest
      | None => if u mod 256 =? 61 then [] else sextets rest
      end
  end.

Fixpoint bytes_of_sextets (l : list Z) : list Z :=
  match l with
  | a :: b :: c :: d :: rest =>
      [a * 4 + b / 16; (b mod 16) * 16 + c / 4; (c mod 4) * 64 + d]
      ++ bytes_of_sextets rest
  | [a; b; c] => [a * 4 + b / 16; (b mod 16) * 16 + c / 4]
  | [a; b] => [a * 4 + b / 16]
  | _ => []
  end.

(** [Buffer.from(text, "base64")]. *)
Definition decode (s : jsstring) : list Z := bytes_of_sextets (sextets s).

End Base64.

(** ** Percent-encoding *)

Module URI.

(** uriUnescaped: letters, digits and [- _ . ! ~ * ' ( )]. *)
Definition unescaped (u : Z) : bool :=
  is_ascii_upper u || is_ascii_lower u || is_ascii_digit u
  || (u =? 45) || (u =? 95) || (u =? 46) || (u =? 33) || (u =? 126)
  || (u =? 42) || (u =? 39) || (u =? 40) || (u =? 41).

Definition upper_digit (d : Z) : Z := if d <? 10 then 48 + d else 55 + d.

Definition escape (bs : list Z) : jsstring :=
  flat_map (fun b => [37; upper_digit (b / 16); upper_digit (b mod 16)]) bs.

(** [encodeURIComponent]: a surrogate without its partner is a URIError. *)
Fixpoint encodeURIComponent (s : jsstring) : completion jsstring :=
  match s with
  | [] => Normal []
  | u :: rest =>
      if unescaped u then
        r <- encodeURIComponent rest ;; Normal (u :: r)
      else if is_high_surrogate u then
        match rest with
        | v :: rest' =>
            if is_low_surrogate v then
              r <- encodeURIComponent rest' ;;
              Normal (escape (Utf8.encode_code_point
                                (Utf8.surrogate_pair_value u v)) ++ r)
            else Throw URIError
        | [] => Throw URIError
        end
      else if is_low_surrogate u then Throw URIError
      else
        r <- encodeURIComponent rest ;;
        Normal (escape (Utf8.encode_code_point u) ++ r)
  end.

Definition hex_value (u : Z) : option Z :=
  if is_ascii_digit u then Some (u - 48)
  else if (97 <=? u) && (u <=? 102) then Some (u - 87)
  else if (65 <=? u) && (u <=? 70) then Some (u - 55)
  else None.

(** A code unit of the input, or the octet an escape [%XY] stands for. *)
Inductive item : Type :=
  | Unit (u : Z)
  | Octet (b : Z).

(** The escapes of the input read; a [%] that two hex digits do not
    follow is a URIError. *)
Fixpoint unescape (s : jsstring) : completion (list item) :=
  match s with
  | [] => Normal []
  | u :: rest =>
      if u =? 37 then
        match rest with
        | h1 :: h2 :: rest' =>
            match hex_value h1, hex_value h2 with
            | Some x, Some y =>
                r <- unescape rest' ;; Normal (Octet (x * 16 + y) :: r)
            | _, _ => Throw URIError
            end
        | _ => Throw URIError
        end
      else r <- unescape rest ;; Normal (Unit u :: r)
  end.

(** The octets at the head of the items, up to the first code unit. *)
Fixpoint leading_octets (l : list item) : list Z :=
  match l with
  | Octet b :: rest => b :: leading_octets rest
  | _ => []
  end.

(** The escaped octets are decoded as UTF-8; an octet sequence that is
    not the encoding of a code point is a URIError. *)
Fixpoint decode_items (skip : nat) (l : list item) : completion jsstring :=
  match l with
  | [] => Normal []
  | i :: rest =>
      match skip with
      | S k => decode_items k rest
      | O =>
          match i with
          | Unit u => r <- decode_items 0 rest ;; Normal (u :: r)
          | Octet _ =>
              match Utf8.decode_step (leading_octets l) with
              | (Some cp, n) =>
                  r <- decode_items (Nat.pred n) rest ;;
                  Normal (Utf8.utf16 cp ++ r)
              | (None, _) => Throw URIError
              end
          end
      end
  end.

(** [decodeURIComponent]. *)
Definition decodeURIComponent (s : jsstring) : completion jsstring :=
  l <- unescape s ;; decode_items 0 l.

End URI.

(** ** JSON *)

Module Json.

#[local] Set Warnings "-register-all".

(** The values [JSON.parse] builds.  A number is kept as the numeric
    literal that denotes it; the properties of an object are in the
    order [JSON.stringify] and [Object.keys] enumerate them. *)
Inductive json : Type :=
  | JNull
  | JBool (b : bool)
  | JNumber (literal : jsstring)
  | JString (s : jsstring)
  | JArray (items : list json)
  | JObject (props : list (jsstring * json)).

(** *** Objects *)

Fixpoint obj_get (k : jsstring) (props : list (jsstring * json)) : option json :=
  match props with
  | [] => None
  | (k', v) :: rest => if JS.eqb k k' then Some v else obj_get k rest
  end.

Definition all_digits (s : jsstring) : bool := forallb is_ascii_digit s.

(** The array index a property key denotes: a canonical decimal numeral
    below [2^32 - 1]. *)
Definition array_index (k : jsstring) : option Z :=
  match k with
  | [] => None
  | u :: rest =>
      if all_digits k && ((u =? 48) && (Nat.eqb (List.length rest) 0) || negb (u =? 48))
      then let v := digits_value 10 (map (fun d => d - 48) k) in
           if v <? 4294967295 then Some v else None
      else None
  end.

Fixpoint obj_replace (k : jsstring) (v : json) (props : list (jsstring * json))
  : list (jsstring * json) :=
  match props with
  | [] => []
  | (k', v') :: rest =>
      if JS.eqb k k' then (k', v) :: rest else (k', v') :: obj_replace k v rest
  end.

(** A new index key goes before the first key that is not an index or is
    a larger index. *)
Fixpoint obj_insert_index (i : Z) (k : jsstring) (v : json)
  (props : list (jsstring * json)) : list (jsstring * json) :=
  match props with
  | [] => [(k, v)]
  | (k', v') :: rest =>
      match array_index k' with
      | Some j => if j <? i then (k', v') :: obj_insert_index i k v rest
                  else (k, v) :: props
      | None => (k, v) :: props
      end
  end.

(** CreateDataProperty on an ordinary object: an existing key keeps its
    place and takes the new value; a new index key is filed among the
    indices in ascending order, any other new key is appended. *)
Definition obj_define (k : jsstring) (v : json) (props : list (jsstring * json))
  : list (jsstring * json) :=
  match obj_get k props with
  | Some _ => obj_replace k v props
  | None =>
      match array_index k with
      | Some i => obj_insert_index i k v props
      | None => props ++ [(k, v)]
      end
  end.

(** [Object.fromEntries]. *)
Definition fromEntries (entries : list (jsstring * json)) : list (jsstring * json) :=
  fold_left (fun props kv => obj_define (fst kv) (snd kv) props) entries [].

(** *** QuoteJSONString *)

Definition hex4 (u : Z) : jsstring :=
  [Hex.digit (u / 4096); Hex.digit ((u / 256) mod 16);
   Hex.digit ((u / 16) mod 16); Hex.digit (u mod 16)].

Definition unicode_escape (u : Z) : jsstring := 92 :: 117 :: hex4 u.

Definition quote_unit (u : Z) : jsstring :=
  if u =? 8 then [92; 98]
  else if u =? 9 then [92; 116]
  else if u =? 10 then [92; 110]
  else if u =? 12 then [92; 102]
  else if u =? 13 then [92; 114]
  else if u =? 34 then [92; 34]
  else if u =? 92 then [92; 92]
  else if u <? 32 then unicode_escape u
  else [u].

Fixpoint quote_body (s : jsstring) : jsstring :=
  match s with
  | [] => []
  | u :: rest =>
      if is_high_surrogate u then
        match rest with
        | v :: rest' =>
            if is_low_surrogate v then u :: v :: quote_body rest'
            else unicode_escape u ++ quote_body rest
        | [] => unicode_escape u
        end
      else if is_low_surrogate u then unicode_escape u ++ quote_body rest
      else quote_unit u ++ quote_body rest
  end.

(** [JSON.stringify] of a string. *)
Definition quote (s : jsstring) : jsstring := 34 :: quote_body s ++ [34].

(** *** [JSON.stringify] *)

Section Stringify.

(** The text [JSON.stringify] prints for the Number a literal denotes. *)
Variable number_text : jsstring -> jsstring.

(** The indentation unit: two spaces for [JSON.stringify(v, null, 2)],
    empty for [JSON.stringify(v, null, 0)]. *)
Variable gap : jsstring.

Definition wrap (opening closing : Z) (indent : jsstring) (partial : list jsstring)
  : jsstring :=
  match partial with
  | [] => [opening; closing]
  | _ =>
      match gap with
      | [] => opening :: join [44] partial ++ [closing]
      | _ =>
          let inner := indent ++ gap in
          opening :: 10 :: inner ++ join (44 :: 10 :: inner) partial
          ++ 10 :: indent ++ [closing]
      end
  end.

Fixpoint serialize (indent : jsstring) (v : json) : jsstring :=
  match v with
  | JNull => js "null"
  | JBool true => js "true"
  | JBool false => js "false"
  | JNumber literal => number_text literal
  | JString s => quote s
  | JArray items =>
      wrap 91 93 indent (map (serialize (indent ++ gap)) items)
  | JObject props =>
      wrap 123 125 indent
        (map (fun kv =>
                let '(k, x) := kv in
                quote k ++ 58 :: match gap with [] => [] | _ => [32] end
                ++ serialize (indent ++ gap) x)
           props)
  end.

End Stringify.

(** [JSON.stringify(v, null, space)] for [space] 0 or 2. *)
Definition stringify (number_text : jsstring -> jsstring) (v : json) (space : nat)
  : jsstring :=
  serialize number_text (repeat 32 space) [] v.

(** *** [JSON.parse] *)

Definition is_json_space (u : Z) : bool :=
  (u =? 9) || (u =? 10) || (u =? 13) || (u =? 32).

Fixpoint skip_ws (s : jsstring) : jsstring :=
  match s with
  | u :: rest => if is_json_space u then skip_ws rest else s
  | [] => []
  end.

Definition simple_escape (e : Z) : option Z :=
  if e =? 34 then Some 34
  else if e =? 92 then Some 92
  else if e =? 47 then Some 47
  else if e =? 98 then Some 8
  else if e =? 102 then Some 12
  else if e =? 110 then Some 10
  else if e =? 114 then Some 13
  else if e =? 116 then Some 9
  else None.

Definition hex4_value (a b c d : Z) : option Z :=
  match URI.hex_value a, URI.hex_value b, URI.hex_value c, URI.hex_value d with
  | Some x, Some y, Some z, Some w => Some (((x * 16 + y) * 16 + z) * 16 + w)
  | _, _, _, _ => None
  end.

Definition cons_unit (u : Z) (r : option (jsstring * jsstring))
  : option (jsstring * jsstring) :=
  match r with
  | Some (body, rest) => Some (u :: body, rest)
  | None => None
  end.

(** The characters of a string literal after its opening quote, and the
    input after its closing quote. *)
Fixpoint string_body (s : jsstring) : option (jsstring * jsstring) :=
  match s with
  | [] => None
  | u :: rest =>
      if u =? 34 then Some ([], rest)
      else if u =? 92 then
        match rest with
        | e :: rest1 =>
            if e =? 117 then
              match rest1 with
              | a :: b :: c :: d :: rest2 =>
                  match hex4_value a b c d with
                  | Some x => cons_unit x (string_body rest2)
                  | None => None
                  end
              | _ => None
              end
            else
              match simple_escape e with
              | Some x => cons_unit x (string_body rest1)
              | None => None
              end
        | [] => None
        end
      else if u <? 32 then None
      else cons_unit u (string_body rest)
  end.

Fixpoint take_digits (s : jsstring) : jsstring * jsstring :=
  match s with
  | u :: rest =>
      if is_ascii_digit u
      then let '(d, r) := take_digits rest in (u :: d, r)
      else ([], s)
  | [] => ([], [])
  end.

(** One or more digits at the head of the input. *)
Definition digits1 (s : jsstring) : option (jsstring * jsstring) :=
  match take_digits s with
  | ([], _) => None
  | (d, r) => Some (d, r)
  end.

(** The integer part of a numeric literal: a single 0, or digits that do
    not start with 0. *)
Definition integer_part (s : jsstring) : option (jsstring * jsstring) :=
  match expect 48 s with
  | Some r => Some ([48], r)
  | None => digits1 s
  end.

(** The optional fraction: a dot and digits. *)
Definition fraction_part (s : jsstring) : option (jsstring * jsstring) :=
  match expect 46 s with
  | Some r =>
      match digits1 r with
      | Some (d, r') => Some (46 :: d, r')
      | None => None
      end
  | None => Some ([], s)
  end.

(** The optional exponent: e or E, an optional sign, digits. *)
Definition exponent_part (s : jsstring) : option (jsstring * jsstring) :=
  match s with
  | e :: r =>
      if (e =? 101) || (e =? 69) then
        let '(sign, r1) :=
          match r with
          | x :: r' => if (x =? 43) || (x =? 45) then ([x], r') else ([], r)
          | [] => ([], r)
          end in
        match digits1 r1 with
        | Some (d, r2) => Some (e :: sign ++ d, r2)
        | None => None
        end
      else Some ([], s)
  | [] => Some ([], s)
  end.

(** A numeric literal at the head of the input: an optional minus sign,
    the integer part, the optional fraction and the optional exponent. *)
Definition number_literal (s : jsstring) : option (jsstring * jsstring) :=
  let '(sign, s1) := match expect 45 s with
                     | Some r => ([45], r)
                     | None => ([], s)
                     end in
  match integer_part s1 with
  | Some (int, s2) =>
      match fraction_part s2 with
      | Some (frac, s3) =>
          match exponent_part s3 with
          | Some (ex, s4) => Some (sign ++ int ++ frac ++ ex, s4)
          | None => None
          end
      | None => None
      end
  | None => None
  end.

(** The outcome of a parsing function: a value and the input left, a
    syntax error, or the recursion budget exhausted. *)
Inductive parsed (A : Type) : Type :=
  | Parsed (a : A) (rest : jsstring)
  | Malformed
  | OutOfFuel.
Arguments Parsed {A} a rest.
Arguments Malformed {A}.
Arguments OutOfFuel {A}.

(** The values without parts: a string, a literal name or a number. *)
Definition parse_scalar (s : jsstring) : parsed json :=
  match expect 34 s with
  | Some r =>
      match string_body r with
      | Some (body, r') => Parsed (JString body) r'
      | None => Malformed
      end
  | None =>
      match expect_word (js "true") s with
      | Some r => Parsed (JBool true) r
      | None =>
          match expect_word (js "false") s with
          | Some r => Parsed (JBool false) r
          | None =>
              match expect_word (js "null") s with
              | Some r => Parsed JNull r
              | None =>
                  match number_literal s with
                  | Some (literal, r) => Parsed (JNumber literal) r
                  | None => Malformed
                  end
              end
          end
      end
  end.

Fixpoint parse_value (fuel : nat) (s : jsstring) : parsed json :=
  match fuel with
  | O => OutOfFuel
  | S fuel' =>
      match expect 123 (skip_ws s) with
      | Some r =>
          match expect 125 (skip_ws r) with
          | Some r' => Parsed (JObject []) r'
          | None => parse_members fuel' (skip_ws r) []
          end
      | None =>
          match expect 91 (skip_ws s) with
          | Some r =>
              match expect 93 (skip_ws r) with
              | Some r' => Parsed (JArray []) r'
              | None => parse_elements fuel' (skip_ws r) []
              end
          | None => parse_scalar (skip_ws s)
          end
      end
  end

with parse_elements (fuel : nat) (s : jsstring) (acc : list json) : parsed json :=
  match fuel with
  | O => OutOfFuel
  | S fuel' =>
      match parse_value fuel' s with
      | Parsed v r =>
          match expect 44 (skip_ws r) with
          | Some r' => parse_elements fuel' r' (acc ++ [v])
          | None =>
              match expect 93 (skip_ws r) with
              | Some r' => Parsed (JArray (acc ++ [v])) r'
              | None => Malformed
              end
          end
      | Malformed => Malformed
      | OutOfFuel => OutOfFuel
      end
  end

with parse_members (fuel : nat) (s : jsstring) (acc : list (jsstring * json))
  : parsed json :=
  match fuel with
  | O => OutOfFuel
  | S fuel' =>
      match expect 34 (skip_ws s) with
      | Some r =>
          match string_body r with
          | Some (key, r1) =>
              match expect 58 (skip_ws r1) with
              | Some r2 =>
                  match parse_value fuel' r2 with
                  | Parsed v r3 =>
                      match expect 44 (skip_ws r3) with
                      | Some r4 => parse_members fuel' r4 (obj_define key v acc)
                      | None =>
                          match expect 125 (skip_ws r3) with
                          | Some r4 => Parsed (JObject (obj_define key v acc)) r4
                          | None => Malformed
                          end
                      end
                  | Malformed => Malformed
                  | OutOfFuel => OutOfFuel
                  end
              | None => Malformed
              end
          | None => Malformed
          end
      | None => Malformed
      end
  end.

(** The recursion budget of [parse]: every nested call consumes input. *)
Definition parse_fuel (s : jsstring) : nat := (2 * List.length s + 1)%nat.

(** [JSON.parse(text)]: a text that is not one JSON value, with nothing
    but white space around it, is a SyntaxError. *)
Definition parse (s : jsstring) : completion json :=
  match parse_value (parse_fuel s) s with
  | Parsed v r =>
      match skip_ws r with
      | [] => Normal v
      | _ => Throw SyntaxError
      end
  | _ => Throw SyntaxError
  end.

End Json.
Export Json.

(** ** The host *)

(** What [new URL(text)] exposes to the catalog; [searchParams] is the
    list of name-value pairs of the query, in order, names repeated as
    the query repeats them. *)
Record URL : Type := {
  href : jsstring;
  origin : jsstring;
  protocol : jsstring;
  username : jsstring;
  password : jsstring;
  host : jsstring;
  port : jsstring;
  hostname : jsstring;
  pathname : jsstring;
  search : jsstring;
  searchParams : list (jsstring * jsstring);
  hash : jsstring
}.

(** The libraries and tables the catalog relies on and this development
    does not write out.  A time value is a count of milliseconds since
    the epoch; [None] stands for the NaN of an invalid date. *)
Record Host : Type := {
  (** [new URL(text)], which throws on a text that is not a URL. *)
  URL_parse : jsstring -> completion URL;
  (** [new Date(text).getTime()]. *)
  Date_parse : jsstring -> option Z;
  (** [date.toISOString()] of a valid time value. *)
  Date_toISOString : Z -> jsstring;
  (** [new Date(v * 1000).toISOString()] for a JSON value [v]. *)
  seconds_toISOString : json -> completion jsstring;
  (** ToBoolean of the Number a numeric literal denotes. *)
  number_truthy : jsstring -> bool;
  (** ToString of the Number a numeric literal denotes, as
      [JSON.stringify] prints it. *)
  number_text : jsstring -> jsstring;
  (** ToString of the quotient [a / b] when it is not an integer. *)
  quotient_text : Z -> Z -> jsstring;
  (** [n.toString(radix)] of an integer-valued double of magnitude
      [2^53] or more. *)
  large_integer_text : Z -> Z -> jsstring;
  (** Digests of a byte sequence. *)
  md5 : list Z -> list Z;
  sha1 : list Z -> list Z;
  sha256 : list Z -> list Z;
  (** The [qs] library. *)
  qs_stringify : json -> completion jsstring;
  qs_parse : jsstring -> completion json;
  (** The character reference that the decoder of [html-entities] finds
      at the head of a text: its length and what it stands for. *)
  html_entity : jsstring -> option (nat * jsstring);
  (** [toUpperCase] and [toLowerCase] of a string that is not ASCII. *)
  Unicode_toUpperCase : jsstring -> jsstring;
  Unicode_toLowerCase : jsstring -> jsstring;
  (** [splitIntoWords] and [getTimeDifference] of [utils.ts]; the second
      takes the current time and the time value of the parsed date. *)
  splitIntoWords : jsstring -> completion (list jsstring);
  getTimeDifference : Z -> option Z -> completion (option jsstring)
}.

(** ** Strings, numbers and dates over a host *)

Section Builtins.

Variable h : Host.

Definition ascii_upper (u : Z) : Z := if is_ascii_lower u then u - 32 else u.
Definition ascii_lower (u : Z) : Z := if is_ascii_upper u then u + 32 else u.

Definition toUpperCase (s : jsstring) : jsstring :=
  if forallb is_ascii s then map ascii_upper s else Unicode_toUpperCase h s.

Definition toLowerCase (s : jsstring) : jsstring :=
  if forallb is_ascii s then map ascii_lower s else Unicode_toLowerCase h s.

(** [n.toString(radix)] for radix 10 or 16. *)
Definition Number_toString (n : number) (radix : Z) : jsstring :=
  match n with
  | NaN => js "NaN"
  | Infinity false => js "Infinity"
  | Infinity true => js "-Infinity"
  | Finite z =>
      if Z.abs z <? 2 ^ 53 then
        if radix =? 16 then hexadecimal_digits z else decimal_digits z
      else large_integer_text h radix z
  end.

(** [n * k] for a positive integer [k]. *)
Definition Number_times (n : number) (k : Z) : number :=
  match n with
  | Finite z => to_double (z * k)
  | other => other
  end.

(** The time value of [new Date(n)]: TimeClip of the number. *)
Definition TimeClip (n : number) : option Z :=
  match n with
  | Finite z => if Z.abs z <=? 8640000000000000 then Some z else None
  | _ => None
  end.

(** [date.toISOString()]: a RangeError on an invalid date. *)
Definition toISOString (t : option Z) : completion jsstring :=
  match t with
  | Some ms => Normal (Date_toISOString h ms)
  | None => Throw RangeError
  end.

(** [word[0].toUpperCase() + word.slice(1)]: [word[0]] is undefined for
    the empty word, and the method call on it is a TypeError. *)
Definition capitalize (word : jsstring) : completion jsstring :=
  match word with
  | [] => Throw TypeError
  | u :: rest => Normal (toUpperCase [u] ++ rest)
  end.

(** [words.map(f)] with the index passed to the callback. *)
Fixpoint mapM_index {A B} (f : A -> nat -> completion B) (i : nat) (l : list A)
  : completion (list B) :=
  match l with
  | [] => Normal []
  | a :: rest => b <- f a i ;; bs <- mapM_index f (S i) rest ;; Normal (b :: bs)
  end.

(** *** [html-entities] *)

(** [encode(text)] in its default mode replaces the five special
    characters by their named references. *)
Definition html_encode (s : jsstring) : jsstring :=
  flat_map (fun u =>
              if u =? 60 then js "&lt;"
              else if u =? 62 then js "&gt;"
              else if u =? 34 then js "&quot;"
              else if u =? 39 then js "&apos;"
              else if u =? 38 then js "&amp;"
              else [u]) s.

(** [decode(text)]: a scan that replaces every character reference it
    finds and copies the rest. *)
Fixpoint html_decode_from (skip : nat) (s : jsstring) : jsstring :=
  match s with
  | [] => []
  | u :: rest =>
      match skip with
      | S k => html_decode_from k rest
      | O =>
          match html_entity h s with
          | Some (n, text) => text ++ html_decode_from (Nat.pred n) rest
          | None => u :: html_decode_from 0 rest
          end
      end
  end.

Definition html_decode (s : jsstring) : jsstring := html_decode_from 0 s.

(** *** URL parameters *)

(** [url.searchParams.get(key)]: the value of the first pair named
    [key], or null. *)
Fixpoint searchParams_get (params : list (jsstring * jsstring)) (k : jsstring)
  : option jsstring :=
  match params with
  | [] => None
  | (k', v) :: rest => if JS.eqb k k' then Some v else searchParams_get rest k
  end.

(** [url.searchParams.getAll(key)]. *)
Definition searchParams_getAll (params : list (jsstring * jsstring)) (k : jsstring)
  : list jsstring :=
  map snd (filter (fun kv => JS.eqb k (fst kv)) params).

Definition json_of_nullable (v : option jsstring) : json :=
  match v with
  | Some s => JString s
  | None => JNull
  end.

(** The object literal that "Parse URL" passes to [JSON.stringify]. *)
Definition URL_object (url : URL) : json :=
  let searchParamKeys := map fst (searchParams url) in
  JObject
    [ (js "href", JString (href url));
      (js "origin", JString (origin url));
      (js "protocol", JString (protocol url));
      (js "username", JString (username url));
      (js "password", JString (password url));
      (js "host", JString (host url));
      (js "port", JString (port url));
      (js "hostname", JString (hostname url));
      (js "pathname", JString (pathname url));
      (js "search", JString (search url));
      (js "searchParams",
        JObject (fromEntries
                   (map (fun key =>
                           (key, json_of_nullable
                                   (searchParams_get (searchParams url) key)))
                      searchParamKeys)));
      (js "searchAllParams",
        JObject (fromEntries
                   (map (fun key =>
                           (key, JArray (map JString
                                           (searchParams_getAll (searchParams url) key))))
                      searchParamKeys)));
      (js "hash", JString (hash url)) ].

(** *** JSON Web Tokens *)

(** The class [[a-zA-Z0-9_-]] of the pattern. *)
Definition is_jwt_char (u : Z) : bool :=
  is_ascii_lower u || is_ascii_upper u || is_ascii_digit u
  || (u =? 95) || (u =? 45).

Fixpoint take_jwt_chars (s : jsstring) : jsstring * jsstring :=
  match s with
  | u :: rest =>
      if is_jwt_char u
      then let '(run, r) := take_jwt_chars rest in (u :: run, r)
      else ([], s)
  | [] => ([], [])
  end.

(** [eyJ[a-zA-Z0-9_-]+?\.] at the head of the input: the class excludes
    the dot, so the lazy run can only end where the class ends.  The
    result is the segment without its dot and the input after the dot. *)
Definition match_segment (s : jsstring) : option (jsstring * jsstring) :=
  match expect_word (js "eyJ") s with
  | Some r =>
      match take_jwt_chars r with
      | (c :: run, rest) =>
          match expect 46 rest with
          | Some r' => Some (js "eyJ" ++ c :: run, r')
          | None => None
          end
      | ([], _) => None
      end
  | None => None
  end.

(** The pattern at the head of the input: the text it matches. *)
Definition match_jwt (s : jsstring) : option jsstring :=
  match match_segment s with
  | Some (header, r1) =>
      match match_segment r1 with
      | Some (payload, r2) =>
          Some (header ++ 46 :: payload ++ 46 :: fst (take_jwt_chars r2))
      | None => None
      end
  | None => None
  end.

(** The matches of the global pattern, left to right, each search
    starting where the previous match ended. *)
Fixpoint jwt_matches_from (skip : nat) (s : jsstring) : list jsstring :=
  match s with
  | [] => []
  | _ :: rest =>
      match skip with
      | S k => jwt_matches_from k rest
      | O =>
          match match_jwt s with
          | Some m => m :: jwt_matches_from (Nat.pred (List.length m)) rest
          | None => jwt_matches_from 0 rest
          end
      end
  end.

Definition jwt_matches (s : jsstring) : list jsstring := jwt_matches_from 0 s.

(** [JSON.parse(Buffer.from(part, "base64").toString("utf-8"))]. *)
Definition decode_segment (part : jsstring) : completion json :=
  Json.parse (Utf8.decode (Base64.decode part)).

(** [payload.name] for the names iat, nbf and exp: reading a property of
    null is a TypeError; a value that is not an object has none of
    them. *)
Definition get_property (v : json) (name : jsstring) : completion (option json) :=
  match v with
  | JNull => Throw TypeError
  | JObject props => Normal (obj_get name props)
  | _ => Normal None
  end.

(** ToBoolean. *)
Definition truthy (v : option json) : bool :=
  match v with
  | None => false
  | Some JNull => false
  | Some (JBool b) => b
  | Some (JNumber literal) => number_truthy h literal
  | Some (JString s) => negb (JS.eqb s [])
  | Some _ => true
  end.

(** [payload.c ? new Date(payload.c * 1000).toISOString() : undefined]
    as the property [c_iso8601]; an undefined property is not printed. *)
Definition iso8601_field (payload : json) (name : jsstring)
  : completion (list (jsstring * json)) :=
  v <- get_property payload name ;;
  if truthy v then
    match v with
    | Some x =>
        text <- seconds_toISOString h x ;;
        Normal [(name ++ js "_iso8601", JString text)]
    | None => Normal []
    end
  else Normal [].

(** The callback of "Extract and Decode JWT" on one match. *)
Definition decode_jwt (jwt : jsstring) : completion jsstring :=
  match split_on 46 jwt with
  | [p0; p1; p2] =>
      header <- decode_segment p0 ;;
      payload <- decode_segment p1 ;;
      iat <- iso8601_field payload (js "iat") ;;
      nbf <- iso8601_field payload (js "nbf") ;;
      exp <- iso8601_field payload (js "exp") ;;
      Normal (stringify (number_text h)
                (JObject ([(js "header", header); (js "payload", payload)]
                          ++ iat ++ nbf ++ exp
                          ++ [(js "signature", JString p2)]))
                2)
  | _ => Normal jwt
  end.

End Builtins.

(** ** The catalog *)

(** An entry of the catalog.  A manipulation is called with the text;
    the reading of the clock that [new Date()] makes during the call is
    passed as its first argument. *)
Record Manipulation : Type := {
  key : jsstring;
  manipulation : Z -> jsstring -> completion (option jsstring)
}.

Section Catalog.

Variable h : Host.

(** A manipulation that returns the string it computes. *)
Definition returns (c : completion jsstring) : completion (option jsstring) :=
  r <- c ;; Normal (Some r).

(** The case conversions that map every word and join the results. *)
Definition convert_words (f : jsstring -> jsstring) (sep : jsstring) (text : jsstring)
  : completion (option jsstring) :=
  words <- splitIntoWords h (trim text) ;;
  Normal (Some (join sep (map f words))).

Definition convert_camelCase (text : jsstring) : completion (option jsstring) :=
  words <- splitIntoWords h (trim text) ;;
  parts <- mapM_index
             (fun word index =>
                if Nat.eqb index 0 then Normal word else capitalize h word)
             0 words ;;
  Normal (Some (join [] parts)).

Definition convert_capitalized (sep : jsstring) (text : jsstring)
  : completion (option jsstring) :=
  words <- splitIntoWords h (trim text) ;;
  parts <- mapM (capitalize h) words ;;
  Normal (Some (join sep parts)).

Definition convert_first_word_capitalized (text : jsstring)
  : completion (option jsstring) :=
  words <- splitIntoWords h (trim text) ;;
  parts <- mapM_index
             (fun word index =>
                if Nat.eqb index 0 then capitalize h word else Normal word)
             0 words ;;
  Normal (Some (join (js " ") parts)).

(** The base conversions: NaN gives the empty string. *)
Definition convert_base (input : jsstring) (from : Z)
  (print : number -> completion jsstring) : completion (option jsstring) :=
  let n := parseInt input from in
  if Number_isNaN n then Normal (Some []) else returns (print n).

Definition to_binary (n : number) : completion jsstring :=
  formatBinaryNumber (Number_toString2 n).

Definition parse_URL (text : jsstring) : completion (option jsstring) :=
  url <- URL_parse h (trim text) ;;
  Normal (Some (stringify (number_text h) (URL_object url) 2)).

Definition extract_JWT (text : jsstring) : completion (option jsstring) :=
  match jwt_matches text with
  | [] => Normal None
  | matches => Normal (Some (join [10] matches))
  end.

Definition extract_and_decode_JWT (text : jsstring) : completion (option jsstring) :=
  parts <- mapM (decode_jwt h) (jwt_matches text) ;;
  Normal (Some (join [10] parts)).

Definition manipulations : list Manipulation :=
  [ {| key := js "Raw";
       manipulation := fun _ text => Normal (Some text) |};
    {| key := js "Hex encoding";
       manipulation := fun _ text =>
         Normal (Some (Hex.encode (Utf8.encode text))) |};
    {| key := js "Hex decoding";
       manipulation := fun _ text =>
         Normal (Some (Utf8.decode (Hex.decode text))) |};
    {| key := js "Base64 encoding";
       manipulation := fun _ text =>
         Normal (Some (Base64.encode (Utf8.encode text))) |};
    {| key := js "Base64 decoding";
       manipulation := fun _ text =>
         Normal (Some (Utf8.decode (Base64.decode text))) |};
    {| key := js "URL encoding";
       manipulation := fun _ text => returns (URI.encodeURIComponent text) |};
    {| key := js "URL decoding";
       manipulation := fun _ text => returns (URI.decodeURIComponent text) |};
    {| key := js "HTML encoding";
       manipulation := fun _ text => Normal (Some (html_encode text)) |};
    {| key := js "HTML decoding";
       manipulation := fun _ text => Normal (Some (html_decode h text)) |};
    {| key := js "Parse URL";
       manipulation := fun _ text => parse_URL text |};
    {| key := js "Convert UNIX timestamp (sec) to ISO 8601";
       manipulation := fun _ text =>
         let timestamp := parseInt (trim text) 10 in
         returns (toISOString h (TimeClip (Number_times timestamp 1000))) |};
    {| key := js "Convert ISO 8601 to UNIX timestamp (sec)";
       manipulation := fun _ text =>
         match Date_parse h (trim text) with
         | None => Normal None
         | Some t =>
             Normal (Some (if t mod 1000 =? 0 then decimal_digits (t / 1000)
                           else quotient_text h t 1000))
         end |};
    {| key := js "Convert UNIX timestamp (ms) to ISO 8601";
       manipulation := fun _ text =>
         let timestamp := parseInt (trim text) 10 in
         returns (toISOString h (TimeClip timestamp)) |};
    {| key := js "Convert ISO 8601 to UNIX timestamp (ms)";
       manipulation := fun _ text =>
         match Date_parse h (trim text) with
         | None => Normal None
         | Some t => Normal (Some (decimal_digits t))
         end |};
    {| key := js "Convert duration from now";
       manipulation := fun now text =>
         getTimeDifference h now (Date_parse h (trim text)) |};
    {| key := js "Prettify JSON";
       manipulation := fun _ text =>
         v <- Json.parse text ;;
         Normal (Some (stringify (number_text h) v 2)) |};
    {| key := js "Minify JSON";
       manipulation := fun _ text =>
         v <- Json.parse text ;;
         Normal (Some (stringify (number_text h) v 0)) |};
    {| key := js "Escape as JSON string";
       manipulation := fun _ text => Normal (Some (Json.quote text)) |};
    {| key := js "Convert JSON to form";
       manipulation := fun _ text =>
         json <- Json.parse (trim text) ;;
         returns (qs_stringify h json) |};
    {| key := js "Convert form to JSON";
       manipulation := fun _ text =>
         obj <- qs_parse h (trim text) ;;
         Normal (Some (stringify (number_text h) obj 2)) |};
    {| key := js "Extract JWT";
       manipulation := fun _ text => extract_JWT text |};
    {| key := js "Extract and Decode JWT";
       manipulation := fun _ text => extract_and_decode_JWT text |};
    {| key := js "Calculate md5";
       manipulation := fun _ text =>
         Normal (Some (Hex.encode (md5 h (Utf8.encode text)))) |};
    {| key := js "Calculate sha1";
       manipulation := fun _ text =>
         Normal (Some (Hex.encode (sha1 h (Utf8.encode text)))) |};
    {| key := js "Calculate sha256";
       manipulation := fun _ text =>
         Normal (Some (Hex.encode (sha256 h (Utf8.encode text)))) |};
    {| key := js "Convert camelCase";
       manipulation := fun _ text => convert_camelCase text |};
    {| key := js "Convert PascalCase";
       manipulation := fun _ text => convert_capitalized [] text |};
    {| key := js "Convert lower-kebab-case";
       manipulation := fun _ text => convert_words (toLowerCase h) (js "-") text |};
    {| key := js "Convert UPPER-KEBAB-CASE";
       manipulation := fun _ text => convert_words (toUpperCase h) (js "-") text |};
    {| key := js "Convert lower_snake_case";
       manipulation := fun _ text => convert_words (toLowerCase h) (js "_") text |};
    {| key := js "Convert UPPER_SNAKE_CASE";
       manipulation := fun _ text => convert_words (toUpperCase h) (js "_") text |};
    {| key := js "Convert dot.case";
       manipulation := fun _ text => convert_words (toLowerCase h) (js ".") text |};
    {| key := js "Convert lowercase";
       manipulation := fun _ text => Normal (Some (toLowerCase h text)) |};
    {| key := js "Convert UPPERCASE";
       manipulation := fun _ text => Normal (Some (toUpperCase h text)) |};
    {| key := js "Convert words lowercase";
       manipulation := fun _ text => convert_words (toLowerCase h) (js " ") text |};
    {| key := js "Convert First word capitalized";
       manipulation := fun _ text => convert_first_word_capitalized text |};
    {| key := js "Convert Words Capitalized";
       manipulation := fun _ text => convert_capitalized (js " ") text |};
    {| key := js "Generate fuzzy search regex";
       manipulation := fun _ text => convert_words (fun w => w) (js ".*") text |};
    {| key := js "Hex(16) to Decimal(10)";
       manipulation := fun _ text =>
         convert_base (trim text) 16 (fun n => Normal (Number_toString h n 10)) |};
    {| key := js "Hex(16) to Binary(2)";
       manipulation := fun _ text => convert_base (trim text) 16 to_binary |};
    {| key := js "Decimal(10) to Hex(16)";
       manipulation := fun _ text =>
         convert_base (trim text) 10 (fun n => Normal (Number_toString h n 16)) |};
    {| key := js "Decimal(10) to Binary(2)";
       manipulation := fun _ text => convert_base (trim text) 10 to_binary |};
    {| key := js "Binary(2) to Hex(16)";
       manipulation := fun _ text =>
         convert_base (remove_spaces (trim text)) 2
           (fun n => Normal (Number_toString h n 16)) |};
    {| key := js "Binary(2) to Decimal(10)";
       manipulation := fun _ text =>
         convert_base (remove_spaces (trim text)) 2
           (fun n => Normal (Number_toString h n 10)) |} ].

(** ** The runner *)

Record Result : Type := {
  result_key : jsstring;
  value : jsstring
}.

(** The callback of [manipulateString]: a throw is caught and leaves
    null, and null is recorded as the empty string. *)
Definition run (now : Z) (string : jsstring) (converter : Manipulation) : Result :=
  let v := match manipulation converter now string with
           | Normal v => v
           | Throw _ => None
           end in
  {| result_key := key converter;
     value := match v with Some s => s | None => [] end |}.

Definition manipulateString (now : Z) (string : jsstring) : list Result :=
  map (run now string) manipulations.

(** The value recorded under a label. *)
Definition value_of (label : jsstring) (results : list Result) : option jsstring :=
  match find (fun r => JS.eqb (result_key r) label) results with
  | Some r => Some (value r)
  | None => None
  end.

(** The catalog entry with a label. *)
Definition entry (label : jsstring) : option Manipulation :=
  find (fun m => JS.eqb (key m) label) manipulations.

End Catalog.

(** The labels of the catalog, in the order of the source. *)
Definition labels : list jsstring :=
  map js
    [ "Raw"; "Hex encoding"; "Hex decoding"; "Base64 encoding"; "Base64 decoding";
      "URL encoding"; "URL decoding"; "HTML encoding"; "HTML decoding"; "Parse URL";
      "Convert UNIX timestamp (sec) to ISO 8601";
      "Convert ISO 8601 to UNIX timestamp (sec)";
      "Convert UNIX timestamp (ms) to ISO 8601";
      "Convert ISO 8601 to UNIX timestamp (ms)";
      "Convert duration from now"; "Prettify JSON"; "Minify JSON";
      "Escape as JSON string"; "Convert JSON to form"; "Convert form to JSON";
      "Extract JWT"; "Extract and Decode JWT"; "Calculate md5"; "Calculate sha1";
      "Calculate sha256"; "Convert camelCase"; "Convert PascalCase";
      "Convert lower-kebab-case"; "Convert UPPER-KEBAB-CASE";
      "Convert lower_snake_case"; "Convert UPPER_SNAKE_CASE"; "Convert dot.case";
      "Convert lowercase"; "Convert UPPERCASE"; "Convert words lowercase";
      "Convert First word capitalized"; "Convert Words Capitalized";
      "Generate fuzzy search regex"; "Hex(16) to Decimal(10)";
      "Hex(16) to Binary(2)"; "Decimal(10) to Hex(16)"; "Decimal(10) to Binary(2)";
      "Binary(2) to Hex(16)"; "Binary(2) to Decimal(10)" ]%string.

(** ** The helpers of [utils.ts] and a host to evaluate on *)

Module Sample.

(** *** [splitIntoWords] *)

Inductive char_class : Type := Upper | Lower | Digit | Separator.

(** ASCII letters and digits by their case; the other ASCII characters
    (white space, punctuation) separate words; a character outside ASCII
    counts as a lower-case letter. *)
Definition classify (u : Z) : char_class :=
  if is_ascii_upper u then Upper
  else if is_ascii_lower u then Lower
  else if is_ascii_digit u then Digit
  else if is_ascii u then Separator
  else Lower.

(** Is there a word boundary between the adjacent characters [a] and
    [b], [next] being the character after [b]?  A hump (lower case, then
    upper case), a change between digit and letter, and the last capital
    of an acronym when a lower-case letter follows it. *)
Definition boundary (a b : Z) (next : option Z) : bool :=
  match classify a, classify b with
  | Lower, Upper => true
  | Digit, (Upper | Lower) => true
  | (Upper | Lower), Digit => true
  | Upper, Upper =>
      match next with
      | Some c => match classify c with Lower => true | _ => false end
      | None => false
      end
  | _, _ => false
  end.

(** The words of the text, the first one being the (possibly empty) word
    that starts at its head. *)
Fixpoint words_from (s : jsstring) : list jsstring :=
  match s with
  | [] => [[]]
  | a :: rest =>
      match classify a with
      | Separator => [] :: words_from rest
      | _ =>
          match rest with
          | b :: rest' =>
              if boundary a b (hd_error rest') then [a] :: words_from rest
              else match words_from rest with
                   | w :: ws => (a :: w) :: ws
                   | [] => [[a]]
                   end
          | [] => [[a]]
          end
      end
  end.

(** Modelled from the spec: [splitIntoWords] of [utils.ts], a file that
    is not among the sources.  Section 4.1 of the spec: the text is split
    on "whitespace/punctuation runs, camelCase/PascalCase humps
    (lowercase to uppercase transition), digit/letter transitions, and
    consecutive uppercase runs treated as acronyms"; the tokens are
    non-empty substrings of the input and the tokenizer never fails. *)
Definition splitIntoWords (text : jsstring) : completion (list jsstring) :=
  Normal (filter (fun w => negb (JS.eqb w [])) (words_from text)).

(** *** [getTimeDifference] *)

Definition unit_text (n : Z) (unit : string) : jsstring :=
  decimal_digits n ++ js unit.

(** A duration in milliseconds as days, hours, minutes and seconds. *)
Definition humanize (ms : Z) : jsstring :=
  let s := ms / 1000 in
  join (js " ")
    [ unit_text (s / 86400) "d"; unit_text ((s / 3600) mod 24) "h";
      unit_text ((s / 60) mod 60) "m"; unit_text (s mod 60) "s" ].

(** Modelled from the spec: [getTimeDifference] of [utils.ts], a file
    that is not among the sources.  Section 4.2 of the spec: it "computes
    elapsed/remaining time between current instant and parsed input date,
    humanized".  The spec does not give the wording: here the time is
    counted in days, hours, minutes and seconds and marked as elapsed or
    remaining, and an invalid date has no result. *)
Definition getTimeDifference (now : Z) (date : option Z)
  : completion (option jsstring) :=
  match date with
  | None => Normal None
  | Some t =>
      if t <? now then Normal (Some (humanize (now - t) ++ js " ago"))
      else Normal (Some (humanize (t - now) ++ js " left"))
  end.

(** *** Dates in the format of [toISOString] *)

Definition days_from_civil (y m d : Z) : Z :=
  let y' := if m <=? 2 then y - 1 else y in
  let era := y' / 400 in
  let yoe := y' - era * 400 in
  let doy := (153 * (if 2 <? m then m - 3 else m + 9) + 2) / 5 + d - 1 in
  let doe := yoe * 365 + yoe / 4 - yoe / 100 + doy in
  era * 146097 + doe - 719468.

Definition days_in_month (y m : Z) : Z :=
  if m =? 2 then
    if (y mod 4 =? 0) && (negb (y mod 100 =? 0) || (y mod 400 =? 0)) then 29 else 28
  else if (m =? 4) || (m =? 6) || (m =? 9) || (m =? 11) then 30
  else 31.

Definition digits_of (s : jsstring) : option Z :=
  if forallb is_ascii_digit s
  then Some (digits_value 10 (map (fun u => u - 48) s))
  else None.

(** The time value of a text of the form [YYYY-MM-DDTHH:mm:ss.sssZ];
    this host reads no other format. *)
Definition Date_parse (s : jsstring) : option Z :=
  match s with
  | [y1; y2; y3; y4; 45; m1; m2; 45; d1; d2; 84;
     h1; h2; 58; n1; n2; 58; s1; s2; 46; f1; f2; f3; 90] =>
      match digits_of [y1; y2; y3; y4], digits_of [m1; m2], digits_of [d1; d2],
            digits_of [h1; h2], digits_of [n1; n2], digits_of [s1; s2],
            digits_of [f1; f2; f3] with
      | Some y, Some m, Some d, Some hh, Some mm, Some ss, Some ms =>
          if (1 <=? m) && (m <=? 12) && (1 <=? d) && (d <=? days_in_month y m)
             && (hh <=? 23) && (mm <=? 59) && (ss <=? 59)
          then Some (days_from_civil y m d * 86400000
                     + hh * 3600000 + mm * 60000 + ss * 1000 + ms)
          else None
      | _, _, _, _, _, _, _ => None
      end
  | _ => None
  end.

(** *** Character references *)

Definition starts_with (prefix s : jsstring) : bool :=
  JS.eqb (firstn (List.length prefix) s) prefix.

(** The five references that [encode] produces; this host knows no
    other. *)
Definition html_entity (s : jsstring) : option (nat * jsstring) :=
  if starts_with (js "&lt;") s then Some (4%nat, [60])
  else if starts_with (js "&gt;") s then Some (4%nat, [62])
  else if starts_with (js "&quot;") s then Some (6%nat, [34])
  else if starts_with (js "&apos;") s then Some (6%nat, [39])
  else if starts_with (js "&amp;") s then Some (5%nat, [38])
  else None.

(** *** The host *)

(** A host for evaluating the catalog on examples: the helpers above,
    dates in the ISO format and the five character references; the
    libraries that no example below calls are stand-ins that throw or
    return their argument. *)
Definition host : Host :=
  Build_Host
    (fun _ => Throw HostError)                    (* URL_parse *)
    Date_parse
    (fun t => decimal_digits t)                   (* Date_toISOString *)
    (fun _ => Throw HostError)                    (* seconds_toISOString *)
    (fun literal => existsb (fun u => (49 <=? u) && (u <=? 57)) literal)
    (fun literal => literal)                      (* number_text *)
    (fun a b => decimal_digits a ++ 47 :: decimal_digits b)
    (fun _ z => decimal_digits z)                 (* large_integer_text *)
    (fun bs => bs) (fun bs => bs) (fun bs => bs)  (* md5, sha1, sha256 *)
    (fun _ => Throw HostError)                    (* qs_stringify *)
    (fun _ => Throw HostError)                    (* qs_parse *)
    html_entity
    (fun s => s) (fun s => s)                     (* Unicode case tables *)
    splitIntoWords
    getTimeDifference.

End Sample.


(** ** The list of the command *)

(** The part of [src/manipulate-string.tsx] that computes: which results
    are listed and the texts shown for them.  Reading the clipboard and
    rendering are left to the host application. *)
Module UI.

(** Does the text start with the prefix? *)
Fixpoint has_prefix (prefix text : jsstring) : bool :=
  match prefix, text with
  | [], _ => true
  | p :: prefix', u :: text' => (u =? p) && has_prefix prefix' text'
  | _ :: _, [] => false
  end.

(** [text.includes(needle)]. *)
Fixpoint includes (text needle : jsstring) : bool :=
  has_prefix needle text
  || match text with
     | [] => false
     | _ :: rest => includes rest needle
     end.

(** The three characters of the string literal in [filtering]. *)
Definition needle : jsstring := [239; 191; 189].

(** [filtering(text)]: a result is listed unless its value contains the
    needle or is empty. *)
Definition filtering (text : jsstring) : bool :=
  if includes text needle then false
  else if JS.eqb text [] then false
  else true.

(** [value.replaceAll(/\n+/g, " ")]: every maximal run of line feeds
    becomes one space; [in_run] tells that the previous character was a
    line feed of the run being replaced. *)
Fixpoint collapse_newlines (in_run : bool) (value : jsstring) : jsstring :=
  match value with
  | [] => []
  | u :: rest =>
      if u =? 10
      then (if in_run then [] else [32]) ++ collapse_newlines true rest
      else u :: collapse_newlines false rest
  end.

Definition formatForSubtile (value : jsstring) : jsstring :=
  collapse_newlines false value.

Definition indent : jsstring := [32; 32; 32; 32].

(** [formatMarkdown(value)]: the lines of the value, each after four
    spaces, between two lines of four spaces. *)
Definition formatMarkdown (value : jsstring) : jsstring :=
  join [10]
    [ indent;
      join [10] (map (fun s => indent ++ s) (split_on 10 value));
      indent ].

(** A [List.Item] of the command: the React key and the title are the
    label; [content] is what the copy and paste actions carry. *)
Record Item : Type := {
  item_key : jsstring;
  title : jsstring;
  subtitle : jsstring;
  content : jsstring;
  markdown : jsstring
}.

(** The items of the list that [Command] renders for the clipboard text:
    none while the text is not there yet ([data === undefined]). *)
Definition Command (h : Host) (now : Z) (data : option jsstring) : list Item :=
  match data with
  | None => []
  | Some text =>
      map (fun r =>
             {| item_key := result_key r;
                title := result_key r;
                subtitle := formatForSubtile (value r);
                content := value r;
                markdown := formatMarkdown (value r) |})
        (filter (fun r => filtering (value r)) (manipulateString h now text))
  end.

End UI.

(** One list is the other with some of its elements left out. *)
Inductive subsequence {A : Type} : list A -> list A -> Prop :=
  | subsequence_nil : subsequence [] []
  | subsequence_keep x l1 l2 : subsequence l1 l2 -> subsequence (x :: l1) (x :: l2)
  | subsequence_drop x l1 l2 : subsequence l1 l2 -> subsequence l1 (x :: l2).

(** ** Vocabulary of the statements *)

(** The outcome of the catalog entry with a label on an input. *)
Definition apply_entry (h : Host) (label : jsstring) (now : Z) (x : jsstring)
  : option (completion (option jsstring)) :=
  option_map (fun m => manipulation m now x) (entry h label).

(** The entry [encoder] returns a text on [x] that the entry [decoder]
    turns back into [x]. *)
Definition round_trip (h : Host) (now : Z) (encoder decoder x : jsstring) : Prop :=
  exists y,
    apply_entry h encoder now x = Some (Normal (Some y))
    /\ apply_entry h decoder now y = Some (Normal (Some x)).

(** C0 and C1 control characters and DEL. *)
Definition is_control (u : Z) : bool :=
  (u <? 32) || (127 <=? u) && (u <=? 159).

(** Printable text: well-formed UTF-16 without control characters. *)
Definition printable_text (x : jsstring) : Prop :=
  well_formed x = true /\ forallb (fun u => negb (is_control u)) x = true.

(** A property of the object that "Parse URL" prints. *)
Definition URL_field (name : jsstring) (url : URL) : option json :=
  match URL_object url with
  | JObject props => obj_get name props
  | _ => None
  end.

(** What [new URL("https://example.com/?a=1&a=2")] exposes. *)
Definition repeated_parameter_URL : URL := {|
  href := js "https://example.com/?a=1&a=2";
  origin := js "https://example.com";
  protocol := js "https:";
  username := [];
  password := [];
  host := js "example.com";
  port := [];
  hostname := js "example.com";
  pathname := js "/";
  search := js "?a=1&a=2";
  searchParams := [(js "a", js "1"); (js "a", js "2")];
  hash := []
|}.

(** Does a completion throw? *)
Definition throws {A} (c : completion A) : bool :=
  match c with
  | Throw _ => true
  | Normal _ => false
  end.

(** A match of the JWT pattern whose header or payload segment is not
    base64 of JSON text. *)
Definition undecodable (jwt : jsstring) : bool :=
  match split_on 46 jwt with
  | [p0; p1; _] => throws (decode_segment p0) || throws (decode_segment p1)
  | _ => false
  end.

(** Does the text start with two hex digits, as the decoder of
    [Buffer] reads them? *)
Definition hex_pair_at_head (s : jsstring) : bool :=
  match s with
  | a :: b :: _ =>
      match Hex.unhex a, Hex.unhex b with
      | Some _, Some _ => true
      | _, _ => false
      end
  | _ => false
  end.

(** Valid hex: an even number of hex digits. *)
Definition valid_hex (s : jsstring) : bool :=
  Nat.even (List.length s)
  && forallb (fun u => match URI.hex_value u with Some _ => true | None => false end) s.

(** A character of the base64 alphabets of [Buffer]. *)
Definition is_base64_char (u : Z) : bool :=
  match Base64.unbase64 u with Some _ => true | None => false end.

(** Valid base64: a multiple of four characters, each of the alphabet
    or the padding character. *)
Definition valid_base64 (s : jsstring) : bool :=
  Nat.eqb (Nat.modulo (List.length s) 4) 0
  && forallb (fun u => is_base64_char u || (u =? 61)) s.

(** A code unit is a 16-bit value. *)
Definition code_unit (u : Z) : Prop := 0 <= u < 65536.

(** A parsing outcome that did not exhaust the budget and, when it is a
    value, left less input than it was given. *)
Definition within_budget (p : Json.parsed json) (s : jsstring) : Prop :=
  p <> Json.OutOfFuel
  /\ forall v r, p = Json.Parsed v r -> (List.length r < List.length s)%nat.

(** A byte of a [Buffer]. *)
Definition byte (b : Z) : Prop := 0 <= b < 256.

(** A Unicode scalar value: a code point that is not a surrogate. *)
Definition scalar (cp : Z) : Prop :=
  0 <= cp < 1114112 /\ ~ (55296 <= cp <= 57343).

(** What the round trip needs of the decoder of [html-entities]: a
    reference starts with an ampersand, and the five references that
    [encode] writes are read at the head of any text. *)
Definition standard_references (h : Host) : Prop :=
  (forall u s, u <> 38 -> html_entity h (u :: s) = None)
  /\ (forall s, html_entity h (js "&lt;" ++ s) = Some (4%nat, [60]))
  /\ (forall s, html_entity h (js "&gt;" ++ s) = Some (4%nat, [62]))
  /\ (forall s, html_entity h (js "&quot;" ++ s) = Some (6%nat, [34]))
  /\ (forall s, html_entity h (js "&apos;" ++ s) = Some (6%nat, [39]))
  /\ (forall s, html_entity h (js "&amp;" ++ s) = Some (5%nat, [38])).

(** Are the strings of the list pairwise different? *)
Fixpoint distinct (l : list jsstring) : bool :=
  match l with
  | [] => true
  | x :: rest => negb (existsb (JS.eqb x) rest) && distinct rest
  end.

(** The binary digits of a positive integer, as digit values. *)
Fixpoint bits (p : positive) : list Z :=
  match p with
  | xH => [1]
  | xO p' => bits p' ++ [0]
  | xI p' => bits p' ++ [1]
  end.

(** The digit values of a decimal numeral. *)
Fixpoint uint_digits (d : Decimal.uint) : list Z :=
  match d with
  | Decimal.Nil => []
  | Decimal.D0 d' => 0 :: uint_digits d'
  | Decimal.D1 d' => 1 :: uint_digits d'
  | Decimal.D2 d' => 2 :: uint_digits d'
  | Decimal.D3 d' => 3 :: uint_digits d'
  | Decimal.D4 d' => 4 :: uint_digits d'
  | Decimal.D5 d' => 5 :: uint_digits d'
  | Decimal.D6 d' => 6 :: uint_digits d'
  | Decimal.D7 d' => 7 :: uint_digits d'
  | Decimal.D8 d' => 8 :: uint_digits d'
  | Decimal.D9 d' => 9 :: uint_digits d'
  end.

(** The digit values of a hexadecimal numeral. *)
Fixpoint hex_uint_digits (d : Hexadecimal.uint) : list Z :=
  match d with
  | Hexadecimal.Nil => []
  | Hexadecimal.D0 d' => 0 :: hex_uint_digits d'
  | Hexadecimal.D1 d' => 1 :: hex_uint_digits d'
  | Hexadecimal.D2 d' => 2 :: hex_uint_digits d'
  | Hexadecimal.D3 d' => 3 :: hex_uint_digits d'
  | Hexadecimal.D4 d' => 4 :: hex_uint_digits d'
  | Hexadecimal.D5 d' => 5 :: hex_uint_digits d'
  | Hexadecimal.D6 d' => 6 :: hex_uint_digits d'
  | Hexadecimal.D7 d' => 7 :: hex_uint_digits d'
  | Hexadecimal.D8 d' => 8 :: hex_uint_digits d'
  | Hexadecimal.D9 d' => 9 :: hex_uint_digits d'
  | Hexadecimal.Da d' => 10 :: hex_uint_digits d'
  | Hexadecimal.Db d' => 11 :: hex_uint_digits d'
  | Hexadecimal.Dc d' => 12 :: hex_uint_digits d'
  | Hexadecimal.Dd d' => 13 :: hex_uint_digits d'
  | Hexadecimal.De d' => 14 :: hex_uint_digits d'
  | Hexadecimal.Df d' => 15 :: hex_uint_digits d'
  end.

(** Does the text start with the two hex digits of a percent escape? *)
Definition hex_escape_at_head (s : jsstring) : bool :=
  match s with
  | a :: b :: _ =>
      match URI.hex_value a, URI.hex_value b with
      | Some _, Some _ => true
      | _, _ => false
      end
  | _ => false
  end.

(** [String.prototype.toWellFormed]: every surrogate without its partner
    is replaced by U+FFFD. *)
Fixpoint toWellFormed (s : jsstring) : jsstring :=
  match s with
  | [] => []
  | u :: rest =>
      if is_high_surrogate u then
        match rest with
        | v :: rest' =>
            if is_low_surrogate v then u :: v :: toWellFormed rest'
            else 65533 :: toWellFormed rest
        | [] => [65533]
        end
      else if is_low_surrogate u then 65533 :: toWellFormed rest
      else u :: toWellFormed rest
  end.

(** * Proofs *)

(** ** Strings *)

Lemma eqb_eq a b : JS.eqb a b = true <-> a = b.
Proof. unfold JS.eqb. destruct (list_eq_dec Z.eq_dec a b); split; congruence. Qed.

Lemma eqb_refl a : JS.eqb a a = true.
Proof. now apply eqb_eq. Qed.

Lemma eqb_neq a b : JS.eqb a b = false <-> a <> b.
Proof. unfold JS.eqb. destruct (list_eq_dec Z.eq_dec a b); split; congruence. Qed.

(** Case analysis on the comparisons of a goal. *)
Ltac zcases :=
  repeat match goal with
    | |- context [Z.eqb ?a ?b] => destruct (Z.eqb_spec a b)
    | |- context [Z.ltb ?a ?b] => destruct (Z.ltb_spec a b)
    | |- context [Z.leb ?a ?b] => destruct (Z.leb_spec a b)
    end.

Ltac zcases_in H :=
  repeat match type of H with
    | context [Z.eqb ?a ?b] => destruct (Z.eqb_spec a b)
    | context [Z.ltb ?a ?b] => destruct (Z.ltb_spec a b)
    | context [Z.leb ?a ?b] => destruct (Z.leb_spec a b)
    end.

Lemma hex_value_digit d : 0 <= d < 16 -> URI.hex_value (Hex.digit d) = Some d.
Proof.
  intros Hd. unfold URI.hex_value, Hex.digit, is_ascii_digit.
  zcases; cbn [andb orb]; zcases; cbn [andb orb]; try lia; f_equal; lia.
Qed.

Lemma hex4_value_hex4 u :
  code_unit u ->
  Json.hex4_value (Hex.digit (u / 4096)) (Hex.digit ((u / 256) mod 16))
    (Hex.digit ((u / 16) mod 16)) (Hex.digit (u mod 16)) = Some u.
Proof.
  intros Hu. unfold code_unit in Hu. unfold Json.hex4_value.
  rewrite !hex_value_digit by (Z.div_mod_to_equations; lia).
  f_equal. Z.div_mod_to_equations. lia.
Qed.

Lemma string_body_escape u tail :
  code_unit u ->
  Json.string_body (Json.unicode_escape u ++ tail)
  = Json.cons_unit u (Json.string_body tail).
Proof.
  intros Hu. unfold Json.unicode_escape, Json.hex4.
  cbn [app Json.string_body Z.eqb Pos.eqb].
  now rewrite hex4_value_hex4.
Qed.

Lemma string_body_literal u tail :
  32 <= u -> u <> 34 -> u <> 92 ->
  Json.string_body (u :: tail) = Json.cons_unit u (Json.string_body tail).
Proof.
  intros H1 H2 H3. cbn [Json.string_body].
  zcases; try lia. reflexivity.
Qed.

Lemma string_body_quote_unit u tail :
  code_unit u ->
  Json.string_body (Json.quote_unit u ++ tail)
  = Json.cons_unit u (Json.string_body tail).
Proof.
  intros Hu. unfold Json.quote_unit.
  destruct (Z.eqb_spec u 8) as [->|]; [reflexivity|].
  destruct (Z.eqb_spec u 9) as [->|]; [reflexivity|].
  destruct (Z.eqb_spec u 10) as [->|]; [reflexivity|].
  destruct (Z.eqb_spec u 12) as [->|]; [reflexivity|].
  destruct (Z.eqb_spec u 13) as [->|]; [reflexivity|].
  destruct (Z.eqb_spec u 34) as [->|]; [reflexivity|].
  destruct (Z.eqb_spec u 92) as [->|]; [reflexivity|].
  destruct (Z.ltb_spec u 32).
  - now apply string_body_escape.
  - now apply string_body_literal.
Qed.

Lemma string_body_quote_body_bounded n :
  forall x rest,
    (List.length x <= n)%nat -> Forall code_unit x ->
    Json.string_body (Json.quote_body x ++ 34 :: rest) = Some (x, rest).
Proof.
  induction n as [|n IH]; intros x rest Hlen Hx.
  - destruct x; [reflexivity | simpl in Hlen; lia].
  - destruct x as [|u x]; [reflexivity|].
    inversion Hx as [|? ? Hu Hx']; subst. simpl in Hlen.
    cbn [Json.quote_body].
    destruct (is_high_surrogate u) eqn:Hhi.
    + destruct x as [|v x].
      * rewrite string_body_escape by assumption. reflexivity.
      * destruct (is_low_surrogate v) eqn:Hlo.
        -- inversion Hx' as [|? ? Hv Hx'']; subst. simpl in Hlen.
           unfold is_high_surrogate in Hhi. unfold is_low_surrogate in Hlo.
           apply andb_prop in Hhi as [Hh1 Hh2]. apply andb_prop in Hlo as [Hl1 Hl2].
           apply Z.leb_le in Hh1, Hh2, Hl1, Hl2.
           change (u :: v :: Json.quote_body x ++ 34 :: rest)
             with (u :: (v :: (Json.quote_body x ++ 34 :: rest))).
           rewrite <- !app_comm_cons.
           rewrite !string_body_literal by lia.
           rewrite IH by (assumption || lia). reflexivity.
        -- rewrite <- app_assoc, string_body_escape by assumption.
           rewrite IH by (assumption || lia). reflexivity.
    + destruct (is_low_surrogate u) eqn:Hlo.
      * rewrite <- app_assoc, string_body_escape by assumption.
        rewrite IH by (assumption || lia). reflexivity.
      * rewrite <- app_assoc, string_body_quote_unit by assumption.
        rewrite IH by (assumption || lia). reflexivity.
Qed.

Lemma string_body_quote_body x rest :
  Forall code_unit x ->
  Json.string_body (Json.quote_body x ++ 34 :: rest) = Some (x, rest).
Proof. intros. now apply (string_body_quote_body_bounded (List.length x)). Qed.

(** *** [JSON.parse] never runs out of its recursion budget *)

Lemma skip_ws_length s : (List.length (Json.skip_ws s) <= List.length s)%nat.
Proof.
  induction s as [|u s IH]; simpl; [lia|].
  destruct (Json.is_json_space u); simpl; lia.
Qed.

Lemma expect_length c s r :
  expect c s = Some r -> List.length s = S (List.length r).
Proof.
  destruct s as [|u s]; simpl; [discriminate|].
  destruct (u =? c); [|discriminate]. now intros [= ->].
Qed.

Lemma expect_word_length w : forall s r,
  expect_word w s = Some r ->
  List.length s = (List.length w + List.length r)%nat.
Proof.
  induction w as [|c w IH]; simpl; intros s r H.
  - now injection H as ->.
  - destruct (expect c s) as [s'|] eqn:E; [|discriminate].
    apply expect_length in E. apply IH in H. lia.
Qed.

Lemma take_digits_length s :
  (List.length (snd (Json.take_digits s)) <= List.length s)%nat
  /\ (fst (Json.take_digits s) <> [] ->
      List.length (snd (Json.take_digits s)) < List.length s)%nat.
Proof.
  induction s as [|u s [IH1 IH2]]; simpl.
  - split; [lia | congruence].
  - destruct (is_ascii_digit u).
    + destruct (Json.take_digits s) as [d r]; simpl in *. split; intros; lia.
    + simpl. split; [lia | congruence].
Qed.

Lemma digits1_length s d r :
  Json.digits1 s = Some (d, r) -> (List.length r < List.length s)%nat.
Proof.
  unfold Json.digits1. pose proof (take_digits_length s) as [_ H].
  destruct (Json.take_digits s) as [[|u d'] r']; [discriminate|].
  intros [= <- <-]. apply H. simpl. congruence.
Qed.

Lemma cons_unit_inv u o b r :
  Json.cons_unit u o = Some (b, r) -> exists b', o = Some (b', r).
Proof.
  destruct o as [[b' r']|]; simpl; [|discriminate].
  intros [= <- <-]. now exists b'.
Qed.

Lemma string_body_length_bounded n : forall s b r,
  (List.length s <= n)%nat ->
  Json.string_body s = Some (b, r) -> (List.length r < List.length s)%nat.
Proof.
  induction n as [|n IH]; intros s b r Hn H.
  - destruct s; [discriminate | simpl in Hn; lia].
  - destruct s as [|u s]; [discriminate|]. simpl in Hn.
    cbn [Json.string_body] in H.
    destruct (u =? 34).
    { injection H as <- <-. simpl. lia. }
    destruct (u =? 92).
    + destruct s as [|e s1]; [discriminate|]. simpl in Hn.
      destruct (e =? 117).
      * destruct s1 as [|a [|b0 [|c [|d s2]]]]; try discriminate.
        destruct (Json.hex4_value a b0 c d); [|discriminate].
        apply cons_unit_inv in H as [b' H]. apply IH in H; simpl in *; lia.
      * destruct (Json.simple_escape e); [|discriminate].
        apply cons_unit_inv in H as [b' H]. apply IH in H; simpl in *; lia.
    + destruct (u <? 32); [discriminate|].
      apply cons_unit_inv in H as [b' H]. apply IH in H; simpl in *; lia.
Qed.

Lemma string_body_length s b r :
  Json.string_body s = Some (b, r) -> (List.length r < List.length s)%nat.
Proof. now apply (string_body_length_bounded (List.length s)). Qed.

Lemma number_literal_length s l r :
  Json.number_literal s = Some (l, r) -> (List.length r < List.length s)%nat.
Proof.
  unfold Json.number_literal.
  assert (Hs1 : forall s1 : jsstring,
             (List.length s1 <= List.length s)%nat ->
             match Json.integer_part s1 with
             | Some (int, s2) =>
                 match Json.fraction_part s2 with
                 | Some (frac, s3) =>
                     match Json.exponent_part s3 with
                     | Some (ex, s4) => (List.length s4 < List.length s)%nat
                     | None => True
                     end
                 | None => True
                 end
             | None => True
             end).
  { intros s1 Hle.
    destruct (Json.integer_part s1) as [[int s2]|] eqn:Ei; [|exact I].
    assert (H2 : (List.length s2 < List.length s1)%nat).
    { unfold Json.integer_part in Ei.
      destruct (expect 48 s1) as [r0|] eqn:E0.
      - injection Ei as <- <-. apply expect_length in E0. lia.
      - now apply digits1_length in Ei. }
    destruct (Json.fraction_part s2) as [[frac s3]|] eqn:Ef; [|exact I].
    assert (H3 : (List.length s3 <= List.length s2)%nat).
    { unfold Json.fraction_part in Ef.
      destruct (expect 46 s2) as [r0|] eqn:E0.
      - destruct (Json.digits1 r0) as [[d r']|] eqn:Ed; [|discriminate].
        injection Ef as <- <-. apply expect_length in E0.
        apply digits1_length in Ed. lia.
      - injection Ef as <- <-. lia. }
    destruct (Json.exponent_part s3) as [[ex s4]|] eqn:Ee; [|exact I].
    assert (H4 : (List.length s4 <= List.length s3)%nat).
    { unfold Json.exponent_part in Ee.
      destruct s3 as [|e r0]; [injection Ee as <- <-; lia|].
      destruct ((e =? 101) || (e =? 69)); [|injection Ee as <- <-; lia].
      destruct r0 as [|x r'].
      - destruct (Json.digits1 []) as [[d r2]|] eqn:Ed; [|discriminate].
        apply digits1_length in Ed. simpl in Ed. lia.
      - destruct ((x =? 43) || (x =? 45)).
        + destruct (Json.digits1 r') as [[d r2]|] eqn:Ed; [|discriminate].
          injection Ee as <- <-. apply digits1_length in Ed. simpl. lia.
        + destruct (Json.digits1 (x :: r')) as [[d r2]|] eqn:Ed; [|discriminate].
          injection Ee as <- <-. apply digits1_length in Ed. simpl in *. lia. }
    lia. }
  destruct (expect 45 s) as [r0|] eqn:E0.
  - apply expect_length in E0. specialize (Hs1 r0 ltac:(lia)).
    destruct (Json.integer_part r0) as [[int s2]|]; [|discriminate].
    destruct (Json.fraction_part s2) as [[frac s3]|]; [|discriminate].
    destruct (Json.exponent_part s3) as [[ex s4]|]; [|discriminate].
    now intros [= <- <-].
  - specialize (Hs1 s ltac:(lia)).
    destruct (Json.integer_part s) as [[int s2]|]; [|discriminate].
    destruct (Json.fraction_part s2) as [[frac s3]|]; [|discriminate].
    destruct (Json.exponent_part s3) as [[ex s4]|]; [|discriminate].
    now intros [= <- <-].
Qed.

Lemma parse_scalar_spec s :
  Json.parse_scalar s <> Json.OutOfFuel
  /\ forall v r, Json.parse_scalar s = Json.Parsed v r ->
                 (List.length r < List.length s)%nat.
Proof.
  unfold Json.parse_scalar.
  destruct (expect 34 s) as [r0|] eqn:E0.
  { apply expect_length in E0.
    destruct (Json.string_body r0) as [[b r']|] eqn:Eb.
    - apply string_body_length in Eb. split; [discriminate|].
      intros v r [= <- <-]. lia.
    - split; discriminate. }
  destruct (expect_word (js "true") s) as [r1|] eqn:E1.
  { apply expect_word_length in E1. simpl in E1.
    split; [discriminate|]. intros v r [= <- <-]. lia. }
  destruct (expect_word (js "false") s) as [r2|] eqn:E2.
  { apply expect_word_length in E2. simpl in E2.
    split; [discriminate|]. intros v r [= <- <-]. lia. }
  destruct (expect_word (js "null") s) as [r3|] eqn:E3.
  { apply expect_word_length in E3. simpl in E3.
    split; [discriminate|]. intros v r [= <- <-]. lia. }
  destruct (Json.number_literal s) as [[l r4]|] eqn:E4.
  - apply number_literal_length in E4. split; [discriminate|].
    intros v r [= <- <-]. lia.
  - split; discriminate.
Qed.

Lemma within_budget_shorter p s s' :
  (List.length s <= List.length s')%nat -> within_budget p s -> within_budget p s'.
Proof.
  intros Hle [H1 H2]. split; [assumption|].
  intros v r E. specialize (H2 v r E). lia.
Qed.

Lemma parse_fuel_suffices fuel :
  (forall s, (2 * List.length s + 1 <= fuel)%nat ->
             within_budget (Json.parse_value fuel s) s)
  /\ (forall s acc, (2 * List.length s + 2 <= fuel)%nat ->
                    within_budget (Json.parse_elements fuel s acc) s)
  /\ (forall s acc, (2 * List.length s + 2 <= fuel)%nat ->
                    within_budget (Json.parse_members fuel s acc) s).
Proof.
  induction fuel as [|fuel (IHv & IHe & IHm)].
  { repeat split; intros; lia. }
  split; [|split].
  - intros s Hf. cbn [Json.parse_value].
    pose proof (skip_ws_length s) as Hws.
    destruct (expect 123 (Json.skip_ws s)) as [r|] eqn:E1.
    { apply expect_length in E1. pose proof (skip_ws_length r) as Hwr.
      destruct (expect 125 (Json.skip_ws r)) as [r'|] eqn:E2.
      - apply expect_length in E2. split; [discriminate|].
        intros v r0 [= <- <-]. lia.
      - apply within_budget_shorter with (s := Json.skip_ws r); [lia|].
        apply IHm. lia. }
    destruct (expect 91 (Json.skip_ws s)) as [r|] eqn:E2.
    { apply expect_length in E2. pose proof (skip_ws_length r) as Hwr.
      destruct (expect 93 (Json.skip_ws r)) as [r'|] eqn:E3.
      - apply expect_length in E3. split; [discriminate|].
        intros v r0 [= <- <-]. lia.
      - apply within_budget_shorter with (s := Json.skip_ws r); [lia|].
        apply IHe. lia. }
    apply within_budget_shorter with (s := Json.skip_ws s); [lia|].
    apply parse_scalar_spec.
  - intros s acc Hf. cbn [Json.parse_elements].
    destruct (IHv s ltac:(lia)) as [Hv1 Hv2].
    destruct (Json.parse_value fuel s) as [v r| |] eqn:Ev;
      [|split; discriminate|congruence].
    specialize (Hv2 v r eq_refl). pose proof (skip_ws_length r) as Hwr.
    destruct (expect 44 (Json.skip_ws r)) as [r'|] eqn:E1.
    { apply expect_length in E1.
      apply within_budget_shorter with (s := r'); [lia|]. apply IHe. lia. }
    destruct (expect 93 (Json.skip_ws r)) as [r'|] eqn:E2.
    + apply expect_length in E2. split; [discriminate|].
      intros v0 r0 [= <- <-]. lia.
    + split; discriminate.
  - intros s acc Hf. cbn [Json.parse_members].
    pose proof (skip_ws_length s) as Hws.
    destruct (expect 34 (Json.skip_ws s)) as [r|] eqn:E1;
      [|split; discriminate].
    apply expect_length in E1.
    destruct (Json.string_body r) as [[k r1]|] eqn:Ek; [|split; discriminate].
    apply string_body_length in Ek. pose proof (skip_ws_length r1) as Hw1.
    destruct (expect 58 (Json.skip_ws r1)) as [r2|] eqn:E2;
      [|split; discriminate].
    apply expect_length in E2.
    destruct (IHv r2 ltac:(lia)) as [Hv1 Hv2].
    destruct (Json.parse_value fuel r2) as [v r3| |] eqn:Ev;
      [|split; discriminate|congruence].
    specialize (Hv2 v r3 eq_refl). pose proof (skip_ws_length r3) as Hw3.
    destruct (expect 44 (Json.skip_ws r3)) as [r4|] eqn:E3.
    { apply expect_length in E3.
      apply within_budget_shorter with (s := r4); [lia|]. apply IHm. lia. }
    destruct (expect 125 (Json.skip_ws r3)) as [r4|] eqn:E4.
    + apply expect_length in E4. split; [discriminate|].
      intros v0 r0 [= <- <-]. lia.
    + split; discriminate.
Qed.

(** [JSON.parse] reports a syntax error only for a text it found
    malformed, never for lack of budget. *)
Lemma parse_never_out_of_fuel s :
  Json.parse_value (Json.parse_fuel s) s <> Json.OutOfFuel.
Proof.
  apply (proj1 (parse_fuel_suffices (Json.parse_fuel s))).
  unfold Json.parse_fuel. lia.
Qed.

Lemma parse_quote x :
  Forall code_unit x -> Json.parse (Json.quote x) = Normal (JString x).
Proof.
  intros Hx. unfold Json.parse, Json.parse_fuel, Json.quote.
  rewrite Nat.add_1_r.
  cbn [Json.parse_value Json.skip_ws Json.is_json_space expect
       Z.eqb Pos.eqb orb].
  unfold Json.parse_scalar.
  cbn [expect Z.eqb Pos.eqb].
  now rewrite string_body_quote_body.
Qed.

(** *** Round trips of the encodings *)

Lemma unhex_digit d : 0 <= d < 16 -> Hex.unhex (Hex.digit d) = Some d.
Proof.
  intros Hd. unfold Hex.unhex, Hex.digit, is_ascii_digit.
  destruct (Z.ltb_spec d 10).
  - rewrite Z.mod_small by lia.
    zcases; cbn [andb]; try lia. f_equal. lia.
  - rewrite Z.mod_small by lia.
    zcases; cbn [andb]; zcases; cbn [andb]; try lia. f_equal. lia.
Qed.

Lemma hex_decode_encode bs :
  Forall byte bs -> Hex.decode (Hex.encode bs) = bs.
Proof.
  induction 1 as [|b bs Hb _ IH]; [reflexivity|].
  unfold byte in Hb. cbn [Hex.encode flat_map app Hex.decode].
  rewrite !unhex_digit by (Z.div_mod_to_equations; lia).
  fold (Hex.encode bs). rewrite IH. f_equal.
  Z.div_mod_to_equations. lia.
Qed.

Lemma unbase64_alphabet v :
  0 <= v < 64 -> Base64.unbase64 (Base64.alphabet v) = Some v.
Proof.
  intros Hv. unfold Base64.unbase64, Base64.alphabet.
  destruct (Z.ltb_spec v 26).
  { rewrite Z.mod_small by lia. unfold is_ascii_upper.
    zcases; cbn [andb]; try lia. f_equal. lia. }
  destruct (Z.ltb_spec v 52).
  { rewrite Z.mod_small by lia. unfold is_ascii_upper, is_ascii_lower.
    zcases; cbn [andb]; zcases; cbn [andb]; try lia. f_equal. lia. }
  destruct (Z.ltb_spec v 62).
  { rewrite Z.mod_small by lia.
    unfold is_ascii_upper, is_ascii_lower, is_ascii_digit.
    zcases; cbn [andb]; zcases; cbn [andb]; zcases; cbn [andb]; try lia.
    f_equal. lia. }
  destruct (Z.eqb_spec v 62) as [->|]; [reflexivity|].
  assert (v = 63) as -> by lia. reflexivity.
Qed.

Lemma base64_decode_encode_bounded n : forall bs,
  (List.length bs <= n)%nat -> Forall byte bs ->
  Base64.decode (Base64.encode bs) = bs.
Proof.
  unfold Base64.decode.
  induction n as [|n IH]; intros bs Hn Hbs.
  { destruct bs; [reflexivity | simpl in Hn; lia]. }
  destruct bs as [|a [|b [|c rest]]]; [reflexivity| | |].
  - inversion Hbs as [|? ? Ha _]; subst. unfold byte in Ha.
    cbn [Base64.encode Base64.sextets].
    rewrite !unbase64_alphabet by (Z.div_mod_to_equations; lia).
    cbn. f_equal. Z.div_mod_to_equations. lia.
  - inversion Hbs as [|? ? Ha Hbs']; subst.
    inversion Hbs' as [|? ? Hb _]; subst. unfold byte in Ha, Hb.
    cbn [Base64.encode Base64.sextets].
    rewrite !unbase64_alphabet by (Z.div_mod_to_equations; lia).
    cbn. f_equal; [|f_equal]; Z.div_mod_to_equations; lia.
  - inversion Hbs as [|? ? Ha Hbs']; subst.
    inversion Hbs' as [|? ? Hb Hbs'']; subst.
    inversion Hbs'' as [|? ? Hc Hrest]; subst. unfold byte in Ha, Hb, Hc.
    simpl in Hn.
    cbn [Base64.encode Base64.sextets app].
    rewrite !unbase64_alphabet by (Z.div_mod_to_equations; lia).
    cbn [Base64.bytes_of_sextets app].
    rewrite IH by (assumption || lia).
    f_equal; [|f_equal; [|f_equal]]; Z.div_mod_to_equations; lia.
Qed.

Lemma base64_decode_encode bs :
  Forall byte bs -> Base64.decode (Base64.encode bs) = bs.
Proof. now apply (base64_decode_encode_bounded (List.length bs)). Qed.

(** Comparisons that arithmetic decides are replaced by their value. *)
Ltac decide_cmp :=
  repeat match goal with
    | |- context [Z.ltb ?a ?b] =>
        first [ rewrite (proj2 (Z.ltb_lt a b)) by (Z.div_mod_to_equations; lia)
              | rewrite (proj2 (Z.ltb_ge a b)) by (Z.div_mod_to_equations; lia) ]
    | |- context [Z.leb ?a ?b] =>
        first [ rewrite (proj2 (Z.leb_le a b)) by (Z.div_mod_to_equations; lia)
              | rewrite (proj2 (Z.leb_gt a b)) by (Z.div_mod_to_equations; lia) ]
    | |- context [Z.eqb ?a ?b] =>
        first [ rewrite (proj2 (Z.eqb_eq a b)) by (Z.div_mod_to_equations; lia)
              | rewrite (proj2 (Z.eqb_neq a b)) by (Z.div_mod_to_equations; lia) ]
    end;
  cbn [andb orb negb].

Lemma decode_step_encode cp tail :
  scalar cp ->
  Utf8.decode_step (Utf8.encode_code_point cp ++ tail)
  = (Some cp, List.length (Utf8.encode_code_point cp)).
Proof.
  intros [Hr Hs]. unfold Utf8.encode_code_point.
  destruct (Z.ltb_spec cp 128).
  { cbn [app Utf8.decode_step List.length]. now decide_cmp. }
  destruct (Z.ltb_spec cp 2048).
  { cbn [app Utf8.decode_step List.length]. unfold Utf8.is_continuation.
    decide_cmp. do 2 f_equal. Z.div_mod_to_equations. lia. }
  destruct (Z.ltb_spec cp 65536).
  { cbn [app Utf8.decode_step List.length]. unfold Utf8.is_continuation.
    destruct (Z.eqb_spec (224 + cp / 4096) 224);
      destruct (Z.eqb_spec (224 + cp / 4096) 237);
      decide_cmp; do 2 f_equal; Z.div_mod_to_equations; lia. }
  cbn [app Utf8.decode_step List.length]. unfold Utf8.is_continuation.
  destruct (Z.eqb_spec (240 + cp / 262144) 240);
    destruct (Z.eqb_spec (240 + cp / 262144) 244);
    decide_cmp; do 2 f_equal; Z.div_mod_to_equations; lia.
Qed.

Lemma encode_code_point_cons cp :
  exists b bs, Utf8.encode_code_point cp = b :: bs.
Proof.
  unfold Utf8.encode_code_point.
  destruct (cp <? 128); [|destruct (cp <? 2048); [|destruct (cp <? 65536)]];
    eauto.
Qed.

Lemma decode_from_skip l1 : forall l2,
  Utf8.decode_from (List.length l1) (l1 ++ l2) = Utf8.decode_from 0 l2.
Proof. induction l1 as [|b l1 IH]; intros l2; [reflexivity | apply IH]. Qed.

Lemma decode_encode_code_point cp tail :
  scalar cp ->
  Utf8.decode (Utf8.encode_code_point cp ++ tail)
  = Utf8.utf16 cp ++ Utf8.decode tail.
Proof.
  intros Hcp. unfold Utf8.decode.
  pose proof (decode_step_encode cp tail Hcp) as Hstep.
  destruct (encode_code_point_cons cp) as (b & bs & E). rewrite E in *.
  cbn [app Utf8.decode_from]. cbn [app] in Hstep. rewrite Hstep.
  cbn [List.length Nat.pred]. now rewrite decode_from_skip.
Qed.

Lemma surrogate_pair_scalar hi lo :
  is_high_surrogate hi = true -> is_low_surrogate lo = true ->
  scalar (Utf8.surrogate_pair_value hi lo)
  /\ Utf8.utf16 (Utf8.surrogate_pair_value hi lo) = [hi; lo].
Proof.
  unfold is_high_surrogate, is_low_surrogate, Utf8.surrogate_pair_value.
  intros [H1 H2]%andb_prop [H3 H4]%andb_prop.
  apply Z.leb_le in H1, H2, H3, H4.
  split; [unfold scalar; lia|].
  unfold Utf8.utf16. decide_cmp.
  f_equal; [|f_equal]; Z.div_mod_to_equations; lia.
Qed.

Lemma plain_unit_scalar u :
  is_high_surrogate u = false -> is_low_surrogate u = false ->
  code_unit u ->
  scalar u /\ Utf8.utf16 u = [u].
Proof.
  unfold is_high_surrogate, is_low_surrogate, code_unit.
  intros H1 H2 Hu.
  apply andb_false_iff in H1, H2.
  rewrite !Z.leb_gt in H1, H2.
  split; [unfold scalar; lia|].
  unfold Utf8.utf16. now decide_cmp.
Qed.

(** The shape of a well-formed string, by cases on its head. *)
Lemma well_formed_cons u s :
  well_formed (u :: s) = true ->
  (is_high_surrogate u = true
   /\ exists v s', s = v :: s' /\ is_low_surrogate v = true
                   /\ well_formed s' = true)
  \/ (is_high_surrogate u = false /\ is_low_surrogate u = false
      /\ code_unit u /\ well_formed s = true).
Proof.
  cbn [well_formed].
  destruct (is_high_surrogate u).
  - destruct s as [|v s']; [discriminate|].
    intros [H1 H2]%andb_prop. left. split; [reflexivity|]. now exists v, s'.
  - destruct (is_low_surrogate u); [discriminate|].
    intros [[H1 H2]%andb_prop H3]%andb_prop. right.
    apply Z.leb_le in H1. apply Z.ltb_lt in H2. unfold code_unit. auto.
Qed.

Lemma well_formed_code_units_bounded n : forall s,
  (List.length s <= n)%nat -> well_formed s = true -> Forall code_unit s.
Proof.
  induction n as [|n IH]; intros s Hn Hs.
  { destruct s; [constructor | simpl in Hn; lia]. }
  destruct s as [|u s]; [constructor|]. simpl in Hn.
  apply well_formed_cons in Hs
    as [(Hhi & v & s' & -> & Hlo & Hs') | (Hhi & Hlo & Hu & Hs')].
  - simpl in Hn.
    unfold is_high_surrogate in Hhi. unfold is_low_surrogate in Hlo.
    apply andb_prop in Hhi as [H1 H2]. apply andb_prop in Hlo as [H3 H4].
    apply Z.leb_le in H1, H2, H3, H4.
    repeat constructor; unfold code_unit; try lia. apply IH; [lia | assumption].
  - constructor; [assumption|]. apply IH; [lia | assumption].
Qed.

Lemma well_formed_code_units s : well_formed s = true -> Forall code_unit s.
Proof. now apply (well_formed_code_units_bounded (List.length s)). Qed.

Lemma utf8_decode_encode_bounded n : forall s,
  (List.length s <= n)%nat -> well_formed s = true ->
  Utf8.decode (Utf8.encode s) = s.
Proof.
  induction n as [|n IH]; intros s Hn Hs.
  { destruct s; [reflexivity | simpl in Hn; lia]. }
  destruct s as [|u s]; [reflexivity|]. simpl in Hn.
  apply well_formed_cons in Hs
    as [(Hhi & v & s' & -> & Hlo & Hs') | (Hhi & Hlo & Hu & Hs')].
  - simpl in Hn. cbn [Utf8.encode]. rewrite Hhi, Hlo.
    destruct (surrogate_pair_scalar u v Hhi Hlo) as [Hsc Hu16].
    rewrite decode_encode_code_point, Hu16 by assumption.
    rewrite IH by (assumption || lia). reflexivity.
  - cbn [Utf8.encode]. rewrite Hhi, Hlo.
    destruct (plain_unit_scalar u Hhi Hlo Hu) as [Hsc Hu16].
    rewrite decode_encode_code_point, Hu16 by assumption.
    rewrite IH by (assumption || lia). reflexivity.
Qed.

Lemma utf8_decode_encode s :
  well_formed s = true -> Utf8.decode (Utf8.encode s) = s.
Proof. now apply (utf8_decode_encode_bounded (List.length s)). Qed.

Lemma encode_code_point_bytes cp :
  scalar cp -> Forall byte (Utf8.encode_code_point cp).
Proof.
  intros [Hr Hs]. unfold Utf8.encode_code_point.
  destruct (Z.ltb_spec cp 128); [|destruct (Z.ltb_spec cp 2048);
    [|destruct (Z.ltb_spec cp 65536)]];
    repeat constructor; unfold byte; Z.div_mod_to_equations; lia.
Qed.

Lemma utf8_encode_bytes_bounded n : forall s,
  (List.length s <= n)%nat -> well_formed s = true -> Forall byte (Utf8.encode s).
Proof.
  induction n as [|n IH]; intros s Hn Hs.
  { destruct s; [constructor | simpl in Hn; lia]. }
  destruct s as [|u s]; [constructor|]. simpl in Hn.
  apply well_formed_cons in Hs
    as [(Hhi & v & s' & -> & Hlo & Hs') | (Hhi & Hlo & Hu & Hs')].
  - simpl in Hn. cbn [Utf8.encode]. rewrite Hhi, Hlo.
    apply Forall_app. split.
    + apply encode_code_point_bytes. now apply surrogate_pair_scalar.
    + apply IH; [lia | assumption].
  - cbn [Utf8.encode]. rewrite Hhi, Hlo.
    apply Forall_app. split.
    + apply encode_code_point_bytes. now apply plain_unit_scalar.
    + apply IH; [lia | assumption].
Qed.

Lemma utf8_encode_bytes s : well_formed s = true -> Forall byte (Utf8.encode s).
Proof. now apply (utf8_encode_bytes_bounded (List.length s)). Qed.

(** *** Percent-encoding *)

Lemma hex_value_upper_digit d :
  0 <= d < 16 -> URI.hex_value (URI.upper_digit d) = Some d.
Proof.
  intros Hd. unfold URI.hex_value, URI.upper_digit, is_ascii_digit.
  destruct (Z.ltb_spec d 10); decide_cmp; f_equal; lia.
Qed.

Lemma unescape_escape bs : forall t,
  Forall byte bs ->
  URI.unescape (URI.escape bs ++ t)
  = (r <- URI.unescape t ;; Normal (map URI.Octet bs ++ r)).
Proof.
  induction bs as [|b bs IH]; intros t Hbs.
  - simpl. now destruct (URI.unescape t).
  - inversion Hbs as [|? ? Hb Hbs']; subst. unfold byte in Hb.
    cbn [URI.escape flat_map app URI.unescape Z.eqb Pos.eqb].
    rewrite !hex_value_upper_digit by (Z.div_mod_to_equations; lia).
    fold (URI.escape bs). rewrite IH by assumption.
    destruct (URI.unescape t); cbn [bind map app]; [|reflexivity].
    do 3 f_equal. Z.div_mod_to_equations. lia.
Qed.

Lemma unescaped_ascii u : URI.unescaped u = true -> 0 <= u < 128.
Proof.
  unfold URI.unescaped, is_ascii_upper, is_ascii_lower, is_ascii_digit.
  rewrite !orb_true_iff, !andb_true_iff, !Z.leb_le, !Z.eqb_eq. lia.
Qed.

Lemma unescape_unescaped u t :
  URI.unescaped u = true ->
  URI.unescape (u :: t) = (r <- URI.unescape t ;; Normal (URI.Unit u :: r)).
Proof.
  intros Hu. cbn [URI.unescape].
  destruct (Z.eqb_spec u 37) as [->|]; [discriminate | reflexivity].
Qed.

Lemma leading_octets_app bs l :
  URI.leading_octets (map URI.Octet bs ++ l) = bs ++ URI.leading_octets l.
Proof. induction bs as [|b bs IH]; simpl; [reflexivity | now rewrite IH]. Qed.

Lemma decode_items_skip l1 : forall l2,
  URI.decode_items (List.length l1) (l1 ++ l2) = URI.decode_items 0 l2.
Proof. induction l1 as [|i l1 IH]; intros l2; [reflexivity | apply IH]. Qed.

Lemma decode_items_code_point cp l :
  scalar cp ->
  URI.decode_items 0 (map URI.Octet (Utf8.encode_code_point cp) ++ l)
  = (r <- URI.decode_items 0 l ;; Normal (Utf8.utf16 cp ++ r)).
Proof.
  intros Hcp.
  pose proof (decode_step_encode cp (URI.leading_octets l) Hcp) as Hstep.
  destruct (encode_code_point_cons cp) as (b & bs & E). rewrite E in *.
  cbn [map app URI.decode_items URI.leading_octets].
  rewrite leading_octets_app.
  cbn [app] in Hstep. rewrite Hstep.
  cbn [List.length Nat.pred].
  rewrite <- (length_map URI.Octet bs). now rewrite decode_items_skip.
Qed.

Lemma decode_items_unit u l :
  URI.decode_items 0 (URI.Unit u :: l)
  = (r <- URI.decode_items 0 l ;; Normal (u :: r)).
Proof. reflexivity. Qed.

Lemma uri_roundtrip_bounded n : forall s,
  (List.length s <= n)%nat -> well_formed s = true ->
  exists e l, URI.encodeURIComponent s = Normal e
              /\ URI.unescape e = Normal l
              /\ URI.decode_items 0 l = Normal s.
Proof.
  induction n as [|n IH]; intros s Hn Hs.
  { destruct s; [now exists [], [] | simpl in Hn; lia]. }
  destruct s as [|u s]; [now exists [], []|]. simpl in Hn.
  cbn [URI.encodeURIComponent].
  destruct (URI.unescaped u) eqn:Hun.
  { assert (Hs' : well_formed s = true /\ code_unit u).
    { apply well_formed_cons in Hs as [(Hhi & _) | (_ & _ & Hu & Hs')]; [|auto].
      exfalso. apply unescaped_ascii in Hun.
      unfold is_high_surrogate in Hhi. apply andb_prop in Hhi as [Hhi _].
      apply Z.leb_le in Hhi. lia. }
    destruct Hs' as [Hs' Hu].
    destruct (IH s ltac:(lia) Hs') as (e & l & He & Hl & Hd).
    exists (u :: e), (URI.Unit u :: l). rewrite He. cbn [bind].
    split; [reflexivity|].
    rewrite unescape_unescaped, Hl by assumption. cbn [bind].
    split; [reflexivity|]. rewrite decode_items_unit, Hd. reflexivity. }
  apply well_formed_cons in Hs
    as [(Hhi & v & s' & -> & Hlo & Hs') | (Hhi & Hlo & Hu & Hs')].
  - simpl in Hn. rewrite Hhi, Hlo.
    destruct (surrogate_pair_scalar u v Hhi Hlo) as [Hsc Hu16].
    destruct (IH s' ltac:(lia) Hs') as (e & l & He & Hl & Hd).
    rewrite He. cbn [bind].
    eexists _, _. split; [reflexivity|].
    rewrite unescape_escape, Hl by now apply encode_code_point_bytes.
    cbn [bind]. split; [reflexivity|].
    rewrite decode_items_code_point, Hd, Hu16 by assumption. reflexivity.
  - rewrite Hhi, Hlo.
    destruct (plain_unit_scalar u Hhi Hlo Hu) as [Hsc Hu16].
    destruct (IH s ltac:(lia) Hs') as (e & l & He & Hl & Hd).
    rewrite He. cbn [bind].
    eexists _, _. split; [reflexivity|].
    rewrite unescape_escape, Hl by now apply encode_code_point_bytes.
    cbn [bind]. split; [reflexivity|].
    rewrite decode_items_code_point, Hd, Hu16 by assumption. reflexivity.
Qed.

Lemma uri_decode_encode s :
  well_formed s = true ->
  exists e, URI.encodeURIComponent s = Normal e
            /\ URI.decodeURIComponent e = Normal s.
Proof.
  intros Hs.
  destruct (uri_roundtrip_bounded (List.length s) s (le_n _) Hs)
    as (e & l & He & Hl & Hd).
  exists e. split; [assumption|].
  unfold URI.decodeURIComponent. rewrite Hl. exact Hd.
Qed.

(** *** Character references *)

Lemma html_decode_encode h x :
  standard_references h -> html_decode h (html_encode x) = x.
Proof.
  intros (Hother & Hlt & Hgt & Hquot & Hapos & Hamp). unfold html_decode.
  induction x as [|u x IH]; [reflexivity|].
  cbn [html_encode flat_map]. fold (html_encode x).
  destruct (Z.eqb_spec u 60) as [->|].
  { change (js "&lt;" ++ html_encode x)
      with (38 :: 108 :: 116 :: 59 :: html_encode x).
    cbn [html_decode_from].
    change (38 :: 108 :: 116 :: 59 :: html_encode x)
      with (js "&lt;" ++ html_encode x).
    rewrite Hlt. cbn [Nat.pred app html_decode_from]. now rewrite IH. }
  destruct (Z.eqb_spec u 62) as [->|].
  { change (js "&gt;" ++ html_encode x)
      with (38 :: 103 :: 116 :: 59 :: html_encode x).
    cbn [html_decode_from].
    change (38 :: 103 :: 116 :: 59 :: html_encode x)
      with (js "&gt;" ++ html_encode x).
    rewrite Hgt. cbn [Nat.pred app html_decode_from]. now rewrite IH. }
  destruct (Z.eqb_spec u 34) as [->|].
  { change (js "&quot;" ++ html_encode x)
      with (38 :: 113 :: 117 :: 111 :: 116 :: 59 :: html_encode x).
    cbn [html_decode_from].
    change (38 :: 113 :: 117 :: 111 :: 116 :: 59 :: html_encode x)
      with (js "&quot;" ++ html_encode x).
    rewrite Hquot. cbn [Nat.pred app html_decode_from]. now rewrite IH. }
  destruct (Z.eqb_spec u 39) as [->|].
  { change (js "&apos;" ++ html_encode x)
      with (38 :: 97 :: 112 :: 111 :: 115 :: 59 :: html_encode x).
    cbn [html_decode_from].
    change (38 :: 97 :: 112 :: 111 :: 115 :: 59 :: html_encode x)
      with (js "&apos;" ++ html_encode x).
    rewrite Hapos. cbn [Nat.pred app html_decode_from]. now rewrite IH. }
  destruct (Z.eqb_spec u 38) as [->|].
  { change (js "&amp;" ++ html_encode x)
      with (38 :: 97 :: 109 :: 112 :: 59 :: html_encode x).
    cbn [html_decode_from].
    change (38 :: 97 :: 109 :: 112 :: 59 :: html_encode x)
      with (js "&amp;" ++ html_encode x).
    rewrite Hamp. cbn [Nat.pred app html_decode_from]. now rewrite IH. }
  cbn [app html_decode_from]. rewrite Hother by assumption. now rewrite IH.
Qed.

Lemma sample_standard_references : standard_references Sample.host.
Proof.
  repeat split; try reflexivity.
  intros u s Hu. cbn. unfold Sample.html_entity, Sample.starts_with.
  cbn [firstn List.length js list_ascii_of_string map].
  repeat match goal with
    | |- context [JS.eqb ?a ?b] =>
        let E := fresh in
        destruct (JS.eqb a b) eqn:E;
          [apply eqb_eq in E; injection E; intros; subst; congruence|]
    end.
  reflexivity.
Qed.

(** ** The runner *)

Lemma value_of_run now string (l : list Manipulation) label :
  match find (fun r => JS.eqb (result_key r) label) (map (run now string) l) with
  | Some r => Some (value r)
  | None => None
  end
  = option_map (fun m => value (run now string m))
      (find (fun m => JS.eqb (key m) label) l).
Proof.
  induction l as [|m l IH]; [reflexivity|].
  cbn [map find]. change (result_key (run now string m)) with (key m).
  destruct (JS.eqb (key m) label); [reflexivity | exact IH].
Qed.

(** The value recorded under a label is the value of the run of the
    entry with that label. *)
Lemma value_of_entry h now string label :
  value_of label (manipulateString h now string)
  = option_map (fun m => value (run now string m)) (entry h label).
Proof. apply value_of_run. Qed.

(** C1. For every input string, the empty one included, and whatever
    the host's libraries do (so however many manipulations fail),
    [manipulateString] returns one result per catalog entry, in catalog
    order: the i-th result carries the key of the i-th entry, and the
    keys are the 44 labels of the source in their order. *)
Theorem manipulateString_one_result_per_entry (h : Host) (now : Z) (x : jsstring) :
  Forall2 (fun m r => result_key r = key m)
    (manipulations h) (manipulateString h now x)
  /\ map result_key (manipulateString h now x) = labels
  /\ List.length (manipulateString h now x) = List.length labels.
Proof.
  assert (Hkeys : forall l : list Manipulation,
             Forall2 (fun m r => result_key r = key m) l (map (run now x) l)).
  { induction l; constructor; auto. }
  split; [apply Hkeys|].
  assert (Hmap : map result_key (manipulateString h now x) = labels).
  { unfold manipulateString. rewrite map_map. reflexivity. }
  split; [exact Hmap|].
  rewrite <- Hmap. now rewrite length_map.
Qed.

(** C2. [manipulateString] is a total function to a list of results: no
    throw of a manipulation reaches its caller.  A manipulation that
    throws or returns null is recorded as the empty string, any other
    as the string it returned; and on the input "not json" the entry
    "Prettify JSON" throws a SyntaxError and is recorded as "". *)
Theorem manipulateString_recovers_failures (h : Host) (now : Z) (x : jsstring) :
  Forall2
    (fun m r =>
       value r = match manipulation m now x with
                 | Normal (Some s) => s
                 | Normal None => []
                 | Throw _ => []
                 end)
    (manipulations h) (manipulateString h now x)
  /\ (exists m, entry h (js "Prettify JSON") = Some m
                /\ manipulation m now (js "not json") = Throw SyntaxError)
  /\ value_of (js "Prettify JSON") (manipulateString h now (js "not json"))
     = Some [].
Proof.
  split; [|split].
  - unfold manipulateString.
    induction (manipulations h) as [|m l IH]; constructor; [|exact IH].
    unfold run. cbn [value]. now destruct (manipulation m now x) as [[s|]|e].
  - eexists. split; reflexivity.
  - rewrite value_of_entry. reflexivity.
Qed.

(** ** Binary output *)

(** [formatBinaryNumber] throws on every text whose length is not a
    multiple of 8: [new Array] refuses the fractional length. *)
Lemma formatBinaryNumber_throws text :
  Nat.modulo (List.length text) 8 <> 0%nat ->
  formatBinaryNumber text = Throw RangeError.
Proof.
  intros H. unfold formatBinaryNumber, new_Array.
  apply Nat.eqb_neq in H. now rewrite H.
Qed.

(** C3, at the failing input.  The decimal "5" and the hexadecimal "5"
    parse as 5, whose binary digits are "101"; [formatBinaryNumber]
    throws a RangeError on these three digits, and the runner records
    the empty string for both entries. *)
Theorem binary_of_5_is_empty (h : Host) (now : Z) :
  Number_toString2 (parseInt (trim (js "5")) 10) = js "101"
  /\ formatBinaryNumber (js "101") = Throw RangeError
  /\ value_of (js "Decimal(10) to Binary(2)") (manipulateString h now (js "5"))
     = Some []
  /\ value_of (js "Hex(16) to Binary(2)") (manipulateString h now (js "5"))
     = Some [].
Proof. repeat split; rewrite ?value_of_entry; reflexivity. Qed.

(** ** JSON strings *)

Lemma quote_shape x :
  (2 <= List.length (Json.quote x))%nat
  /\ hd_error (Json.quote x) = Some 34
  /\ last (Json.quote x) 0 = 34.
Proof.
  unfold Json.quote. cbn [List.length hd_error].
  rewrite length_app. cbn [List.length]. split; [lia|]. split; [reflexivity|].
  change (34 :: Json.quote_body x ++ [34])
    with ((34 :: Json.quote_body x) ++ [34]).
  apply last_last.
Qed.

(** C10. "Escape as JSON string" never fails: for every string [x] (a
    sequence of 16-bit code units, the empty one included) it returns a
    text of at least two characters that starts and ends with a double
    quote, the runner records that text, and [JSON.parse] of it is the
    string [x]. *)
Theorem escape_as_JSON_string_round_trip (h : Host) (now : Z) (x : jsstring) :
  Forall code_unit x ->
  exists v,
    apply_entry h (js "Escape as JSON string") now x = Some (Normal (Some v))
    /\ value_of (js "Escape as JSON string") (manipulateString h now x) = Some v
    /\ (2 <= List.length v)%nat
    /\ hd_error v = Some 34
    /\ last v 0 = 34
    /\ Json.parse v = Normal (JString x).
Proof.
  intros Hx. exists (Json.quote x).
  split; [reflexivity|].
  split; [rewrite value_of_entry; reflexivity|].
  destruct (quote_shape x) as (H1 & H2 & H3).
  repeat split; try assumption. now apply parse_quote.
Qed.

Lemma escape_as_JSON_string_round_trip_witness :
  exists v,
    apply_entry Sample.host (js "Escape as JSON string") 0 [97; 34; 10; 55357]
    = Some (Normal (Some v))
    /\ value_of (js "Escape as JSON string")
         (manipulateString Sample.host 0 [97; 34; 10; 55357]) = Some v
    /\ (2 <= List.length v)%nat
    /\ hd_error v = Some 34
    /\ last v 0 = 34
    /\ Json.parse v = Normal (JString [97; 34; 10; 55357]).
Proof.
  apply (escape_as_JSON_string_round_trip Sample.host 0 [97; 34; 10; 55357]).
  repeat constructor; unfold code_unit; lia.
Defined.

(** ** Round trips *)

(** C9. For every printable text [x] (well-formed UTF-16 without
    control characters), each encoding entry of the catalog returns a
    text that the matching decoding entry turns back into [x]: hex,
    base64, URL and HTML.  The HTML part is for a decoder of
    [html-entities] that reads the five references the encoder writes. *)
Theorem encode_decode_round_trip (h : Host) (now : Z) (x : jsstring) :
  standard_references h ->
  printable_text x ->
  round_trip h now (js "Hex encoding") (js "Hex decoding") x
  /\ round_trip h now (js "Base64 encoding") (js "Base64 decoding") x
  /\ round_trip h now (js "URL encoding") (js "URL decoding") x
  /\ round_trip h now (js "HTML encoding") (js "HTML decoding") x.
Proof.
  intros Hh [Hwf _]. unfold round_trip.
  split; [|split; [|split]].
  - eexists. split; [reflexivity|]. cbn [apply_entry].
    change (apply_entry h (js "Hex decoding") now (Hex.encode (Utf8.encode x)))
      with (Some (Normal (A := option jsstring)
                    (Some (Utf8.decode (Hex.decode (Hex.encode (Utf8.encode x))))))).
    rewrite hex_decode_encode by now apply utf8_encode_bytes.
    now rewrite utf8_decode_encode.
  - eexists. split; [reflexivity|].
    change (apply_entry h (js "Base64 decoding") now
              (Base64.encode (Utf8.encode x)))
      with (Some (Normal (A := option jsstring)
                    (Some (Utf8.decode
                             (Base64.decode (Base64.encode (Utf8.encode x))))))).
    rewrite base64_decode_encode by now apply utf8_encode_bytes.
    now rewrite utf8_decode_encode.
  - destruct (uri_decode_encode x Hwf) as (e & He & Hd).
    exists e. split.
    + change (apply_entry h (js "URL encoding") now x)
        with (Some (returns (URI.encodeURIComponent x))).
      now rewrite He.
    + change (apply_entry h (js "URL decoding") now e)
        with (Some (returns (URI.decodeURIComponent e))).
      now rewrite Hd.
  - eexists. split; [reflexivity|].
    change (apply_entry h (js "HTML decoding") now (html_encode x))
      with (Some (Normal (A := option jsstring)
                    (Some (html_decode h (html_encode x))))).
    now rewrite html_decode_encode.
Qed.

Lemma encode_decode_round_trip_witness :
  let x := js "Tom & Jerry <tom@example.com>" ++ [233; 55357; 56832] in
  round_trip Sample.host 0 (js "Hex encoding") (js "Hex decoding") x
  /\ round_trip Sample.host 0 (js "Base64 encoding") (js "Base64 decoding") x
  /\ round_trip Sample.host 0 (js "URL encoding") (js "URL decoding") x
  /\ round_trip Sample.host 0 (js "HTML encoding") (js "HTML decoding") x.
Proof.
  apply (encode_decode_round_trip Sample.host 0).
  - exact sample_standard_references.
  - split; reflexivity.
Defined.

(** ** Parse URL *)

Lemma obj_get_In k props :
  Json.obj_get k props = None <-> ~ In k (map fst props).
Proof.
  induction props as [|[k' v'] props IH]; simpl; [tauto|].
  destruct (JS.eqb k k') eqn:E.
  - apply eqb_eq in E. subst. split; [discriminate | tauto].
  - apply eqb_neq in E. rewrite IH. split; [intros H [H'|H']; congruence | tauto].
Qed.

Lemma obj_get_replace name k v props :
  Json.obj_get name (Json.obj_replace k v props)
  = if JS.eqb name k
    then match Json.obj_get k props with Some _ => Some v | None => None end
    else Json.obj_get name props.
Proof.
  induction props as [|[k' v'] props IH]; simpl.
  - now destruct (JS.eqb name k).
  - destruct (JS.eqb k k') eqn:Ek; simpl.
    + apply eqb_eq in Ek. subst k'. now destruct (JS.eqb name k).
    + rewrite IH. destruct (JS.eqb name k) eqn:En; [|reflexivity].
      apply eqb_eq in En. subst name. now rewrite Ek.
Qed.

Lemma obj_get_insert_index name i k v props :
  Json.obj_get k props = None ->
  Json.obj_get name (Json.obj_insert_index i k v props)
  = if JS.eqb name k then Some v else Json.obj_get name props.
Proof.
  induction props as [|[k' v'] props IH]; intros Hk; simpl.
  - now destruct (JS.eqb name k).
  - simpl in Hk. destruct (JS.eqb k k') eqn:Ek; [discriminate|].
    destruct (Json.array_index k') as [j|]; [destruct (j <? i)|]; simpl;
      try reflexivity.
    rewrite IH by assumption.
    destruct (JS.eqb name k) eqn:En; [|reflexivity].
    apply eqb_eq in En. subst name. now rewrite Ek.
Qed.

Lemma obj_get_app name k v props :
  Json.obj_get name (props ++ [(k, v)])
  = match Json.obj_get name props with
    | Some x => Some x
    | None => if JS.eqb name k then Some v else None
    end.
Proof.
  induction props as [|[k' v'] props IH]; simpl; [reflexivity|].
  now destruct (JS.eqb name k').
Qed.

(** Reading a property after CreateDataProperty. *)
Lemma obj_get_define name k v props :
  Json.obj_get name (Json.obj_define k v props)
  = if JS.eqb name k then Some v else Json.obj_get name props.
Proof.
  unfold Json.obj_define. destruct (Json.obj_get k props) as [x|] eqn:Ek.
  - rewrite obj_get_replace, Ek. reflexivity.
  - destruct (Json.array_index k) as [i|].
    + now apply obj_get_insert_index.
    + rewrite obj_get_app. destruct (JS.eqb name k) eqn:En.
      * apply eqb_eq in En. subst name. now rewrite Ek.
      * now destruct (Json.obj_get name props).
Qed.

(** [Object.fromEntries] of the pairs [(key, f key)]: a name is mapped to
    [f] of itself when it is among the keys, and is absent otherwise. *)
Lemma obj_get_fromEntries (f : jsstring -> json) keys name :
  Json.obj_get name (Json.fromEntries (map (fun key => (key, f key)) keys))
  = if in_dec (list_eq_dec Z.eq_dec) name keys then Some (f name) else None.
Proof.
  unfold Json.fromEntries.
  assert (H : forall acc,
             Json.obj_get name
               (fold_left (fun props kv => Json.obj_define (fst kv) (snd kv) props)
                  (map (fun key => (key, f key)) keys) acc)
             = if in_dec (list_eq_dec Z.eq_dec) name keys then Some (f name)
               else Json.obj_get name acc).
  { induction keys as [|k keys IH]; intros acc; [reflexivity|].
    cbn [map fold_left fst snd]. rewrite IH, obj_get_define.
    destruct (in_dec (list_eq_dec Z.eq_dec) name keys) as [Hin|Hnin];
      destruct (in_dec (list_eq_dec Z.eq_dec) name (k :: keys)) as [Hin'|Hnin'];
      try reflexivity.
    - exfalso. apply Hnin'. now right.
    - destruct Hin' as [->|Hin']; [|contradiction].
      now rewrite eqb_refl.
    - destruct (JS.eqb name k) eqn:E; [|reflexivity].
      apply eqb_eq in E. subst. exfalso. apply Hnin'. now left. }
  apply H.
Qed.

(** The keys of a defined object: those it had, and the new one. *)
Lemma obj_define_keys k v props :
  (forall name, In name (map fst (Json.obj_define k v props))
                <-> name = k \/ In name (map fst props))
  /\ (NoDup (map fst props) -> NoDup (map fst (Json.obj_define k v props))).
Proof.
  assert (Hin : forall name, In name (map fst (Json.obj_define k v props))
                             <-> name = k \/ In name (map fst props)).
  { intros name.
    pose proof (obj_get_define name k v props) as H.
    pose proof (obj_get_In name (Json.obj_define k v props)) as H1.
    pose proof (obj_get_In name props) as H2.
    destruct (JS.eqb name k) eqn:E.
    - apply eqb_eq in E. subst name. split; [auto|]. intros _.
      destruct (in_dec (list_eq_dec Z.eq_dec) k
                  (map fst (Json.obj_define k v props))) as [|Hn]; [assumption|].
      apply H1 in Hn. congruence.
    - apply eqb_neq in E. rewrite H in H1.
      destruct (in_dec (list_eq_dec Z.eq_dec) name (map fst props)) as [Hi|Hn].
      + split; [auto|]. intros _.
        destruct (in_dec (list_eq_dec Z.eq_dec) name
                    (map fst (Json.obj_define k v props))) as [|Hn']; [assumption|].
        apply H1 in Hn'. apply H2 in Hn'. contradiction.
      + split; [|intros [?|?]; [congruence | contradiction]].
        intros Hi. exfalso.
        apply H2 in Hn. apply H1 in Hn. contradiction. }
  split; [exact Hin|].
  intros Hnd. unfold Json.obj_define.
  destruct (Json.obj_get k props) as [x|] eqn:Ek.
  - assert (E : map fst (Json.obj_replace k v props) = map fst props).
    { clear. induction props as [|[k' v'] props IH]; simpl; [reflexivity|].
      destruct (JS.eqb k k'); simpl; [reflexivity | now rewrite IH]. }
    now rewrite E.
  - apply obj_get_In in Ek.
    destruct (Json.array_index k) as [i|].
    + assert (A : Add k (map fst props) (map fst (Json.obj_insert_index i k v props))).
      { clear. induction props as [|[k' v'] props IH]; simpl; [constructor|].
        destruct (Json.array_index k') as [j|]; [destruct (j <? i)|]; simpl;
          constructor. exact IH. }
      apply (NoDup_Add A). auto.
    + rewrite map_app. simpl.
      assert (A : Add k (map fst props) (map fst props ++ [k])).
      { clear. induction (map fst props); simpl; constructor. assumption. }
      apply (NoDup_Add A). auto.
Qed.

Lemma fromEntries_keys (f : jsstring -> json) keys :
  (forall name,
      In name (map fst (Json.fromEntries (map (fun key => (key, f key)) keys)))
      <-> In name keys)
  /\ NoDup (map fst (Json.fromEntries (map (fun key => (key, f key)) keys))).
Proof.
  unfold Json.fromEntries.
  assert (H : forall acc,
             NoDup (map fst acc) ->
             (forall name,
                 In name (map fst
                   (fold_left (fun props kv => Json.obj_define (fst kv) (snd kv) props)
                      (map (fun key => (key, f key)) keys) acc))
                 <-> In name keys \/ In name (map fst acc))
             /\ NoDup (map fst
                   (fold_left (fun props kv => Json.obj_define (fst kv) (snd kv) props)
                      (map (fun key => (key, f key)) keys) acc))).
  { induction keys as [|k keys IH]; intros acc Hacc.
    - simpl. split; [tauto | assumption].
    - cbn [map fold_left fst snd].
      destruct (obj_define_keys k (f k) acc) as [Hk1 Hk2].
      destruct (IH (Json.obj_define k (f k) acc) (Hk2 Hacc)) as [IH1 IH2].
      split; [|assumption].
      intros name. rewrite IH1, Hk1. simpl. intuition congruence. }
  destruct (H [] (NoDup_nil _)) as [H1 H2]. split; [|assumption].
  intros name. rewrite H1. simpl. tauto.
Qed.

(** The first value of a name in the query is what [get] returns. *)
Lemma searchParams_get_first params : forall before name v after,
  params = before ++ (name, v) :: after -> ~ In name (map fst before) ->
  searchParams_get params name = Some v.
Proof.
  induction params as [|[k' v'] params IH]; intros before name v after E Hb.
  - destruct before; discriminate.
  - destruct before as [|[k0 v0] before]; simpl in E.
    + injection E as -> -> ->. simpl. now rewrite eqb_refl.
    + injection E as -> -> ->. simpl in *.
      destruct (JS.eqb name k0) eqn:Ek.
      * apply eqb_eq in Ek. subst. tauto.
      * apply (IH before name v after); tauto.
Qed.

(** C4, counterexample.  For the URL [https://example.com/?a=1&a=2] the
    parameter [a] has the values 1 and 2, in this order, and the
    single-value mapping printed under [searchParams] maps [a] to the
    first of them, 1, not to the last. *)
Lemma parse_URL_last_value_counterexample :
  searchParams_getAll (searchParams repeated_parameter_URL) (js "a")
  = [js "1"; js "2"]
  /\ URL_field (js "searchParams") repeated_parameter_URL
     = Some (JObject [(js "a", JString (js "1"))])
  /\ URL_field (js "searchParams") repeated_parameter_URL
     <> Some (JObject [(js "a", JString (js "2"))]).
Proof. repeat split. discriminate. Qed.

(** C4, amended.  The value of "Parse URL" is the 2-space JSON text of
    an object when [new URL] accepts the trimmed input, and empty when
    it throws.  The object has the fields href, origin, protocol,
    username, password, host, port, hostname, pathname, search,
    searchParams, searchAllParams and hash, in this order; the keys of
    [searchParams] and of [searchAllParams] are the distinct parameter
    names; [searchParams] maps a name to its first value in the query,
    and [searchAllParams] maps it to the sequence of all its values. *)
Theorem parse_URL_first_value (h : Host) (now : Z) (text : jsstring) :
  value_of (js "Parse URL") (manipulateString h now text)
  = Some match URL_parse h (trim text) with
         | Normal url => stringify (number_text h) (URL_object url) 2
         | Throw _ => []
         end
  /\ forall url : URL,
      exists single all : list (jsstring * json),
        URL_object url
        = JObject
            [ (js "href", JString (href url));
              (js "origin", JString (origin url));
              (js "protocol", JString (protocol url));
              (js "username", JString (username url));
              (js "password", JString (password url));
              (js "host", JString (host url));
              (js "port", JString (port url));
              (js "hostname", JString (hostname url));
              (js "pathname", JString (pathname url));
              (js "search", JString (search url));
              (js "searchParams", JObject single);
              (js "searchAllParams", JObject all);
              (js "hash", JString (hash url)) ]
        /\ NoDup (map fst single) /\ NoDup (map fst all)
        /\ (forall name, In name (map fst single)
                         <-> In name (map fst (searchParams url)))
        /\ (forall name, In name (map fst all)
                         <-> In name (map fst (searchParams url)))
        /\ (forall before name v after,
               searchParams url = before ++ (name, v) :: after ->
               ~ In name (map fst before) ->
               obj_get name single = Some (JString v))
        /\ (forall name,
               In name (map fst (searchParams url)) ->
               obj_get name all
               = Some (JArray
                         (map JString
                            (map snd
                               (filter (fun kv => JS.eqb name (fst kv))
                                  (searchParams url)))))).
Proof.
  split.
  { rewrite value_of_entry.
    change (entry h (js "Parse URL"))
      with (Some {| key := js "Parse URL";
                    manipulation := fun _ text => parse_URL h text |}).
    cbn [option_map run manipulation value]. unfold parse_URL.
    now destruct (URL_parse h (trim text)). }
  intros url. eexists _, _. split; [reflexivity|].
  set (keys := map fst (searchParams url)).
  destruct (fromEntries_keys
              (fun key => json_of_nullable (searchParams_get (searchParams url) key))
              keys) as [K1 N1].
  destruct (fromEntries_keys
              (fun key => JArray (map JString
                                    (searchParams_getAll (searchParams url) key)))
              keys) as [K2 N2].
  repeat split; try assumption; try apply K1; try apply K2.
  - intros before name v after E Hb.
    rewrite (obj_get_fromEntries
               (fun key => json_of_nullable
                             (searchParams_get (searchParams url) key))).
    destruct (in_dec (list_eq_dec Z.eq_dec) name keys) as [_|Hn].
    + now rewrite (searchParams_get_first _ before name v after E Hb).
    + exfalso. apply Hn. unfold keys. rewrite E, map_app. apply in_or_app.
      right. now left.
  - intros name Hin.
    rewrite (obj_get_fromEntries
               (fun key => JArray (map JString
                                     (searchParams_getAll (searchParams url) key)))).
    destruct (in_dec (list_eq_dec Z.eq_dec) name keys); [reflexivity|contradiction].
Qed.

(** ** JSON Web Tokens *)

Lemma mapM_throws {A B} (f : A -> completion B) l m :
  In m l -> throws (f m) = true -> throws (mapM f l) = true.
Proof.
  induction l as [|a l IH]; intros Hin Hm; [contradiction|].
  cbn [mapM bind]. destruct (f a) as [b|e] eqn:Ea; [|reflexivity].
  destruct Hin as [->|Hin]; [rewrite Ea in Hm; discriminate|].
  specialize (IH Hin Hm). now destruct (mapM f l).
Qed.

Lemma decode_jwt_throws h jwt :
  undecodable jwt = true -> throws (decode_jwt h jwt) = true.
Proof.
  unfold undecodable, decode_jwt.
  destruct (split_on 46 jwt) as [|p0 [|p1 [|p2 [|]]]]; try discriminate.
  destruct (decode_segment p0); [|reflexivity].
  cbn [throws orb bind]. now destruct (decode_segment p1).
Qed.

Lemma take_jwt_chars_spec s :
  Forall (fun u => u <> 46) (fst (take_jwt_chars s)).
Proof.
  induction s as [|u s IH]; [constructor|].
  cbn [take_jwt_chars]. destruct (is_jwt_char u) eqn:Eu; [|constructor].
  destruct (take_jwt_chars s) as [run r]. cbn [fst] in *.
  constructor; [|assumption]. intros ->. discriminate.
Qed.

Lemma split_on_no_separator sep s :
  Forall (fun u => u <> sep) s -> split_on sep s = [s].
Proof.
  induction 1 as [|u s Hu _ IH]; [reflexivity|].
  cbn [split_on]. apply Z.eqb_neq in Hu. now rewrite Hu, IH.
Qed.

Lemma split_on_app sep a b :
  Forall (fun u => u <> sep) a ->
  split_on sep (a ++ sep :: b) = a :: split_on sep b.
Proof.
  induction 1 as [|u a Hu _ IH].
  - cbn [app split_on]. now rewrite Z.eqb_refl.
  - cbn [app split_on]. apply Z.eqb_neq in Hu. now rewrite Hu, IH.
Qed.

Lemma match_segment_no_dot s seg r :
  match_segment s = Some (seg, r) -> Forall (fun u => u <> 46) seg.
Proof.
  unfold match_segment.
  destruct (expect_word (js "eyJ") s) as [r0|]; [|discriminate].
  pose proof (take_jwt_chars_spec r0) as Hrun.
  destruct (take_jwt_chars r0) as [[|c run] rest]; [discriminate|].
  destruct (expect 46 rest); [|discriminate].
  intros [= <- <-]. cbn [fst] in Hrun.
  repeat (constructor; [discriminate|]). exact Hrun.
Qed.

(** A match of the pattern has exactly two dots: it splits into a
    header, a payload and a signature. *)
Lemma match_jwt_three_parts s m :
  match_jwt s = Some m -> exists p0 p1 p2, split_on 46 m = [p0; p1; p2].
Proof.
  unfold match_jwt.
  destruct (match_segment s) as [[header r1]|] eqn:E1; [|discriminate].
  destruct (match_segment r1) as [[payload r2]|] eqn:E2; [|discriminate].
  intros [= <-]. apply match_segment_no_dot in E1, E2.
  exists header, payload, (fst (take_jwt_chars r2)).
  rewrite split_on_app by assumption. rewrite split_on_app by assumption.
  now rewrite split_on_no_separator by apply take_jwt_chars_spec.
Qed.

Lemma jwt_matches_from_match s : forall skip m,
  In m (jwt_matches_from skip s) -> exists s', match_jwt s' = Some m.
Proof.
  induction s as [|u s IH]; intros skip m Hin; [contradiction|].
  cbn [jwt_matches_from] in Hin. destruct skip as [|k]; [|eauto].
  destruct (match_jwt (u :: s)) as [m'|] eqn:E; [|eauto].
  destruct Hin as [<-|Hin]; eauto.
Qed.

Lemma jwt_matches_three_parts text m :
  In m (jwt_matches text) -> List.length (split_on 46 m) = 3%nat.
Proof.
  intros Hin. apply jwt_matches_from_match in Hin as [s' Hs'].
  apply match_jwt_three_parts in Hs' as (p0 & p1 & p2 & ->). reflexivity.
Qed.

(** C5, counterexample.  The text holds two matches of the pattern: a
    token whose header and payload decode, and [eyJx.eyJy.z], whose
    header is not JSON.  Whatever the host and the clock, the value of
    "Extract and Decode JWT" is the empty string: neither the raw text
    of the second match nor the decoding of the first is in it. *)
Lemma extract_and_decode_JWT_fallback_counterexample :
  let text :=
    js "eyJhbGciOiJIUzI1NiJ9.eyJzdWIiOiIxMjM0NTY3ODkwIn0.sig eyJx.eyJy.z" in
  jwt_matches text
  = [js "eyJhbGciOiJIUzI1NiJ9.eyJzdWIiOiIxMjM0NTY3ODkwIn0.sig"; js "eyJx.eyJy.z"]
  /\ map undecodable (jwt_matches text) = [false; true]
  /\ (fun (h : Host) (now : Z) =>
        value_of (js "Extract and Decode JWT") (manipulateString h now text))
     = (fun _ _ => Some []).
Proof. repeat split. Qed.

(** C5, amended.  When the header or the payload of one match of the
    text does not decode, "Extract and Decode JWT" throws and the value
    of the entry is the empty string, whatever the other matches are.
    The raw matched text is what the callback returns for a text that
    does not split into exactly three parts, which no match of the
    pattern is. *)
Theorem undecodable_JWT_empties_the_result
  (h : Host) (now : Z) (text jwt : jsstring) :
  In jwt (jwt_matches text) ->
  undecodable jwt = true ->
  value_of (js "Extract and Decode JWT") (manipulateString h now text) = Some []
  /\ (forall m, List.length (split_on 46 m) <> 3%nat -> decode_jwt h m = Normal m)
  /\ (forall m, In m (jwt_matches text) -> List.length (split_on 46 m) = 3%nat).
Proof.
  intros Hin Hun. split; [|split].
  - rewrite value_of_entry.
    change (entry h (js "Extract and Decode JWT"))
      with (Some {| key := js "Extract and Decode JWT";
                    manipulation := fun _ text => extract_and_decode_JWT h text |}).
    cbn [option_map run manipulation value]. unfold extract_and_decode_JWT.
    pose proof (mapM_throws (decode_jwt h) _ jwt Hin (decode_jwt_throws h jwt Hun))
      as Ht.
    now destruct (mapM (decode_jwt h) (jwt_matches text)).
  - intros m Hm. unfold decode_jwt.
    destruct (split_on 46 m) as [|p0 [|p1 [|p2 [|]]]]; try reflexivity.
    simpl in Hm. congruence.
  - intros m. apply jwt_matches_three_parts.
Qed.

Lemma undecodable_JWT_empties_the_result_witness :
  let text :=
    js "eyJhbGciOiJIUzI1NiJ9.eyJzdWIiOiIxMjM0NTY3ODkwIn0.sig eyJx.eyJy.z" in
  value_of (js "Extract and Decode JWT") (manipulateString Sample.host 0 text)
  = Some []
  /\ (forall m, List.length (split_on 46 m) <> 3%nat ->
                decode_jwt Sample.host m = Normal m)
  /\ (forall m, In m (jwt_matches text) -> List.length (split_on 46 m) = 3%nat).
Proof.
  apply (undecodable_JWT_empties_the_result Sample.host 0 _ (js "eyJx.eyJy.z")).
  - right. left. reflexivity.
  - reflexivity.
Defined.

(** ** camelCase *)

Lemma join_empty parts : join [] parts = List.concat parts.
Proof.
  induction parts as [|p [|q parts] IH]; [reflexivity| |].
  - simpl. now rewrite app_nil_r.
  - cbn [join List.concat app] in *. now rewrite IH.
Qed.

(** After the first word, the callback of "Convert camelCase" is
    [capitalize]. *)
Lemma mapM_index_capitalize h ws : forall i,
  mapM_index
    (fun word index => if Nat.eqb index 0 then Normal word else capitalize h word)
    (S i) ws
  = mapM (capitalize h) ws.
Proof.
  induction ws as [|w ws IH]; intros i; [reflexivity|].
  cbn [mapM_index mapM Nat.eqb]. now rewrite IH.
Qed.

Lemma mapM_capitalize h ws :
  Forall (fun w => w <> []) ws ->
  mapM (capitalize h) ws
  = Normal (map (fun w => toUpperCase h (firstn 1 w) ++ skipn 1 w) ws).
Proof.
  induction 1 as [|w ws Hw _ IH]; [reflexivity|].
  cbn [mapM map]. rewrite IH.
  destruct w as [|u w]; [congruence|]. reflexivity.
Qed.

(** C6, counterexample.  With the tokenizer of the spec, the words of
    "FooBar" are "Foo" and "Bar"; "Convert camelCase" returns "FooBar",
    whose first word is not the lower-case "foo". *)
Lemma convert_camelCase_first_word_counterexample :
  splitIntoWords Sample.host (trim (js "FooBar")) = Normal [js "Foo"; js "Bar"]
  /\ value_of (js "Convert camelCase") (manipulateString Sample.host 0 (js "FooBar"))
     = Some (js "FooBar")
  /\ toLowerCase Sample.host (js "Foo") = js "foo"
  /\ js "FooBar" <> js "foo" ++ js "Bar".
Proof. repeat split. discriminate. Qed.

(** C6, amended.  "Convert camelCase" leaves the first word of the
    tokenizer as it is and upper-cases the first character of each
    following word, the rest of the word unchanged; the words are joined
    with no separator. *)
Theorem convert_camelCase_keeps_first_word
  (h : Host) (now : Z) (text w : jsstring) (ws : list jsstring) :
  splitIntoWords h (trim text) = Normal (w :: ws) ->
  Forall (fun t => t <> []) ws ->
  value_of (js "Convert camelCase") (manipulateString h now text)
  = Some (w ++ List.concat
                 (map (fun t => toUpperCase h (firstn 1 t) ++ skipn 1 t) ws)).
Proof.
  intros Hsplit Hws. rewrite value_of_entry.
  change (entry h (js "Convert camelCase"))
    with (Some {| key := js "Convert camelCase";
                  manipulation := fun _ text => convert_camelCase h text |}).
  cbn [option_map run manipulation value]. unfold convert_camelCase.
  rewrite Hsplit. cbn [bind mapM_index Nat.eqb].
  rewrite mapM_index_capitalize, mapM_capitalize by assumption.
  cbn [bind]. now rewrite join_empty.
Qed.

Lemma convert_camelCase_keeps_first_word_witness :
  value_of (js "Convert camelCase")
    (manipulateString Sample.host 0 (js " HTTPServer fooBar "))
  = Some (js "HTTP"
          ++ List.concat
               (map (fun t => toUpperCase Sample.host (firstn 1 t) ++ skipn 1 t)
                       [js "Server"; js "foo"; js "Bar"])).
Proof.
  apply (convert_camelCase_keeps_first_word Sample.host 0).
  - reflexivity.
  - repeat constructor; discriminate.
Defined.

(** ** The clock *)

(** C7, counterexample.  "Convert duration from now" on the date
    1970-01-02T00:00:00.000Z reads the clock: called at the epoch and
    called one day later it gives two different values (with
    [getTimeDifference] as the spec describes it). *)
Lemma duration_from_now_depends_on_clock_counterexample :
  let text := js "1970-01-02T00:00:00.000Z" in
  Date_parse Sample.host (trim text) = Some 86400000
  /\ value_of (js "Convert duration from now") (manipulateString Sample.host 0 text)
     = Some (js "1d 0h 0m 0s left")
  /\ value_of (js "Convert duration from now")
       (manipulateString Sample.host 86400000 text)
     = Some (js "0d 0h 0m 0s left")
  /\ manipulateString Sample.host 0 text
     <> manipulateString Sample.host 86400000 text.
Proof.
  repeat split.
  intros E.
  apply (f_equal (value_of (js "Convert duration from now"))) in E.
  vm_compute in E. discriminate.
Qed.

(** C7, amended.  Two evaluations of [manipulateString] on the same
    input at two readings of the clock give the same result for every
    entry other than "Convert duration from now"; the value of that
    entry is what [getTimeDifference] returns for the clock reading and
    the time value of the trimmed input. *)
Theorem manipulateString_depends_on_clock_in_one_entry
  (h : Host) (t1 t2 : Z) (x : jsstring) :
  Forall2
    (fun r1 r2 => result_key r1 = js "Convert duration from now" \/ r1 = r2)
    (manipulateString h t1 x) (manipulateString h t2 x)
  /\ value_of (js "Convert duration from now") (manipulateString h t1 x)
     = Some match getTimeDifference h t1 (Date_parse h (trim x)) with
            | Normal (Some s) => s
            | _ => []
            end.
Proof.
  split.
  - unfold manipulateString, manipulations. cbn [map].
    repeat (constructor; [first [right; reflexivity | left; reflexivity]|]).
    constructor.
  - rewrite value_of_entry.
    change (entry h (js "Convert duration from now"))
      with (Some {| key := js "Convert duration from now";
                    manipulation := fun now text =>
                      getTimeDifference h now (Date_parse h (trim text)) |}).
    cbn [option_map run manipulation value].
    now destruct (getTimeDifference h t1 (Date_parse h (trim x))) as [[s|]|e].
Qed.

(** ** Decoding what is not valid *)

Lemma hex_decode_prefix bs rest :
  Forall byte bs -> hex_pair_at_head rest = false ->
  Hex.decode (Hex.encode bs ++ rest) = bs.
Proof.
  intros Hbs Hrest. induction Hbs as [|b bs Hb _ IH].
  - cbn [Hex.encode flat_map app]. unfold hex_pair_at_head in Hrest.
    destruct rest as [|a [|c rest]]; try reflexivity.
    cbn [Hex.decode]. destruct (Hex.unhex a); [|reflexivity].
    destruct (Hex.unhex c); [discriminate | reflexivity].
  - unfold byte in Hb. cbn [Hex.encode flat_map app Hex.decode].
    rewrite !unhex_digit by (Z.div_mod_to_equations; lia).
    fold (Hex.encode bs). rewrite IH. f_equal.
    Z.div_mod_to_equations. lia.
Qed.

Lemma utf16_not_empty cp : Utf8.utf16 cp <> [].
Proof. unfold Utf8.utf16. destruct (cp <? 65536); discriminate. Qed.

Lemma utf8_decode_not_empty b bs : Utf8.decode (b :: bs) <> [].
Proof.
  unfold Utf8.decode. cbn [Utf8.decode_from].
  destruct (Utf8.decode_step (b :: bs)) as [[c|] n].
  - pose proof (utf16_not_empty c). destruct (Utf8.utf16 c); [congruence|discriminate].
  - discriminate.
Qed.

Lemma hex_decode_empty x :
  Hex.decode x = [] <-> hex_pair_at_head x = false.
Proof.
  unfold hex_pair_at_head. destruct x as [|a [|b x]]; try (split; reflexivity).
  cbn [Hex.decode].
  destruct (Hex.unhex a); [|split; reflexivity].
  destruct (Hex.unhex b); split; (reflexivity || discriminate).
Qed.

Lemma sextets_stop x y : Base64.sextets (x ++ 61 :: y) = Base64.sextets x.
Proof.
  induction x as [|u x IH]; [reflexivity|].
  cbn [app Base64.sextets]. rewrite IH. reflexivity.
Qed.

Lemma sextets_skip x :
  Base64.sextets (filter (fun u => is_base64_char u || (u mod 256 =? 61)) x)
  = Base64.sextets x.
Proof.
  induction x as [|u x IH]; [reflexivity|].
  cbn [filter].
  destruct (is_base64_char u) eqn:Ec; unfold is_base64_char in Ec;
    destruct (Base64.unbase64 u) as [v|] eqn:E; try discriminate; cbn [orb].
  - cbn [Base64.sextets]. rewrite E. f_equal. exact IH.
  - destruct (u mod 256 =? 61) eqn:E61; cbn [Base64.sextets]; rewrite E, E61.
    + reflexivity.
    + exact IH.
Qed.

(** C8, counterexample.  "4a4bzz" is not valid hex and "aGVsbG8*" is not
    valid base64; whatever the host and the clock, "Hex decoding"
    records "JK" for the first and "Base64 decoding" records "hello"
    for the second, not the empty string. *)
Lemma decoding_invalid_input_counterexample :
  valid_hex (js "4a4bzz") = false
  /\ (fun (h : Host) (now : Z) =>
        value_of (js "Hex decoding") (manipulateString h now (js "4a4bzz")))
     = (fun _ _ => Some (js "JK"))
  /\ valid_base64 (js "aGVsbG8*") = false
  /\ (fun (h : Host) (now : Z) =>
        value_of (js "Base64 decoding") (manipulateString h now (js "aGVsbG8*")))
     = (fun _ _ => Some (js "hello")).
Proof. repeat split. Qed.

(** C8, amended.  "Hex decoding" and "Base64 decoding" never fail: each
    returns the UTF-8 reading of the bytes the lenient decoder of
    [Buffer] finds.  Hex decoding reads the pairs of hex digits at the
    head of the input and drops the rest, so its value is the empty
    string exactly when the input does not start with two hex digits.
    Base64 decoding skips the characters outside the alphabet and reads
    nothing from the first [=] on. *)
Theorem buffer_decoding_is_lenient (h : Host) (now : Z) (x : jsstring) :
  apply_entry h (js "Hex decoding") now x
  = Some (Normal (Some (Utf8.decode (Hex.decode x))))
  /\ apply_entry h (js "Base64 decoding") now x
     = Some (Normal (Some (Utf8.decode (Base64.decode x))))
  /\ (value_of (js "Hex decoding") (manipulateString h now x) = Some []
      <-> hex_pair_at_head x = false)
  /\ (forall bs rest,
         Forall byte bs -> hex_pair_at_head rest = false ->
         Hex.decode (Hex.encode bs ++ rest) = bs)
  /\ (forall y, Base64.decode (x ++ 61 :: y) = Base64.decode x)
  /\ Base64.decode (filter (fun u => is_base64_char u || (u mod 256 =? 61)) x)
     = Base64.decode x.
Proof.
  split; [reflexivity|]. split; [reflexivity|]. split; [|split; [|split]].
  - rewrite value_of_entry.
    change (entry h (js "Hex decoding"))
      with (Some {| key := js "Hex decoding";
                    manipulation := fun _ text =>
                      Normal (Some (Utf8.decode (Hex.decode text))) |}).
    cbn [option_map run manipulation value].
    rewrite <- hex_decode_empty. split.
    + intros [= E]. destruct (Hex.decode x) as [|b bs]; [reflexivity|].
      now apply utf8_decode_not_empty in E.
    + now intros ->.
  - apply hex_decode_prefix.
  - intros y. unfold Base64.decode. now rewrite sextets_stop.
  - unfold Base64.decode. now rewrite sextets_skip.
Qed.

(** ** The examples of the spec *)

(** Section 8 of the spec, evaluated on the model: the numeric round
    trips, the extraction of a token and the tokenizer. *)
Example numeric_round_trips (h : Host) (now : Z) :
  value_of (js "Hex(16) to Decimal(10)") (manipulateString h now (js "1a"))
  = Some (js "26")
  /\ value_of (js "Decimal(10) to Hex(16)") (manipulateString h now (js "26"))
     = Some (js "1a")
  /\ value_of (js "Binary(2) to Decimal(10)")
       (manipulateString h now (js "1010 1100")) = Some (js "172")
  /\ value_of (js "Decimal(10) to Binary(2)") (manipulateString h now (js "172"))
     = Some (js "10101100")
  /\ value_of (js "Decimal(10) to Binary(2)") (manipulateString h now (js "65535"))
     = Some (js "11111111 11111111").
Proof. repeat split; rewrite value_of_entry; reflexivity. Qed.

Example extract_JWT_example (h : Host) (now : Z) :
  value_of (js "Extract JWT")
    (manipulateString h now
       (js "prefix eyJhbGciOiJIUzI1NiJ9.eyJzdWIiOiIxMjM0NTY3ODkwIn0.sig suffix"))
  = Some (js "eyJhbGciOiJIUzI1NiJ9.eyJzdWIiOiIxMjM0NTY3ODkwIn0.sig").
Proof. rewrite value_of_entry. reflexivity. Qed.

Example decode_JWT_example :
  decode_segment (js "eyJhbGciOiJIUzI1NiJ9")
  = Normal (JObject [(js "alg", JString (js "HS256"))])
  /\ decode_segment (js "eyJzdWIiOiIxMjM0NTY3ODkwIn0")
     = Normal (JObject [(js "sub", JString (js "1234567890"))]).
Proof. split; reflexivity. Qed.

Example tokenizer_example :
  Sample.splitIntoWords (js "fooBarBAZ_qux-quux")
  = Normal [js "foo"; js "Bar"; js "BAZ"; js "qux"; js "quux"]
  /\ Sample.splitIntoWords (js "HTTPServer") = Normal [js "HTTP"; js "Server"]
  /\ Sample.splitIntoWords [] = Normal []
  /\ value_of (js "Convert lower-kebab-case")
       (manipulateString Sample.host 0 (js "foo-bar")) = Some (js "foo-bar")
  /\ value_of (js "Convert camelCase")
       (manipulateString Sample.host 0 (js "fooBar")) = Some (js "fooBar").
Proof. repeat split. Qed.

(** * More of the code *)

(** ** Splitting and joining *)

Lemma split_on_not_nil sep s : split_on sep s <> [].
Proof.
  destruct s as [|u s]; [discriminate|]. cbn [split_on].
  destruct (u =? sep); [discriminate|]. destruct (split_on sep s); discriminate.
Qed.

Lemma join_cons sep p q rest :
  join sep (p :: q :: rest) = p ++ sep ++ join sep (q :: rest).
Proof. reflexivity. Qed.

Lemma join_split_on sep s : join [sep] (split_on sep s) = s.
Proof.
  induction s as [|u s IH]; [reflexivity|]. cbn [split_on].
  destruct (Z.eqb_spec u sep) as [->|Hu].
  - pose proof (split_on_not_nil sep s) as Hn.
    destruct (split_on sep s) as [|q rest]; [congruence|].
    rewrite join_cons. cbn [app]. now rewrite IH.
  - pose proof (split_on_not_nil sep s) as Hn.
    destruct (split_on sep s) as [|q rest]; [congruence|].
    destruct rest as [|q' rest].
    + cbn [join] in *. now rewrite IH.
    + rewrite join_cons in *. rewrite <- app_comm_cons. now rewrite IH.
Qed.

Lemma split_on_parts sep s :
  Forall (Forall (fun u => u <> sep)) (split_on sep s).
Proof.
  induction s as [|u s IH]; [repeat constructor|]. cbn [split_on].
  destruct (Z.eqb_spec u sep) as [->|Hu]; [now constructor|].
  destruct (split_on sep s) as [|q rest]; [repeat constructor; assumption|].
  inversion IH; subst. constructor; [now constructor | assumption].
Qed.

Lemma split_on_join sep parts :
  parts <> [] -> Forall (Forall (fun u => u <> sep)) parts ->
  split_on sep (join [sep] parts) = parts.
Proof.
  intros Hn Hparts. induction Hparts as [|p parts Hp Hparts IH]; [congruence|].
  destruct parts as [|q rest].
  - cbn [join]. now apply split_on_no_separator.
  - rewrite join_cons. cbn [app]. rewrite split_on_app by assumption.
    f_equal. apply IH. discriminate.
Qed.

Lemma join_snoc sep parts last :
  parts <> [] ->
  join sep (parts ++ [last]) = join sep parts ++ sep ++ last.
Proof.
  induction parts as [|p parts IH]; [congruence|]. intros _.
  destruct parts as [|q rest]; [reflexivity|].
  change ((p :: q :: rest) ++ [last]) with (p :: (q :: rest) ++ [last]).
  change ((q :: rest) ++ [last]) with (q :: rest ++ [last]) at 1.
  rewrite join_cons.
  change (q :: rest ++ [last]) with ((q :: rest) ++ [last]).
  rewrite IH by discriminate. rewrite join_cons. now rewrite <- !app_assoc.
Qed.

(** ** The list of the command *)

Lemma collapse_newlines_spec value : forall in_run,
  ~ In 10 (UI.collapse_newlines in_run value)
  /\ (List.length (UI.collapse_newlines in_run value) <= List.length value)%nat
  /\ (~ In 10 value -> UI.collapse_newlines in_run value = value).
Proof.
  induction value as [|u value IH]; intros in_run.
  { repeat split; auto. }
  cbn [UI.collapse_newlines].
  destruct (IH true) as (T1 & T2 & T3). destruct (IH false) as (F1 & F2 & F3).
  destruct (Z.eqb_spec u 10) as [->|Hu].
  - assert (Hin : ~ ~ In 10 (10 :: value)) by (intros H; apply H; now left).
    destruct in_run; cbn [app List.length In].
    + split; [exact T1|]. split; [lia|]. intros H. contradiction.
    + split; [intros [H|H]; [discriminate | contradiction]|].
      split; [lia|]. intros H. contradiction.
  - cbn [List.length In].
    split; [intros [H|H]; [congruence | contradiction]|].
    split; [lia|].
    intros H. f_equal. apply F3. intros H'. apply H. now right.
Qed.

Lemma formatForSubtile_no_line_feed value : ~ In 10 (UI.formatForSubtile value).
Proof. apply collapse_newlines_spec. Qed.

(** X1. The subtitle of an item is on one line: [formatForSubtile]
    leaves no line feed in its result, never lengthens the value, and
    changes nothing in a value that has no line feed; so applying it
    twice is applying it once. *)
Theorem formatForSubtile_single_line (value : jsstring) :
  ~ In 10 (UI.formatForSubtile value)
  /\ (List.length (UI.formatForSubtile value) <= List.length value)%nat
  /\ (~ In 10 value -> UI.formatForSubtile value = value)
  /\ UI.formatForSubtile (UI.formatForSubtile value) = UI.formatForSubtile value.
Proof.
  unfold UI.formatForSubtile.
  destruct (collapse_newlines_spec value false) as (H1 & H2 & H3).
  split; [exact H1|]. split; [exact H2|]. split; [exact H3|].
  now apply collapse_newlines_spec.
Qed.

Lemma join_nested sep a b (lines : list jsstring) :
  lines <> [] ->
  join sep [a; join sep lines; b] = join sep (a :: lines ++ [b]).
Proof.
  intros Hn. destruct lines as [|p parts]; [congruence|].
  transitivity (a ++ sep ++ join sep ((p :: parts) ++ [b])).
  - rewrite join_snoc by discriminate. reflexivity.
  - reflexivity.
Qed.

Lemma formatMarkdown_join value :
  UI.formatMarkdown value
  = join [10] (UI.indent :: map (fun s => UI.indent ++ s) (split_on 10 value)
               ++ [UI.indent]).
Proof.
  unfold UI.formatMarkdown. apply join_nested.
  pose proof (split_on_not_nil 10 value) as Hn.
  destruct (split_on 10 value); [congruence | discriminate].
Qed.

Lemma formatMarkdown_lines value :
  split_on 10 (UI.formatMarkdown value)
  = UI.indent :: map (fun s => UI.indent ++ s) (split_on 10 value) ++ [UI.indent].
Proof.
  rewrite formatMarkdown_join. apply split_on_join; [discriminate|].
  constructor; [repeat constructor; discriminate|].
  apply Forall_app. split; [|repeat constructor; discriminate].
  apply Forall_map. pose proof (split_on_parts 10 value) as Hp.
  induction Hp as [|p parts Hp _ IH]; constructor; [|exact IH].
  apply Forall_app. split; [repeat constructor; discriminate | exact Hp].
Qed.

(** X2. The markdown of an item is an indented code block that holds
    the value: its lines are a line of four spaces, the lines of the
    value each after four spaces, and a line of four spaces.  So every
    line starts with four spaces, and without the first and the last
    line and the four spaces of the others the text is the value. *)
Theorem formatMarkdown_is_an_indented_block (value : jsstring) :
  split_on 10 (UI.formatMarkdown value)
  = UI.indent :: map (fun s => UI.indent ++ s) (split_on 10 value) ++ [UI.indent]
  /\ Forall (fun line => firstn 4 line = UI.indent)
       (split_on 10 (UI.formatMarkdown value))
  /\ join [10]
       (map (skipn 4) (removelast (tl (split_on 10 (UI.formatMarkdown value)))))
     = value.
Proof.
  rewrite formatMarkdown_lines. split; [reflexivity|]. split.
  - constructor; [reflexivity|]. apply Forall_app. split.
    + apply Forall_map. apply Forall_forall. reflexivity.
    + repeat constructor.
  - cbn [tl]. rewrite removelast_last, map_map. cbn [skipn app UI.indent].
    rewrite map_id. apply join_split_on.
Qed.

Lemma distinct_NoDup l : distinct l = true -> NoDup l.
Proof.
  induction l as [|x l IH]; [constructor|].
  cbn [distinct]. intros [Hx Hl]%andb_prop. constructor; [|auto].
  intros Hin. apply negb_true_iff in Hx.
  assert (existsb (JS.eqb x) l = true); [|congruence].
  apply existsb_exists. exists x. split; [assumption | apply eqb_refl].
Qed.

Lemma labels_NoDup : NoDup labels.
Proof. apply distinct_NoDup. vm_compute. reflexivity. Qed.

Lemma subsequence_filter {A} (f : A -> bool) l : subsequence (filter f l) l.
Proof.
  induction l as [|x l IH]; [constructor|]. cbn [filter].
  destruct (f x); now constructor.
Qed.

Lemma subsequence_map {A B} (g : A -> B) l1 l2 :
  subsequence l1 l2 -> subsequence (map g l1) (map g l2).
Proof. induction 1; cbn [map]; now constructor. Qed.

Lemma subsequence_In {A} (l1 l2 : list A) x :
  subsequence l1 l2 -> In x l1 -> In x l2.
Proof.
  induction 1 as [|y l1 l2 _ IH|y l1 l2 _ IH]; intros Hin; [assumption| |].
  - destruct Hin as [->|Hin]; [now left | right; auto].
  - right. auto.
Qed.

Lemma subsequence_NoDup {A} (l1 l2 : list A) :
  subsequence l1 l2 -> NoDup l2 -> NoDup l1.
Proof.
  induction 1 as [|y l1 l2 Hs IH|y l1 l2 Hs IH]; intros Hnd; [assumption| |].
  - inversion Hnd as [|? ? Hy Hnd']; subst. constructor; [|auto].
    intros Hin. apply Hy. eapply subsequence_In; eassumption.
  - inversion Hnd; subst. auto.
Qed.

(** With distinct keys, a result is found under its key. *)
Lemma value_of_In (results : list Result) r :
  NoDup (map result_key results) -> In r results ->
  value_of (result_key r) results = Some (value r).
Proof.
  unfold value_of. induction results as [|r0 results IH]; intros Hnd Hin;
    [contradiction|].
  cbn [map] in Hnd. inversion Hnd as [|? ? Hr0 Hnd']; subst. cbn [find].
  destruct Hin as [->|Hin]; [now rewrite eqb_refl|].
  destruct (JS.eqb (result_key r0) (result_key r)) eqn:E; [|auto].
  apply eqb_eq in E. exfalso. apply Hr0. rewrite E. now apply in_map.
Qed.

Lemma manipulateString_keys h now x :
  map result_key (manipulateString h now x) = labels.
Proof. unfold manipulateString. rewrite map_map. reflexivity. Qed.

Lemma includes_nil needle : needle <> [] -> UI.includes [] needle = false.
Proof. destruct needle; [congruence | reflexivity]. Qed.

Lemma filtering_spec text :
  UI.filtering text = true <-> text <> [] /\ UI.includes text UI.needle = false.
Proof.
  unfold UI.filtering. destruct (UI.includes text UI.needle).
  - split; [discriminate | intros [_ H]; discriminate].
  - destruct (JS.eqb text []) eqn:E.
    + apply eqb_eq in E. split; [discriminate | intros [H _]; congruence].
    + apply eqb_neq in E. split; auto.
Qed.

(** X3. The list of the command shows the results whose value is not
    empty and does not contain the three characters that [filtering]
    looks for, in catalog order; the keys of the items are pairwise
    different labels of the catalog; the content that an item copies is
    the value recorded under its label, its subtitle has no line feed;
    and there is no item while the clipboard text is not there. *)
Theorem Command_lists_the_filled_results (h : Host) (now : Z) (text : jsstring) :
  let items := UI.Command h now (Some text) in
  subsequence (map UI.item_key items) labels
  /\ NoDup (map UI.item_key items)
  /\ Forall
       (fun i =>
          UI.content i <> []
          /\ UI.includes (UI.content i) UI.needle = false
          /\ value_of (UI.item_key i) (manipulateString h now text)
             = Some (UI.content i)
          /\ UI.title i = UI.item_key i
          /\ ~ In 10 (UI.subtitle i))
       items
  /\ (forall r, In r (manipulateString h now text) ->
                value r <> [] -> UI.includes (value r) UI.needle = false ->
                exists i, In i items /\ UI.item_key i = result_key r
                          /\ UI.content i = value r)
  /\ UI.Command h now None = [].
Proof.
  cbn zeta. unfold UI.Command.
  set (results := manipulateString h now text).
  set (shown := filter (fun r => UI.filtering (value r)) results).
  assert (Hkeys : subsequence (map result_key shown) labels).
  { rewrite <- (manipulateString_keys h now text).
    apply subsequence_map, subsequence_filter. }
  rewrite map_map. cbn [UI.item_key].
  split; [exact Hkeys|].
  split; [exact (subsequence_NoDup _ _ Hkeys labels_NoDup)|].
  split; [|split; [|reflexivity]].
  - apply Forall_map. apply Forall_forall. intros r Hr.
    apply filter_In in Hr as [Hr Hf]. apply filtering_spec in Hf as [Hf1 Hf2].
    cbn [UI.content UI.item_key UI.title UI.subtitle].
    repeat split; try assumption.
    + apply value_of_In; [|assumption].
      unfold results. rewrite manipulateString_keys. exact labels_NoDup.
    + apply formatForSubtile_no_line_feed.
  - intros r Hr Hv Hn.
    eexists. split.
    + apply in_map. apply filter_In. split; [exact Hr|].
      apply filtering_spec. auto.
    + split; reflexivity.
Qed.

(** ** Numbers and their digits *)

Lemma strip_hex_prefix_id (s : jsstring) :
  (forall x rest, s = 48 :: x :: rest -> (x =? 120) || (x =? 88) = false) ->
  match s with
  | 48 :: x :: rest => if (x =? 120) || (x =? 88) then rest else s
  | _ => s
  end = s.
Proof.
  intros H. destruct s as [|u [|x rest]]; [reflexivity| |].
  - destruct u as [|p|p]; try reflexivity.
    do 6 (destruct p as [p|p|]; try reflexivity).
  - destruct u as [|p|p]; try reflexivity.
    do 6 (destruct p as [p|p|]; try reflexivity).
    now rewrite (H x rest eq_refl).
Qed.

Lemma radix_digit_digit radix v :
  0 <= v < radix -> radix <= 16 -> radix_digit radix (Hex.digit v) = Some v.
Proof.
  intros Hv Hr. unfold radix_digit, digit_value, Hex.digit,
    is_ascii_digit, is_ascii_lower, is_ascii_upper.
  destruct (Z.ltb_spec v 10); decide_cmp; cbv iota beta; decide_cmp; f_equal; lia.
Qed.

Lemma leading_digits_digits radix ds :
  radix <= 16 -> Forall (fun v => 0 <= v < radix) ds ->
  leading_digits radix (map Hex.digit ds) = ds.
Proof.
  intros Hr Hds. induction Hds as [|v ds Hv _ IH]; [reflexivity|].
  cbn [map leading_digits]. now rewrite radix_digit_digit, IH.
Qed.

Lemma digit_not_special v :
  0 <= v < 16 ->
  is_whitespace (Hex.digit v) = false
  /\ (Hex.digit v =? 45) = false /\ (Hex.digit v =? 43) = false
  /\ (Hex.digit v =? 120) || (Hex.digit v =? 88) = false.
Proof.
  intros Hv. unfold is_whitespace, Hex.digit.
  destruct (Z.ltb_spec v 10); decide_cmp; auto.
Qed.

(** [parseInt] of an optional minus sign and digits of the radix. *)
Lemma parseInt_digits radix (negative : bool) ds :
  radix = 2 \/ radix = 10 \/ radix = 16 ->
  ds <> [] -> Forall (fun v => 0 <= v < radix) ds ->
  parseInt ((if negative then [45] else []) ++ map Hex.digit ds) radix
  = to_double (if negative then - digits_value radix ds
               else digits_value radix ds).
Proof.
  intros Hr Hn Hds.
  assert (Hr16 : radix <= 16) by lia.
  destruct ds as [|v ds]; [congruence|].
  assert (Hv : 0 <= v < 16) by (inversion Hds; lia).
  destruct (digit_not_special v Hv) as (W & M & P & X).
  assert (Hstrip : (if radix =? 16 then
                      match map Hex.digit (v :: ds) with
                      | 48 :: x :: rest =>
                          if (x =? 120) || (x =? 88) then rest
                          else map Hex.digit (v :: ds)
                      | _ => map Hex.digit (v :: ds)
                      end
                    else map Hex.digit (v :: ds)) = map Hex.digit (v :: ds)).
  { destruct (radix =? 16); [|reflexivity].
    apply strip_hex_prefix_id. intros x rest E.
    destruct ds as [|v' ds]; [discriminate|].
    cbn [map] in E. injection E as _ <- _.
    apply digit_not_special. inversion Hds as [|? ? _ Hds']; subst.
    inversion Hds'; subst. lia. }
  unfold parseInt. destruct negative.
  - change ([45] ++ map Hex.digit (v :: ds)) with (45 :: map Hex.digit (v :: ds)).
    change (trimStart (45 :: map Hex.digit (v :: ds)))
      with (45 :: map Hex.digit (v :: ds)).
    cbv beta iota zeta. change (45 =? 45) with true. cbv beta iota.
    cbn [orb]. cbv beta iota.
    match goal with
    | |- context [leading_digits radix ?t] =>
        replace t with (map Hex.digit (v :: ds)) by (symmetry; exact Hstrip)
    end.
    rewrite leading_digits_digits by assumption. reflexivity.
  - change ([] ++ map Hex.digit (v :: ds)) with (Hex.digit v :: map Hex.digit ds).
    cbn [trimStart]. rewrite W. cbv beta iota zeta. rewrite M, P.
    cbn [orb]. cbv beta iota.
    change (Hex.digit v :: map Hex.digit ds) with (map Hex.digit (v :: ds)).
    match goal with
    | |- context [leading_digits radix ?t] =>
        replace t with (map Hex.digit (v :: ds)) by (symmetry; exact Hstrip)
    end.
    rewrite leading_digits_digits by assumption. reflexivity.
Qed.

Lemma digits_value_snoc radix ds d :
  digits_value radix (ds ++ [d]) = digits_value radix ds * radix + d.
Proof. unfold digits_value. now rewrite fold_left_app. Qed.

Lemma binary_digits_bits p : binary_digits p = map Hex.digit (bits p).
Proof.
  induction p as [p IH|p IH|]; cbn [binary_digits bits]; try reflexivity;
    now rewrite IH, map_app.
Qed.

Lemma bits_spec p :
  digits_value 2 (bits p) = Z.pos p
  /\ Forall (fun v => 0 <= v < 2) (bits p) /\ bits p <> [].
Proof.
  induction p as [p (IH1 & IH2 & IH3)|p (IH1 & IH2 & IH3)|]; cbn [bits].
  - rewrite digits_value_snoc, IH1. split; [lia|]. split.
    + apply Forall_app. split; [assumption | repeat constructor; lia].
    + destruct (bits p); discriminate.
  - rewrite digits_value_snoc, IH1. split; [lia|]. split.
    + apply Forall_app. split; [assumption | repeat constructor; lia].
    + destruct (bits p); discriminate.
  - split; [reflexivity|]. split; [repeat constructor; lia | discriminate].
Qed.

Lemma js_string_of_uint d :
  js (DecimalString.NilEmpty.string_of_uint d) = map Hex.digit (uint_digits d).
Proof.
  induction d; cbn [DecimalString.NilEmpty.string_of_uint uint_digits map];
    try reflexivity;
    unfold js in *; cbn [list_ascii_of_string map]; now rewrite IHd.
Qed.

Lemma uint_digits_range d : Forall (fun v => 0 <= v < 10) (uint_digits d).
Proof. induction d; cbn [uint_digits]; constructor; (lia || assumption). Qed.

Lemma fold_digits_of_uint_acc d : forall acc,
  fold_left (fun a v => a * 10 + v) (uint_digits d) (Z.pos acc)
  = Z.pos (Pos.of_uint_acc d acc).
Proof.
  induction d; intros acc; cbn [uint_digits fold_left Pos.of_uint_acc];
    try reflexivity;
    rewrite <- IHd; f_equal; lia.
Qed.

Lemma digits_value_of_uint d :
  digits_value 10 (uint_digits d) = Z.of_N (Pos.of_uint d).
Proof.
  unfold digits_value.
  induction d; cbn [uint_digits fold_left Pos.of_uint]; try reflexivity;
    try exact IHd;
    cbn [Z.of_N]; rewrite <- fold_digits_of_uint_acc; reflexivity.
Qed.

Lemma to_uint_digits p :
  digits_value 10 (uint_digits (Pos.to_uint p)) = Z.pos p
  /\ uint_digits (Pos.to_uint p) <> [].
Proof.
  split.
  - rewrite digits_value_of_uint, DecimalPos.Unsigned.of_to. reflexivity.
  - pose proof (DecimalPos.Unsigned.to_uint_nonnil p) as H.
    destruct (Pos.to_uint p); (congruence || discriminate).
Qed.

(** The decimal digits of an integer: a minus sign when it is negative,
    and digits whose value is its magnitude. *)
Lemma decimal_digits_spec z :
  exists ds,
    decimal_digits z = (if z <? 0 then [45] else []) ++ map Hex.digit ds
    /\ ds <> [] /\ Forall (fun v => 0 <= v < 10) ds
    /\ digits_value 10 ds = Z.abs z.
Proof.
  destruct z as [|p|p].
  - exists [0]. repeat split; try discriminate. repeat constructor; lia.
  - exists (uint_digits (Pos.to_uint p)).
    destruct (to_uint_digits p) as [Hv Hn].
    split; [|split; [assumption|split; [apply uint_digits_range | assumption]]].
    unfold decimal_digits. cbn [Z.to_int DecimalString.NilZero.string_of_int].
    unfold DecimalString.NilZero.string_of_uint.
    pose proof (DecimalPos.Unsigned.to_uint_nonnil p) as H.
    destruct (Pos.to_uint p) eqn:E; try congruence;
      rewrite <- E; now rewrite js_string_of_uint.
  - exists (uint_digits (Pos.to_uint p)).
    destruct (to_uint_digits p) as [Hv Hn].
    split; [|split; [assumption|split; [apply uint_digits_range | assumption]]].
    unfold decimal_digits. cbn [Z.to_int DecimalString.NilZero.string_of_int].
    unfold DecimalString.NilZero.string_of_uint.
    pose proof (DecimalPos.Unsigned.to_uint_nonnil p) as H.
    destruct (Pos.to_uint p) eqn:E; try congruence;
      rewrite <- E; unfold js; cbn [list_ascii_of_string map];
      fold (js (DecimalString.NilEmpty.string_of_uint (Pos.to_uint p)));
      now rewrite js_string_of_uint.
Qed.

Lemma js_string_of_hex_uint d :
  js (HexadecimalString.NilEmpty.string_of_uint d)
  = map Hex.digit (hex_uint_digits d).
Proof.
  induction d;
    cbn [HexadecimalString.NilEmpty.string_of_uint hex_uint_digits map];
    try reflexivity;
    unfold js in *; cbn [list_ascii_of_string map]; now rewrite IHd.
Qed.

Lemma hex_uint_digits_range d : Forall (fun v => 0 <= v < 16) (hex_uint_digits d).
Proof. induction d; cbn [hex_uint_digits]; constructor; (lia || assumption). Qed.

Lemma fold_digits_of_hex_uint_acc d : forall acc,
  fold_left (fun a v => a * 16 + v) (hex_uint_digits d) (Z.pos acc)
  = Z.pos (Pos.of_hex_uint_acc d acc).
Proof.
  induction d; intros acc;
    cbn [hex_uint_digits fold_left Pos.of_hex_uint_acc];
    try reflexivity;
    rewrite <- IHd; f_equal; lia.
Qed.

Lemma digits_value_of_hex_uint d :
  digits_value 16 (hex_uint_digits d) = Z.of_N (Pos.of_hex_uint d).
Proof.
  unfold digits_value.
  induction d; cbn [hex_uint_digits fold_left Pos.of_hex_uint];
    try reflexivity; try exact IHd;
    cbn [Z.of_N]; rewrite <- fold_digits_of_hex_uint_acc; reflexivity.
Qed.

Lemma to_hex_uint_digits p :
  digits_value 16 (hex_uint_digits (Pos.to_hex_uint p)) = Z.pos p
  /\ hex_uint_digits (Pos.to_hex_uint p) <> [].
Proof.
  split.
  - rewrite digits_value_of_hex_uint, HexadecimalPos.Unsigned.of_to. reflexivity.
  - pose proof (HexadecimalPos.Unsigned.to_uint_nonnil p) as H.
    destruct (Pos.to_hex_uint p); (congruence || discriminate).
Qed.

(** The hexadecimal digits of an integer, lower case. *)
Lemma hexadecimal_digits_spec z :
  exists ds,
    hexadecimal_digits z = (if z <? 0 then [45] else []) ++ map Hex.digit ds
    /\ ds <> [] /\ Forall (fun v => 0 <= v < 16) ds
    /\ digits_value 16 ds = Z.abs z.
Proof.
  destruct z as [|p|p].
  - exists [0]. repeat split; try discriminate. repeat constructor; lia.
  - exists (hex_uint_digits (Pos.to_hex_uint p)).
    destruct (to_hex_uint_digits p) as [Hv Hn].
    split; [|split; [assumption|split; [apply hex_uint_digits_range | assumption]]].
    unfold hexadecimal_digits.
    cbn [Z.to_hex_int HexadecimalString.NilZero.string_of_int].
    unfold HexadecimalString.NilZero.string_of_uint.
    pose proof (HexadecimalPos.Unsigned.to_uint_nonnil p) as H.
    destruct (Pos.to_hex_uint p) eqn:E; try congruence;
      rewrite <- E; now rewrite js_string_of_hex_uint.
  - exists (hex_uint_digits (Pos.to_hex_uint p)).
    destruct (to_hex_uint_digits p) as [Hv Hn].
    split; [|split; [assumption|split; [apply hex_uint_digits_range | assumption]]].
    unfold hexadecimal_digits.
    cbn [Z.to_hex_int HexadecimalString.NilZero.string_of_int].
    unfold HexadecimalString.NilZero.string_of_uint.
    pose proof (HexadecimalPos.Unsigned.to_uint_nonnil p) as H.
    destruct (Pos.to_hex_uint p) eqn:E; try congruence;
      rewrite <- E; unfold js; cbn [list_ascii_of_string map];
      fold (js (HexadecimalString.NilEmpty.string_of_uint (Pos.to_hex_uint p)));
      now rewrite js_string_of_hex_uint.
Qed.

(** A text that starts and ends with characters that are not white
    space is its own trim. *)
Lemma trimStart_id u s : is_whitespace u = false -> trimStart (u :: s) = u :: s.
Proof. intros H. cbn [trimStart]. now rewrite H. Qed.

Lemma trim_id (s : jsstring) :
  (forall u, hd_error s = Some u -> is_whitespace u = false) ->
  (forall u, hd_error (rev s) = Some u -> is_whitespace u = false) ->
  trim s = s.
Proof.
  intros Hh Hl. unfold trim, trimEnd.
  assert (E1 : trimStart s = s).
  { destruct s as [|u s]; [reflexivity|]. apply trimStart_id. now apply Hh. }
  rewrite E1.
  assert (E2 : trimStart (rev s) = rev s).
  { destruct (rev s) as [|u r]; [reflexivity|]. apply trimStart_id. now apply Hl. }
  rewrite E2. apply rev_involutive.
Qed.

(** A minus sign and digits have no white space to trim, and no
    space to remove. *)
Lemma signed_digits_plain (negative : bool) ds :
  Forall (fun v => 0 <= v < 16) ds ->
  let s := (if negative then [45] else []) ++ map Hex.digit ds in
  trim s = s /\ remove_spaces s = s /\ Forall (fun u => u <> 32 /\ u <> 10) s.
Proof.
  intros Hds. cbv zeta.
  set (s := (if negative then [45] else []) ++ map Hex.digit ds).
  assert (Hall : Forall (fun u => is_whitespace u = false /\ u <> 32 /\ u <> 10) s).
  { unfold s. apply Forall_app. split.
    - destruct negative; repeat constructor; discriminate.
    - apply Forall_map. eapply Forall_impl; [|exact Hds].
      intros v Hv. destruct (digit_not_special v Hv) as (W & _).
      split; [assumption|]. unfold Hex.digit.
      cbv beta in Hv. destruct (v <? 10); split; lia. }
  clearbody s. split; [|split].
  - apply trim_id.
    + intros u Hu. destruct s as [|u' s']; [discriminate|].
      injection Hu as ->. inversion Hall as [|? ? [Hw _] _]; subst. exact Hw.
    + intros u Hu. apply Forall_rev in Hall.
      destruct (rev s) as [|u' s']; [discriminate|].
      injection Hu as ->. inversion Hall as [|? ? [Hw _] _]; subst. exact Hw.
  - unfold remove_spaces. induction Hall as [|u s' [_ [Hu _]] _ IH];
      [reflexivity|].
    cbn [filter]. apply Z.eqb_neq in Hu. rewrite Hu. cbn [negb]. now rewrite IH.
  - eapply Forall_impl; [|exact Hall]. intros u (_ & H1 & H2). now split.
Qed.

Lemma to_double_small z : Z.abs z < 2 ^ 53 -> to_double z = Finite z.
Proof.
  intros H. unfold to_double. apply Z.ltb_lt in H. now rewrite H.
Qed.

Lemma signed_abs z : (if z <? 0 then - Z.abs z else Z.abs z) = z.
Proof. destruct (Z.ltb_spec z 0); lia. Qed.

(** [parseInt] reads back the decimal and the hexadecimal digits of an
    integer, trimmed or not. *)
Lemma parseInt_decimal_digits z :
  trim (decimal_digits z) = decimal_digits z
  /\ remove_spaces (decimal_digits z) = decimal_digits z
  /\ parseInt (decimal_digits z) 10 = to_double z.
Proof.
  destruct (decimal_digits_spec z) as (ds & E & Hn & Hr & Hv).
  assert (Hr16 : Forall (fun v => 0 <= v < 16) ds).
  { eapply Forall_impl; [|exact Hr]. intros; cbv beta in *; lia. }
  destruct (signed_digits_plain (z <? 0) ds Hr16) as (T & S & _).
  rewrite E. split; [exact T|]. split; [exact S|].
  rewrite parseInt_digits by auto. rewrite Hv. now rewrite signed_abs.
Qed.

Lemma parseInt_hexadecimal_digits z :
  trim (hexadecimal_digits z) = hexadecimal_digits z
  /\ parseInt (hexadecimal_digits z) 16 = to_double z.
Proof.
  destruct (hexadecimal_digits_spec z) as (ds & E & Hn & Hr & Hv).
  destruct (signed_digits_plain (z <? 0) ds Hr) as (T & _).
  rewrite E. split; [exact T|].
  rewrite parseInt_digits by auto. rewrite Hv. now rewrite signed_abs.
Qed.

(** X4. "Decimal(10) to Hex(16)" and "Hex(16) to Decimal(10)" are
    inverse on the numerals of the integers below 2^53 in magnitude:
    the first turns the decimal numeral of such a number into its
    lower-case hexadecimal numeral, the second turns that back. *)
Theorem decimal_and_hex_conversions_are_inverse (h : Host) (now z : Z) :
  Z.abs z < 2 ^ 53 ->
  value_of (js "Decimal(10) to Hex(16)") (manipulateString h now (decimal_digits z))
  = Some (hexadecimal_digits z)
  /\ value_of (js "Hex(16) to Decimal(10)")
       (manipulateString h now (hexadecimal_digits z))
     = Some (decimal_digits z).
Proof.
  intros Hz. rewrite !value_of_entry.
  destruct (parseInt_decimal_digits z) as (T10 & _ & P10).
  destruct (parseInt_hexadecimal_digits z) as (T16 & P16).
  pose proof (proj2 (Z.ltb_lt _ _) Hz) as Hlt.
  split.
  - change (entry h (js "Decimal(10) to Hex(16)"))
      with (Some {| key := js "Decimal(10) to Hex(16)";
                    manipulation := fun _ text =>
                      convert_base (trim text) 10
                        (fun n => Normal (Number_toString h n 16)) |}).
    cbn [option_map run manipulation value]. unfold convert_base.
    rewrite T10, P10, to_double_small by assumption.
    cbn [Number_isNaN returns bind Number_toString]. now rewrite Hlt.
  - change (entry h (js "Hex(16) to Decimal(10)"))
      with (Some {| key := js "Hex(16) to Decimal(10)";
                    manipulation := fun _ text =>
                      convert_base (trim text) 16
                        (fun n => Normal (Number_toString h n 10)) |}).
    cbn [option_map run manipulation value]. unfold convert_base.
    rewrite T16, P16, to_double_small by assumption.
    cbn [Number_isNaN returns bind Number_toString]. now rewrite Hlt.
Qed.

Lemma decimal_and_hex_conversions_are_inverse_witness :
  value_of (js "Decimal(10) to Hex(16)")
    (manipulateString Sample.host 0 (decimal_digits (-48879)))
  = Some (hexadecimal_digits (-48879))
  /\ value_of (js "Hex(16) to Decimal(10)")
       (manipulateString Sample.host 0 (hexadecimal_digits (-48879)))
     = Some (decimal_digits (-48879)).
Proof.
  apply (decimal_and_hex_conversions_are_inverse Sample.host 0 (-48879)).
  reflexivity.
Defined.

(** ** Groups of eight binary digits *)

(** The windows that [formatBinaryNumber] joins. *)
Lemma windows_spec n : forall text : jsstring,
  List.length text = (8 * n)%nat ->
  let windows := map (fun i => slice text (i * 8) ((i + 1) * 8))%nat (seq 0 n) in
  List.concat windows = text
  /\ Forall (fun w => List.length w = 8%nat) windows
  /\ List.length windows = n.
Proof.
  induction n as [|n IH]; intros text Hlen; cbv zeta.
  { destruct text; [repeat split; constructor | discriminate]. }
  cbn [seq map List.concat].
  rewrite <- seq_shift, map_map.
  assert (Hshift : map (fun i => slice text (S i * 8) ((S i + 1) * 8))%nat (seq 0 n)
                   = map (fun i => slice (skipn 8 text) (i * 8) ((i + 1) * 8))%nat
                       (seq 0 n)).
  { apply map_ext. intros i. unfold slice. rewrite skipn_skipn.
    replace ((S i + 1) * 8 - S i * 8)%nat with ((i + 1) * 8 - i * 8)%nat by lia.
    replace (i * 8 + 8)%nat with (S i * 8)%nat by lia. reflexivity. }
  rewrite Hshift.
  destruct (IH (skipn 8 text)) as (C & F & L).
  { rewrite length_skipn. lia. }
  cbv zeta in C, F, L. rewrite C.
  split; [|split].
  - unfold slice. change (skipn (0 * 8) text) with text.
    apply firstn_skipn.
  - constructor; [|exact F]. unfold slice. change (skipn (0 * 8) text) with text.
    rewrite length_firstn. lia.
  - cbn [List.length]. now rewrite L.
Qed.

Lemma remove_spaces_app a b :
  remove_spaces (a ++ b) = remove_spaces a ++ remove_spaces b.
Proof. apply filter_app. Qed.

Lemma remove_spaces_id s : Forall (fun u => u <> 32) s -> remove_spaces s = s.
Proof.
  induction 1 as [|u s Hu _ IH]; [reflexivity|].
  unfold remove_spaces in *. cbn [filter]. apply Z.eqb_neq in Hu.
  rewrite Hu. cbn [negb]. now rewrite IH.
Qed.

Lemma remove_spaces_join parts :
  remove_spaces (join [32] parts) = remove_spaces (List.concat parts).
Proof.
  induction parts as [|p [|q rest] IH]; [reflexivity| |].
  - cbn [join List.concat]. now rewrite app_nil_r.
  - rewrite join_cons. cbn [List.concat] in *.
    rewrite (remove_spaces_app p), (remove_spaces_app [32]), IH.
    rewrite (remove_spaces_app p). reflexivity.
Qed.

Lemma length_join_groups (parts : list jsstring) :
  parts <> [] -> Forall (fun w => List.length w = 8%nat) parts ->
  List.length (join [32] parts) = (9 * List.length parts - 1)%nat.
Proof.
  intros Hn Hparts. revert Hn.
  induction Hparts as [|p parts Hp Hparts IH]; intros Hn; [now elim Hn|].
  destruct parts as [|q rest].
  - cbn [join List.length]. lia.
  - specialize (IH ltac:(discriminate)).
    rewrite join_cons, !length_app. cbn [List.length] in *.
    unfold jsstring in *. lia.
Qed.

(** [formatBinaryNumber] on a text of [8 * n] characters: the windows of
    eight characters joined by spaces. *)
Lemma formatBinaryNumber_windows (text : jsstring) n :
  List.length text = (8 * n)%nat -> Z.of_nat n < 2 ^ 32 ->
  exists windows,
    formatBinaryNumber text = Normal (join [32] windows)
    /\ List.concat windows = text
    /\ Forall (fun w => List.length w = 8%nat) windows
    /\ List.length windows = n.
Proof.
  intros Hlen Hn. unfold formatBinaryNumber, new_Array. rewrite Hlen.
  replace (8 * n)%nat with (n * 8)%nat by lia.
  rewrite Nat.Div0.mod_mul, Nat.div_mul by discriminate.
  apply Z.ltb_lt in Hn. rewrite Hn. cbn [Nat.eqb andb bind].
  eexists. split; [reflexivity|]. now apply windows_spec.
Qed.

(** X5. For a text of digits whose length is a multiple of 8,
    [formatBinaryNumber] returns groups of exactly eight digits
    separated by single spaces: the groups in order make up the text,
    removing the spaces gives the text back, and [8 * n] digits become
    [9 * n - 1] characters.  For any other length it throws. *)
Theorem formatBinaryNumber_groups_of_eight (text : jsstring) (n : nat) :
  List.length text = (8 * n)%nat -> Z.of_nat n < 2 ^ 32 ->
  Forall (fun u => u <> 32) text ->
  (exists groups r,
      formatBinaryNumber text = Normal r
      /\ r = join [32] groups
      /\ List.concat groups = text
      /\ Forall (fun w => List.length w = 8%nat) groups
      /\ List.length groups = n
      /\ remove_spaces r = text
      /\ (List.length r = 9 * n - 1)%nat)
  /\ forall other : jsstring,
      Nat.modulo (List.length other) 8 <> 0%nat ->
      formatBinaryNumber other = Throw RangeError.
Proof.
  intros Hlen Hn Hsp. split; [|apply formatBinaryNumber_throws].
  destruct (formatBinaryNumber_windows text n Hlen Hn) as (ws & E & C & F & L).
  exists ws, (join [32] ws). repeat split; try assumption.
  - rewrite remove_spaces_join, C. now apply remove_spaces_id.
  - destruct ws as [|w ws]; [cbn in *; lia|].
    rewrite (length_join_groups (w :: ws)) by (discriminate || assumption).
    rewrite L. cbn [List.length]. lia.
Qed.

Lemma formatBinaryNumber_groups_of_eight_witness :
  (exists groups r,
      formatBinaryNumber (js "1111000010101010") = Normal r
      /\ r = join [32] groups
      /\ List.concat groups = js "1111000010101010"
      /\ Forall (fun w => List.length w = 8%nat) groups
      /\ List.length groups = 2%nat
      /\ remove_spaces r = js "1111000010101010"
      /\ (List.length r = 9 * 2 - 1)%nat)
  /\ forall other : jsstring,
      Nat.modulo (List.length other) 8 <> 0%nat ->
      formatBinaryNumber other = Throw RangeError.
Proof.
  apply (formatBinaryNumber_groups_of_eight (js "1111000010101010") 2).
  - reflexivity.
  - reflexivity.
  - repeat constructor; discriminate.
Defined.

Lemma hd_error_app {A} (a b : list A) : a <> [] -> hd_error (a ++ b) = hd_error a.
Proof. destruct a; [congruence | reflexivity]. Qed.

Lemma hd_error_join sep (w : jsstring) ws :
  w <> [] -> hd_error (join sep (w :: ws)) = hd_error w.
Proof.
  intros Hw. destruct ws as [|q rest]; [reflexivity|].
  rewrite join_cons. now apply hd_error_app.
Qed.

Lemma hd_error_rev_join sep (ws : list jsstring) (w : jsstring) :
  w <> [] -> hd_error (rev (join sep (ws ++ [w]))) = hd_error (rev w).
Proof.
  intros Hw. assert (Hr : rev w <> []).
  { intros E. apply Hw. rewrite <- (rev_involutive w), E. reflexivity. }
  destruct ws as [|q rest]; [reflexivity|].
  rewrite join_snoc by discriminate.
  rewrite !rev_app_distr, <- app_assoc. now apply hd_error_app.
Qed.

(** Groups of characters that are not white space, joined: nothing to
    trim. *)
Lemma trim_join_groups sep (ws : list jsstring) :
  ws <> [] ->
  Forall (fun w => w <> [] /\ Forall (fun u => is_whitespace u = false) w) ws ->
  trim (join sep ws) = join sep ws.
Proof.
  intros Hn Hws. apply trim_id.
  - destruct ws as [|w rest]; [congruence|].
    inversion Hws as [|? ? [Hw Hc] _]; subst.
    rewrite hd_error_join by assumption. intros u Hu.
    destruct w as [|u' w]; [congruence|]. injection Hu as ->.
    now inversion Hc.
  - destruct (exists_last Hn) as (init & w & ->).
    apply Forall_app in Hws as [_ Hw]. inversion Hw as [|? ? [Hw' Hc] _]; subst.
    rewrite hd_error_rev_join by assumption. intros u Hu.
    apply Forall_rev in Hc. destruct (rev w) as [|u' r]; [discriminate|].
    injection Hu as ->. now inversion Hc.
Qed.

Lemma bits_length_bound p :
  2 ^ Z.of_nat (List.length (bits p) - 1) <= Z.pos p.
Proof.
  induction p as [p IH|p IH|]; cbn [bits]; [| |reflexivity];
    rewrite length_app; cbn [List.length];
    destruct (bits_spec p) as (_ & _ & Hn);
    destruct (bits p) as [|b l]; try congruence; cbn [List.length] in *;
    replace (S (List.length l) + 1 - 1)%nat with (S (S (List.length l) - 1)) by lia;
    rewrite Nat2Z.inj_succ, Z.pow_succ_r by lia; lia.
Qed.

Lemma bits_length_small p :
  Z.pos p < 2 ^ 53 -> (List.length (bits p) <= 53)%nat.
Proof.
  intros Hp. pose proof (bits_length_bound p) as Hb.
  destruct (le_lt_dec (List.length (bits p)) 53) as [|Hgt]; [assumption|].
  exfalso.
  assert (2 ^ 53 <= 2 ^ Z.of_nat (List.length (bits p) - 1)).
  { apply Z.pow_le_mono_r; lia. }
  lia.
Qed.

(** X6. "Binary(2) to Decimal(10)" and "Binary(2) to Hex(16)" read the
    grouped output of "Decimal(10) to Binary(2)" back: for a positive
    integer below 2^53 whose binary numeral has a multiple of 8 digits,
    the binary entry returns the non-empty grouped numeral, and on that
    text the two entries return the decimal and the hexadecimal numeral
    of the number. *)
Theorem binary_groups_are_read_back (h : Host) (now : Z) (p : positive) (n : nat) :
  Z.pos p < 2 ^ 53 ->
  List.length (binary_digits p) = (8 * n)%nat ->
  exists grouped,
    value_of (js "Decimal(10) to Binary(2)")
      (manipulateString h now (decimal_digits (Z.pos p))) = Some grouped
    /\ remove_spaces grouped = binary_digits p
    /\ grouped <> []
    /\ value_of (js "Binary(2) to Decimal(10)") (manipulateString h now grouped)
       = Some (decimal_digits (Z.pos p))
    /\ value_of (js "Binary(2) to Hex(16)") (manipulateString h now grouped)
       = Some (hexadecimal_digits (Z.pos p)).
Proof.
  intros Hp Hlen.
  destruct (bits_spec p) as (Hv & Hr & Hnn).
  assert (Hr16 : Forall (fun v => 0 <= v < 16) (bits p)).
  { eapply Forall_impl; [|exact Hr]. intros; cbv beta in *; lia. }
  pose proof (bits_length_small p Hp) as Hsmall.
  rewrite binary_digits_bits in *. rewrite length_map in Hlen.
  assert (Hn : Z.of_nat n < 2 ^ 32) by lia.
  assert (Hlen' : List.length (map Hex.digit (bits p)) = (8 * n)%nat)
    by now rewrite length_map.
  destruct (formatBinaryNumber_windows _ n Hlen' Hn) as (ws & E & C & F & L).
  destruct (signed_digits_plain false (bits p) Hr16) as (_ & _ & Hplain).
  cbn [app] in Hplain.
  assert (Hws : ws <> []).
  { intros ->. cbn in C. destruct (bits p); [congruence | discriminate]. }
  assert (Hgroups : Forall (fun w => w <> []
                             /\ Forall (fun u => is_whitespace u = false) w) ws).
  { assert (Hc : Forall (Forall (fun u => is_whitespace u = false)) ws).
    { apply Forall_concat. rewrite C. apply Forall_map.
      eapply Forall_impl; [|exact Hr16]. intros v Hv'.
      now apply digit_not_special. }
    clear -F Hc. induction F as [|w ws Hw _ IH]; [constructor|].
    inversion Hc; subst. constructor; [|auto].
    split; [|assumption]. destruct w; [discriminate | discriminate]. }
  assert (Hrm : remove_spaces (join [32] ws) = map Hex.digit (bits p)).
  { rewrite remove_spaces_join, C. apply remove_spaces_id.
    eapply Forall_impl; [|exact Hplain]. intros u [H1 _]. exact H1. }
  assert (Hparse : parseInt (map Hex.digit (bits p)) 2 = Finite (Z.pos p)).
  { pose proof (parseInt_digits 2 false (bits p)) as Hd. cbn [app] in Hd.
    rewrite Hd by auto. rewrite Hv. now apply to_double_small. }
  pose proof (proj2 (Z.ltb_lt _ _) Hp) as Hlt.
  destruct (parseInt_decimal_digits (Z.pos p)) as (T10 & _ & P10).
  exists (join [32] ws). rewrite !value_of_entry.
  split; [|split; [exact Hrm|split; [|split]]].
  - change (entry h (js "Decimal(10) to Binary(2)"))
      with (Some {| key := js "Decimal(10) to Binary(2)";
                    manipulation := fun _ text =>
                      convert_base (trim text) 10 to_binary |}).
    cbn [option_map run manipulation value]. unfold convert_base, to_binary.
    rewrite T10, P10, to_double_small by assumption.
    cbn [Number_isNaN Number_toString2 returns].
    rewrite binary_digits_bits, E. reflexivity.
  - intros Ej. rewrite Ej in Hrm. cbn in Hrm.
    destruct (bits p); [congruence | discriminate].
  - change (entry h (js "Binary(2) to Decimal(10)"))
      with (Some {| key := js "Binary(2) to Decimal(10)";
                    manipulation := fun _ text =>
                      convert_base (remove_spaces (trim text)) 2
                        (fun n => Normal (Number_toString h n 10)) |}).
    cbn [option_map run manipulation value]. unfold convert_base.
    rewrite trim_join_groups, Hrm, Hparse by assumption.
    cbn [Number_isNaN returns bind Number_toString Z.abs]. now rewrite Hlt.
  - change (entry h (js "Binary(2) to Hex(16)"))
      with (Some {| key := js "Binary(2) to Hex(16)";
                    manipulation := fun _ text =>
                      convert_base (remove_spaces (trim text)) 2
                        (fun n => Normal (Number_toString h n 16)) |}).
    cbn [option_map run manipulation value]. unfold convert_base.
    rewrite trim_join_groups, Hrm, Hparse by assumption.
    cbn [Number_isNaN returns bind Number_toString Z.abs]. now rewrite Hlt.
Qed.

Lemma binary_groups_are_read_back_witness :
  exists grouped,
    value_of (js "Decimal(10) to Binary(2)")
      (manipulateString Sample.host 0 (decimal_digits 43981)) = Some grouped
    /\ remove_spaces grouped = binary_digits 43981
    /\ grouped <> []
    /\ value_of (js "Binary(2) to Decimal(10)") (manipulateString Sample.host 0 grouped)
       = Some (decimal_digits 43981)
    /\ value_of (js "Binary(2) to Hex(16)") (manipulateString Sample.host 0 grouped)
       = Some (hexadecimal_digits 43981).
Proof.
  apply (binary_groups_are_read_back Sample.host 0 43981 2); reflexivity.
Defined.

(** ** Timestamps *)

(** Rounding keeps an integer of magnitude 2^53 or more at that
    magnitude. *)
Lemma to_double_large w :
  2 ^ 53 <= Z.abs w ->
  (exists s, to_double w = Infinity s)
  \/ (exists v, to_double w = Finite v /\ 2 ^ 53 <= Z.abs v).
Proof.
  intros Hw. unfold to_double.
  destruct (Z.ltb_spec (Z.abs w) (2 ^ 53)) as [|_]; [lia|].
  set (a := Z.abs w) in *. set (e := Z.log2 a - 52).
  assert (Ha : 0 < a) by lia.
  assert (Hlog : 53 <= Z.log2 a).
  { change 53 with (Z.log2 (2 ^ 53)). apply Z.log2_le_mono. exact Hw. }
  assert (He : 1 <= e) by (unfold e; lia).
  destruct (Z.log2_spec a Ha) as [Hlo _].
  assert (Hpow : 2 ^ Z.log2 a = 2 ^ 52 * 2 ^ e).
  { unfold e. rewrite <- Z.pow_add_r by lia. f_equal. lia. }
  assert (H2e : 2 <= 2 ^ e).
  { change 2 with (2 ^ 1) at 1. apply Z.pow_le_mono_r; lia. }
  assert (Hq : 2 ^ 52 <= a / 2 ^ e).
  { apply Z.div_le_lower_bound; [lia|]. rewrite Z.mul_comm. lia. }
  set (q := a / 2 ^ e) in *.
  set (q' := if a mod 2 ^ e <? 2 ^ (e - 1) then q
             else if 2 ^ (e - 1) <? a mod 2 ^ e then q + 1
             else if Z.even q then q else q + 1).
  assert (Hq' : q <= q').
  { unfold q'. destruct (_ <? _); [lia|]. destruct (_ <? _); [lia|].
    destruct (Z.even q); lia. }
  destruct (2 ^ 1024 <=? q' * 2 ^ e); [left; eauto|].
  right. eexists. split; [reflexivity|].
  assert (2 ^ 53 <= q' * 2 ^ e).
  { change (2 ^ 53) with (2 ^ 52 * 2). apply Z.mul_le_mono_nonneg; lia. }
  destruct (Z.sgn_spec w) as [[? ->]|[[? ->]|[? ->]]]; lia.
Qed.

Lemma TimeClip_large w :
  2 ^ 53 <= Z.abs w -> TimeClip (to_double w) = None.
Proof.
  intros Hw. destruct (to_double_large w Hw) as [[s ->]|(v & -> & Hv)];
    [reflexivity|].
  cbn [TimeClip]. destruct (Z.leb_spec (Z.abs v) 8640000000000000); [|reflexivity].
  change (2 ^ 53) with 9007199254740992 in Hv. lia.
Qed.

Lemma TimeClip_times_large w :
  2 ^ 53 <= Z.abs w -> TimeClip (Number_times (to_double w) 1000) = None.
Proof.
  intros Hw. destruct (to_double_large w Hw) as [[s ->]|(v & -> & Hv)];
    [reflexivity|].
  cbn [Number_times]. apply TimeClip_large. lia.
Qed.

(** The time value that the two timestamp entries give to [Date]. *)
Lemma timestamp_seconds z :
  TimeClip (Number_times (parseInt (trim (decimal_digits z)) 10) 1000)
  = if Z.abs z <=? 8640000000000 then Some (1000 * z) else None.
Proof.
  destruct (parseInt_decimal_digits z) as (T & _ & P). rewrite T, P.
  change (2 ^ 53) with 9007199254740992 in *.
  destruct (Z.lt_ge_cases (Z.abs z) (2 ^ 53)) as [Hs|Hl].
  - rewrite to_double_small by assumption. cbn [Number_times].
    change (2 ^ 53) with 9007199254740992 in *.
    destruct (Z.leb_spec (Z.abs z) 8640000000000).
    + rewrite to_double_small by (change (2 ^ 53) with 9007199254740992; lia).
      cbn [TimeClip]. rewrite Z.mul_comm.
      destruct (Z.leb_spec (Z.abs (1000 * z)) 8640000000000000); [reflexivity|lia].
    + destruct (Z.lt_ge_cases (Z.abs (z * 1000)) (2 ^ 53)) as [Hs'|Hl'].
      * rewrite to_double_small by assumption. cbn [TimeClip].
        destruct (Z.leb_spec (Z.abs (z * 1000)) 8640000000000000); [lia|reflexivity].
      * now apply TimeClip_large.
  - rewrite TimeClip_times_large by assumption.
    change (2 ^ 53) with 9007199254740992 in *.
    destruct (Z.leb_spec (Z.abs z) 8640000000000); [lia | reflexivity].
Qed.

Lemma timestamp_milliseconds z :
  TimeClip (parseInt (trim (decimal_digits z)) 10)
  = if Z.abs z <=? 8640000000000000 then Some z else None.
Proof.
  destruct (parseInt_decimal_digits z) as (T & _ & P). rewrite T, P.
  destruct (Z.lt_ge_cases (Z.abs z) (2 ^ 53)) as [Hs|Hl].
  - rewrite to_double_small by assumption. reflexivity.
  - rewrite TimeClip_large by assumption.
    change (2 ^ 53) with 9007199254740992 in *.
    destruct (Z.leb_spec (Z.abs z) 8640000000000000); [lia | reflexivity].
Qed.

(** X7. The two timestamp entries agree: a count of seconds gives the
    value that its thousandfold gives as a count of milliseconds.  On
    the decimal numeral of an integer of at most 8 640 000 000 000
    seconds in magnitude the value is the ISO text of the date, and
    beyond that range [toISOString] throws and the value is empty. *)
Theorem timestamp_entries_agree (h : Host) (now z : Z) :
  value_of (js "Convert UNIX timestamp (sec) to ISO 8601")
    (manipulateString h now (decimal_digits z))
  = value_of (js "Convert UNIX timestamp (ms) to ISO 8601")
      (manipulateString h now (decimal_digits (1000 * z)))
  /\ value_of (js "Convert UNIX timestamp (sec) to ISO 8601")
       (manipulateString h now (decimal_digits z))
     = Some (if Z.abs z <=? 8640000000000
             then Date_toISOString h (1000 * z) else []).
Proof.
  rewrite !value_of_entry.
  change (entry h (js "Convert UNIX timestamp (sec) to ISO 8601"))
    with (Some {| key := js "Convert UNIX timestamp (sec) to ISO 8601";
                  manipulation := fun _ text =>
                    let timestamp := parseInt (trim text) 10 in
                    returns (toISOString h (TimeClip (Number_times timestamp 1000))) |}).
  change (entry h (js "Convert UNIX timestamp (ms) to ISO 8601"))
    with (Some {| key := js "Convert UNIX timestamp (ms) to ISO 8601";
                  manipulation := fun _ text =>
                    let timestamp := parseInt (trim text) 10 in
                    returns (toISOString h (TimeClip timestamp)) |}).
  cbn [option_map run manipulation value]. cbv zeta.
  rewrite timestamp_seconds, timestamp_milliseconds.
  assert (E : (Z.abs (1000 * z) <=? 8640000000000000)
              = (Z.abs z <=? 8640000000000)).
  { destruct (Z.leb_spec (Z.abs z) 8640000000000);
      destruct (Z.leb_spec (Z.abs (1000 * z)) 8640000000000000); lia. }
  rewrite E. destruct (Z.abs z <=? 8640000000000); split; reflexivity.
Qed.

(** X8. A date text turned into a UNIX timestamp and back is the ISO
    text of the same instant: when the host reads the trimmed text as
    the valid time value [t], the millisecond entries compose to
    [toISOString] of [t], and so do the second entries when [t] is a
    whole number of seconds. *)
Theorem date_to_timestamp_and_back (h : Host) (now t : Z) (text : jsstring) :
  Date_parse h (trim text) = Some t ->
  Z.abs t <= 8640000000000000 ->
  (exists ms,
      value_of (js "Convert ISO 8601 to UNIX timestamp (ms)")
        (manipulateString h now text) = Some ms
      /\ value_of (js "Convert UNIX timestamp (ms) to ISO 8601")
           (manipulateString h now ms) = Some (Date_toISOString h t))
  /\ (t mod 1000 = 0 ->
      exists sec,
        value_of (js "Convert ISO 8601 to UNIX timestamp (sec)")
          (manipulateString h now text) = Some sec
        /\ value_of (js "Convert UNIX timestamp (sec) to ISO 8601")
             (manipulateString h now sec) = Some (Date_toISOString h t)).
Proof.
  intros Hd Ht. rewrite !value_of_entry.
  change (entry h (js "Convert ISO 8601 to UNIX timestamp (ms)"))
    with (Some {| key := js "Convert ISO 8601 to UNIX timestamp (ms)";
                  manipulation := fun _ text =>
                    match Date_parse h (trim text) with
                    | None => Normal None
                    | Some t => Normal (Some (decimal_digits t))
                    end |}).
  change (entry h (js "Convert ISO 8601 to UNIX timestamp (sec)"))
    with (Some {| key := js "Convert ISO 8601 to UNIX timestamp (sec)";
                  manipulation := fun _ text =>
                    match Date_parse h (trim text) with
                    | None => Normal None
                    | Some t =>
                        Normal (Some (if t mod 1000 =? 0 then decimal_digits (t / 1000)
                                      else quotient_text h t 1000))
                    end |}).
  cbn [option_map run manipulation value]. rewrite Hd.
  split.
  - eexists. split; [reflexivity|]. rewrite value_of_entry.
    change (entry h (js "Convert UNIX timestamp (ms) to ISO 8601"))
      with (Some {| key := js "Convert UNIX timestamp (ms) to ISO 8601";
                    manipulation := fun _ text =>
                      let timestamp := parseInt (trim text) 10 in
                      returns (toISOString h (TimeClip timestamp)) |}).
    cbn [option_map run manipulation value]. cbv zeta.
    rewrite timestamp_milliseconds.
    apply Z.leb_le in Ht. now rewrite Ht.
  - intros Hmod. eexists. split; [reflexivity|]. rewrite value_of_entry.
    change (entry h (js "Convert UNIX timestamp (sec) to ISO 8601"))
      with (Some {| key := js "Convert UNIX timestamp (sec) to ISO 8601";
                    manipulation := fun _ text =>
                      let timestamp := parseInt (trim text) 10 in
                      returns (toISOString h (TimeClip (Number_times timestamp 1000))) |}).
    cbn [option_map run manipulation value]. cbv zeta.
    rewrite Hmod. cbn [Z.eqb]. rewrite timestamp_seconds.
    assert (E : 1000 * (t / 1000) = t) by (Z.div_mod_to_equations; lia).
    assert (Hs : Z.abs (t / 1000) <= 8640000000000)
      by (Z.div_mod_to_equations; lia).
    apply Z.leb_le in Hs. now rewrite Hs, E.
Qed.

Lemma date_to_timestamp_and_back_witness :
  let text := js " 2024-02-29T12:00:00.000Z " in
  (exists ms,
      value_of (js "Convert ISO 8601 to UNIX timestamp (ms)")
        (manipulateString Sample.host 0 text) = Some ms
      /\ value_of (js "Convert UNIX timestamp (ms) to ISO 8601")
           (manipulateString Sample.host 0 ms)
         = Some (Date_toISOString Sample.host 1709208000000))
  /\ (1709208000000 mod 1000 = 0 ->
      exists sec,
        value_of (js "Convert ISO 8601 to UNIX timestamp (sec)")
          (manipulateString Sample.host 0 text) = Some sec
        /\ value_of (js "Convert UNIX timestamp (sec) to ISO 8601")
             (manipulateString Sample.host 0 sec)
           = Some (Date_toISOString Sample.host 1709208000000)).
Proof.
  apply (date_to_timestamp_and_back Sample.host 0 1709208000000).
  - reflexivity.
  - discriminate.
Defined.

Lemma trimStart_blank s :
  Forall (fun u => is_whitespace u = true) s -> trimStart s = [].
Proof.
  induction 1 as [|u s Hu _ IH]; [reflexivity|]. cbn [trimStart]. now rewrite Hu.
Qed.

Lemma trim_blank s :
  Forall (fun u => is_whitespace u = true) s -> trim s = [].
Proof. intros H. unfold trim, trimEnd. now rewrite (trimStart_blank s H). Qed.

Lemma convert_base_blank (from : Z) (print : number -> completion jsstring) :
  convert_base [] from print = Normal (Some []).
Proof.
  unfold convert_base.
  replace (parseInt [] from) with NaN; [reflexivity|].
  unfold parseInt. cbn [trimStart]. destruct (from =? 16); reflexivity.
Qed.

(** X9. On a clipboard text that is empty or all white space, the six
    base conversions and the two timestamp-to-date entries all record
    the empty string: [parseInt] gives NaN, which the base conversions
    turn into "" and on which [toISOString] throws. *)
Theorem numeric_entries_on_blank_text (h : Host) (now : Z) (text : jsstring) :
  Forall (fun u => is_whitespace u = true) text ->
  Forall
    (fun label => value_of label (manipulateString h now text) = Some [])
    [ js "Hex(16) to Decimal(10)"; js "Hex(16) to Binary(2)";
      js "Decimal(10) to Hex(16)"; js "Decimal(10) to Binary(2)";
      js "Binary(2) to Hex(16)"; js "Binary(2) to Decimal(10)";
      js "Convert UNIX timestamp (sec) to ISO 8601";
      js "Convert UNIX timestamp (ms) to ISO 8601" ].
Proof.
  intros Hb. pose proof (trim_blank text Hb) as Ht.
  repeat (apply Forall_cons; [|]); try apply Forall_nil; rewrite value_of_entry.
  - change (entry h (js "Hex(16) to Decimal(10)"))
      with (Some {| key := js "Hex(16) to Decimal(10)";
                    manipulation := fun _ text =>
                      convert_base (trim text) 16
                        (fun n => Normal (Number_toString h n 10)) |}).
    cbn [option_map run manipulation value].
    now rewrite Ht, convert_base_blank.
  - change (entry h (js "Hex(16) to Binary(2)"))
      with (Some {| key := js "Hex(16) to Binary(2)";
                    manipulation := fun _ text =>
                      convert_base (trim text) 16 (to_binary) |}).
    cbn [option_map run manipulation value].
    now rewrite Ht, convert_base_blank.
  - change (entry h (js "Decimal(10) to Hex(16)"))
      with (Some {| key := js "Decimal(10) to Hex(16)";
                    manipulation := fun _ text =>
                      convert_base (trim text) 10
                        (fun n => Normal (Number_toString h n 16)) |}).
    cbn [option_map run manipulation value].
    now rewrite Ht, convert_base_blank.
  - change (entry h (js "Decimal(10) to Binary(2)"))
      with (Some {| key := js "Decimal(10) to Binary(2)";
                    manipulation := fun _ text =>
                      convert_base (trim text) 10 (to_binary) |}).
    cbn [option_map run manipulation value].
    now rewrite Ht, convert_base_blank.
  - change (entry h (js "Binary(2) to Hex(16)"))
      with (Some {| key := js "Binary(2) to Hex(16)";
                    manipulation := fun _ text =>
                      convert_base (remove_spaces (trim text)) 2
                        (fun n => Normal (Number_toString h n 16)) |}).
    cbn [option_map run manipulation value].
    rewrite Ht. cbn [remove_spaces filter]. now rewrite convert_base_blank.
  - change (entry h (js "Binary(2) to Decimal(10)"))
      with (Some {| key := js "Binary(2) to Decimal(10)";
                    manipulation := fun _ text =>
                      convert_base (remove_spaces (trim text)) 2
                        (fun n => Normal (Number_toString h n 10)) |}).
    cbn [option_map run manipulation value].
    rewrite Ht. cbn [remove_spaces filter]. now rewrite convert_base_blank.
  - change (entry h (js "Convert UNIX timestamp (sec) to ISO 8601"))
      with (Some {| key := js "Convert UNIX timestamp (sec) to ISO 8601";
                    manipulation := fun _ text =>
                      let timestamp := parseInt (trim text) 10 in
                      returns (toISOString h (TimeClip (Number_times timestamp 1000))) |}).
    cbn [option_map run manipulation value]. cbv zeta.
    now rewrite Ht.
  - change (entry h (js "Convert UNIX timestamp (ms) to ISO 8601"))
      with (Some {| key := js "Convert UNIX timestamp (ms) to ISO 8601";
                    manipulation := fun _ text =>
                      let timestamp := parseInt (trim text) 10 in
                      returns (toISOString h (TimeClip timestamp)) |}).
    cbn [option_map run manipulation value]. cbv zeta.
    now rewrite Ht.
Qed.

Lemma numeric_entries_on_blank_text_witness :
  Forall
    (fun label => value_of label (manipulateString Sample.host 0 [32; 10; 9])
                  = Some [])
    [ js "Hex(16) to Decimal(10)"; js "Hex(16) to Binary(2)";
      js "Decimal(10) to Hex(16)"; js "Decimal(10) to Binary(2)";
      js "Binary(2) to Hex(16)"; js "Binary(2) to Decimal(10)";
      js "Convert UNIX timestamp (sec) to ISO 8601";
      js "Convert UNIX timestamp (ms) to ISO 8601" ].
Proof.
  apply (numeric_entries_on_blank_text Sample.host 0 [32; 10; 9]).
  repeat constructor.
Defined.

(** ** Percent-encoding: outcome and alphabet *)

Lemma upper_digit_unescaped d : 0 <= d < 16 -> URI.unescaped (URI.upper_digit d) = true.
Proof.
  intros Hd. unfold URI.unescaped, URI.upper_digit, is_ascii_upper, is_ascii_lower,
    is_ascii_digit.
  rewrite !orb_true_iff, !andb_true_iff, !Z.leb_le, !Z.eqb_eq.
  destruct (Z.ltb_spec d 10); lia.
Qed.

Lemma escape_alphabet bs :
  Forall byte bs ->
  forallb (fun u => URI.unescaped u || (u =? 37)) (URI.escape bs) = true.
Proof.
  induction 1 as [|b bs Hb _ IH]; [reflexivity|]. unfold byte in Hb.
  unfold URI.escape. cbn [flat_map app forallb]. fold (URI.escape bs).
  rewrite IH, !upper_digit_unescaped by (Z.div_mod_to_equations; lia).
  rewrite orb_true_r. reflexivity.
Qed.

Lemma unescaped_not_surrogate u :
  URI.unescaped u = true ->
  is_high_surrogate u = false /\ is_low_surrogate u = false
  /\ (0 <=? u) && (u <? 65536) = true.
Proof.
  intros H%unescaped_ascii. unfold is_high_surrogate, is_low_surrogate.
  rewrite !andb_false_iff, andb_true_iff, !Z.leb_gt, Z.leb_le, Z.ltb_lt. lia.
Qed.

Lemma encodeURIComponent_outcome n : forall s,
  (List.length s <= n)%nat -> Forall code_unit s ->
  match URI.encodeURIComponent s with
  | Normal e =>
      well_formed s = true
      /\ forallb (fun u => URI.unescaped u || (u =? 37)) e = true
  | Throw e => well_formed s = false /\ e = URIError
  end.
Proof.
  induction n as [|n IH]; intros s Hn Hs.
  { destruct s; [now split | simpl in Hn; lia]. }
  destruct s as [|u s]; [now split|]. simpl in Hn.
  inversion Hs as [|? ? Hu Hs']; subst.
  cbn [URI.encodeURIComponent well_formed].
  destruct (URI.unescaped u) eqn:Hun.
  { destruct (unescaped_not_surrogate u Hun) as (-> & -> & ->).
    specialize (IH s ltac:(lia) Hs').
    destruct (URI.encodeURIComponent s) as [e|e]; cbn [bind andb].
    - destruct IH as [-> IH]. split; [reflexivity|].
      cbn [forallb]. now rewrite Hun, IH.
    - exact IH. }
  destruct (is_high_surrogate u) eqn:Hhi.
  { destruct s as [|v s']; [now split|].
    destruct (is_low_surrogate v) eqn:Hlo; [|now split].
    inversion Hs' as [|? ? Hv Hs'']; subst. simpl in Hn.
    specialize (IH s' ltac:(lia) Hs'').
    destruct (URI.encodeURIComponent s') as [e|e]; cbn [bind andb].
    - destruct IH as [-> IH]. split; [reflexivity|].
      rewrite forallb_app, IH, escape_alphabet; [reflexivity|].
      apply encode_code_point_bytes. now apply surrogate_pair_scalar.
    - exact IH. }
  destruct (is_low_surrogate u) eqn:Hlo; [now split|].
  specialize (IH s ltac:(lia) Hs').
  assert (Hr : (0 <=? u) && (u <? 65536) = true).
  { unfold code_unit in Hu. rewrite andb_true_iff, Z.leb_le, Z.ltb_lt. lia. }
  rewrite Hr.
  destruct (URI.encodeURIComponent s) as [e|e]; cbn [bind andb].
  - destruct IH as [-> IH]. split; [reflexivity|].
    rewrite forallb_app, IH, escape_alphabet; [reflexivity|].
    apply encode_code_point_bytes. now apply plain_unit_scalar.
  - exact IH.
Qed.

(** X10. "URL encoding" fails exactly on a text with a surrogate that
    has no partner: it throws a URIError there (and the empty string is
    recorded), and on every other text it returns a string made only of
    unreserved characters and the percent sign. *)
Theorem URL_encoding_outcome (h : Host) (now : Z) (text : jsstring) :
  Forall code_unit text ->
  (well_formed text = true ->
   exists e,
     apply_entry h (js "URL encoding") now text = Some (Normal (Some e))
     /\ value_of (js "URL encoding") (manipulateString h now text) = Some e
     /\ forallb (fun u => URI.unescaped u || (u =? 37)) e = true)
  /\ (well_formed text = false ->
      apply_entry h (js "URL encoding") now text = Some (Throw URIError)
      /\ value_of (js "URL encoding") (manipulateString h now text) = Some []).
Proof.
  intros Ht.
  pose proof (encodeURIComponent_outcome _ text (le_n _) Ht) as H.
  rewrite value_of_entry.
  change (apply_entry h (js "URL encoding") now text)
    with (Some (returns (URI.encodeURIComponent text))).
  change (entry h (js "URL encoding"))
    with (Some {| key := js "URL encoding";
                  manipulation := fun _ text =>
                    returns (URI.encodeURIComponent text) |}).
  cbn [option_map run manipulation value].
  destruct (URI.encodeURIComponent text) as [e|e].
  - destruct H as [Hw He]. split; [|congruence].
    intros _. exists e. now repeat split.
  - destruct H as [Hw ->]. split; [congruence|]. now split.
Qed.

Lemma URL_encoding_outcome_witness :
  (well_formed [97; 55357; 32] = true ->
   exists e,
     apply_entry Sample.host (js "URL encoding") 0 [97; 55357; 32]
     = Some (Normal (Some e))
     /\ value_of (js "URL encoding") (manipulateString Sample.host 0 [97; 55357; 32])
        = Some e
     /\ forallb (fun u => URI.unescaped u || (u =? 37)) e = true)
  /\ (well_formed [97; 55357; 32] = false ->
      apply_entry Sample.host (js "URL encoding") 0 [97; 55357; 32]
      = Some (Throw URIError)
      /\ value_of (js "URL encoding") (manipulateString Sample.host 0 [97; 55357; 32])
         = Some []).
Proof.
  apply (URL_encoding_outcome Sample.host 0 [97; 55357; 32]).
  repeat constructor; unfold code_unit; lia.
Defined.

Lemma unescape_plain s :
  ~ In 37 s -> URI.unescape s = Normal (map URI.Unit s).
Proof.
  induction s as [|u s IH]; intros Hs; [reflexivity|].
  cbn [URI.unescape map].
  destruct (Z.eqb_spec u 37) as [->|_]; [elim Hs; now left|].
  rewrite IH by (intros H; apply Hs; now right). reflexivity.
Qed.

Lemma decode_items_units s : URI.decode_items 0 (map URI.Unit s) = Normal s.
Proof.
  induction s as [|u s IH]; [reflexivity|].
  cbn [map URI.decode_items]. now rewrite IH.
Qed.

Lemma unescape_bad_escape pre rest :
  ~ In 37 pre -> hex_escape_at_head rest = false ->
  URI.unescape (pre ++ 37 :: rest) = Throw URIError.
Proof.
  intros Hpre Hrest. induction pre as [|u pre IH].
  - cbn [app URI.unescape Z.eqb Pos.eqb]. unfold hex_escape_at_head in Hrest.
    destruct rest as [|a [|b rest]]; try reflexivity.
    destruct (URI.hex_value a); [|reflexivity].
    destruct (URI.hex_value b); [discriminate | reflexivity].
  - cbn [app URI.unescape].
    destruct (Z.eqb_spec u 37) as [->|_]; [elim Hpre; now left|].
    rewrite IH by (intros H; apply Hpre; now right). reflexivity.
Qed.

(** X11. "URL decoding" leaves a text without a percent sign as it is,
    whatever its code units (a surrogate without partner included), and
    throws a URIError, so that the empty string is recorded, when the
    first percent sign of the text is not followed by two hex digits. *)
Theorem URL_decoding_of_plain_and_broken_text (h : Host) (now : Z)
  (text rest : jsstring) :
  ~ In 37 text ->
  hex_escape_at_head rest = false ->
  value_of (js "URL decoding") (manipulateString h now text) = Some text
  /\ apply_entry h (js "URL decoding") now (text ++ 37 :: rest)
     = Some (Throw URIError)
  /\ value_of (js "URL decoding") (manipulateString h now (text ++ 37 :: rest))
     = Some [].
Proof.
  intros Ht Hr. rewrite !value_of_entry.
  change (apply_entry h (js "URL decoding") now (text ++ 37 :: rest))
    with (Some (returns (URI.decodeURIComponent (text ++ 37 :: rest)))).
  change (entry h (js "URL decoding"))
    with (Some {| key := js "URL decoding";
                  manipulation := fun _ text =>
                    returns (URI.decodeURIComponent text) |}).
  cbn [option_map run manipulation value].
  unfold URI.decodeURIComponent.
  rewrite unescape_plain, unescape_bad_escape by assumption.
  cbn [bind returns]. rewrite decode_items_units. now repeat split.
Qed.

Lemma URL_decoding_of_plain_and_broken_text_witness :
  value_of (js "URL decoding") (manipulateString Sample.host 0 [97; 56320; 43])
  = Some [97; 56320; 43]
  /\ apply_entry Sample.host (js "URL decoding") 0
       ([97; 56320; 43] ++ 37 :: js "4g%41")
     = Some (Throw URIError)
  /\ value_of (js "URL decoding")
       (manipulateString Sample.host 0 ([97; 56320; 43] ++ 37 :: js "4g%41"))
     = Some [].
Proof.
  apply (URL_decoding_of_plain_and_broken_text Sample.host 0
           [97; 56320; 43] (js "4g%41")).
  - intros [H|[H|[H|[]]]]; discriminate H.
  - reflexivity.
Defined.

(** ** The texts the buffer encodings write *)

Lemma utf8_encode_bytes_any_bounded n : forall s,
  (List.length s <= n)%nat -> Forall code_unit s -> Forall byte (Utf8.encode s).
Proof.
  assert (Hrep : Forall byte Utf8.replacement)
    by (repeat constructor; unfold byte; lia).
  induction n as [|n IH]; intros s Hn Hs.
  { destruct s; [constructor | simpl in Hn; lia]. }
  destruct s as [|u s]; [constructor|]. simpl in Hn.
  inversion Hs as [|? ? Hu Hs']; subst.
  cbn [Utf8.encode].
  destruct (is_high_surrogate u) eqn:Hhi.
  - destruct s as [|v s']; [exact Hrep|].
    destruct (is_low_surrogate v) eqn:Hlo.
    + inversion Hs' as [|? ? Hv Hs'']; subst. simpl in Hn.
      apply Forall_app. split.
      * apply encode_code_point_bytes. now apply surrogate_pair_scalar.
      * apply IH; [lia | assumption].
    + apply Forall_app. split; [exact Hrep|]. apply IH; [lia | assumption].
  - destruct (is_low_surrogate u) eqn:Hlo.
    + apply Forall_app. split; [exact Hrep|]. apply IH; [lia | assumption].
    + apply Forall_app. split.
      * apply encode_code_point_bytes. now apply plain_unit_scalar.
      * apply IH; [lia | assumption].
Qed.

Lemma hex_encode_shape bs :
  Forall byte bs ->
  List.length (Hex.encode bs) = (2 * List.length bs)%nat
  /\ forallb (fun u => match URI.hex_value u with Some _ => true | None => false end)
       (Hex.encode bs) = true.
Proof.
  induction 1 as [|b bs Hb _ [IHl IHd]]; [now split|]. unfold byte in Hb.
  unfold Hex.encode. cbn [flat_map app List.length forallb]. fold (Hex.encode bs).
  rewrite !hex_value_digit by (Z.div_mod_to_equations; lia).
  split; [lia | exact IHd].
Qed.

Lemma alphabet_base64_char v :
  0 <= v < 64 -> is_base64_char (Base64.alphabet v) || (Base64.alphabet v =? 61) = true.
Proof.
  intros Hv. unfold is_base64_char. now rewrite unbase64_alphabet.
Qed.

Lemma base64_encode_shape n : forall bs,
  (List.length bs <= n)%nat -> Forall byte bs ->
  List.length (Base64.encode bs) = (4 * ((List.length bs + 2) / 3))%nat
  /\ forallb (fun u => is_base64_char u || (u =? 61)) (Base64.encode bs) = true.
Proof.
  induction n as [|n IH]; intros bs Hn Hbs.
  { destruct bs; [now split | simpl in Hn; lia]. }
  destruct bs as [|a [|b [|c rest]]]; [now split| | |].
  - inversion Hbs as [|? ? Ha _]; subst. unfold byte in Ha.
    cbn [Base64.encode forallb].
    rewrite !alphabet_base64_char by (Z.div_mod_to_equations; lia).
    now split.
  - inversion Hbs as [|? ? Ha Hbs']; subst.
    inversion Hbs' as [|? ? Hb _]; subst. unfold byte in Ha, Hb.
    cbn [Base64.encode forallb].
    rewrite !alphabet_base64_char by (Z.div_mod_to_equations; lia).
    now split.
  - inversion Hbs as [|? ? Ha Hbs']; subst.
    inversion Hbs' as [|? ? Hb Hbs'']; subst.
    inversion Hbs'' as [|? ? Hc Hrest]; subst. unfold byte in Ha, Hb, Hc.
    simpl in Hn.
    destruct (IH rest ltac:(lia) Hrest) as [IHl IHd].
    cbn [Base64.encode app forallb List.length].
    rewrite !alphabet_base64_char by (Z.div_mod_to_equations; lia).
    split; [|exact IHd].
    rewrite IHl.
    replace (S (S (S (List.length rest))) + 2)%nat
      with (1 * 3 + (List.length rest + 2))%nat by lia.
    rewrite Nat.div_add_l by lia. lia.
Qed.

(** X12. The two buffer encodings never fail, and what they return is
    valid input of the matching decoder: "Hex encoding" writes two hex
    digits for each UTF-8 byte of the text, "Base64 encoding" four
    characters of the alphabet or [=] for each group of up to three
    bytes. *)
Theorem buffer_encodings_write_valid_text (h : Host) (now : Z) (text : jsstring) :
  Forall code_unit text ->
  exists x b,
    apply_entry h (js "Hex encoding") now text = Some (Normal (Some x))
    /\ apply_entry h (js "Base64 encoding") now text = Some (Normal (Some b))
    /\ valid_hex x = true
    /\ valid_base64 b = true
    /\ List.length x = (2 * List.length (Utf8.encode text))%nat
    /\ List.length b = (4 * ((List.length (Utf8.encode text) + 2) / 3))%nat.
Proof.
  intros Ht.
  pose proof (utf8_encode_bytes_any_bounded _ text (le_n _) Ht) as Hb.
  destruct (hex_encode_shape _ Hb) as [Hxl Hxd].
  destruct (base64_encode_shape _ _ (le_n _) Hb) as [Hbl Hbd].
  exists (Hex.encode (Utf8.encode text)), (Base64.encode (Utf8.encode text)).
  split; [reflexivity|]. split; [reflexivity|].
  unfold valid_hex, valid_base64.
  rewrite Hxd, Hbd, Hxl, Hbl, !andb_true_r.
  split; [|split; [|now split]].
  - rewrite Nat.even_mul. reflexivity.
  - apply Nat.eqb_eq. rewrite Nat.mul_comm. apply Nat.Div0.mod_mul.
Qed.

Lemma buffer_encodings_write_valid_text_witness :
  exists x b,
    apply_entry Sample.host (js "Hex encoding") 0 [104; 233; 55357; 8364]
    = Some (Normal (Some x))
    /\ apply_entry Sample.host (js "Base64 encoding") 0 [104; 233; 55357; 8364]
       = Some (Normal (Some b))
    /\ valid_hex x = true
    /\ valid_base64 b = true
    /\ List.length x
       = (2 * List.length (Utf8.encode [104; 233; 55357; 8364]%Z))%nat
    /\ List.length b
       = (4 * ((List.length (Utf8.encode [104; 233; 55357; 8364]%Z) + 2) / 3))%nat.
Proof.
  apply (buffer_encodings_write_valid_text Sample.host 0 [104; 233; 55357; 8364]).
  repeat constructor; unfold code_unit; lia.
Defined.

(** ** The buffer round trips on any text *)

Lemma toWellFormed_spec n : forall s,
  (List.length s <= n)%nat -> Forall code_unit s ->
  Utf8.encode (toWellFormed s) = Utf8.encode s
  /\ well_formed (toWellFormed s) = true
  /\ (toWellFormed s = s <-> well_formed s = true).
Proof.
  induction n as [|n IH]; intros s Hn Hs.
  { destruct s; [now repeat split | simpl in Hn; lia]. }
  destruct s as [|u s]; [now repeat split|]. simpl in Hn.
  inversion Hs as [|? ? Hu Hs']; subst.
  cbn [toWellFormed well_formed].
  destruct (is_high_surrogate u) eqn:Hhi.
  - destruct s as [|v s'].
    { change (Utf8.encode [65533]) with Utf8.replacement.
      cbn [Utf8.encode]. rewrite Hhi.
      split; [reflexivity|]. split; [reflexivity|].
      split; [intros E; injection E as <-; discriminate Hhi | discriminate]. }
    destruct (is_low_surrogate v) eqn:Hlo.
    + inversion Hs' as [|? ? Hv Hs'']; subst. simpl in Hn.
      destruct (IH s' ltac:(lia) Hs'') as (E & W & I).
      cbn [Utf8.encode well_formed]. rewrite Hhi, Hlo, E, W.
      split; [reflexivity|]. split; [reflexivity|]. cbn [andb].
      rewrite <- I. split; [intros H; now injection H | now intros ->].
    + destruct (IH (v :: s') ltac:(lia) Hs') as (E & W & I).
      change (Utf8.encode (65533 :: toWellFormed (v :: s')))
        with (Utf8.replacement ++ Utf8.encode (toWellFormed (v :: s'))).
      change (well_formed (65533 :: toWellFormed (v :: s')))
        with (well_formed (toWellFormed (v :: s'))).
      rewrite E, W. cbn [Utf8.encode]. rewrite Hhi, Hlo.
      split; [reflexivity|]. split; [reflexivity|].
      split; [intros H; injection H as <- _; discriminate Hhi | discriminate].
  - destruct (IH s ltac:(lia) Hs') as (E & W & I).
    destruct (is_low_surrogate u) eqn:Hlo.
    + change (Utf8.encode (65533 :: toWellFormed s))
        with (Utf8.replacement ++ Utf8.encode (toWellFormed s)).
      change (well_formed (65533 :: toWellFormed s))
        with (well_formed (toWellFormed s)).
      rewrite E, W. cbn [Utf8.encode]. rewrite Hhi, Hlo.
      split; [reflexivity|]. split; [reflexivity|].
      split; [intros H; injection H as <- _; discriminate Hlo | discriminate].
    + cbn [Utf8.encode well_formed]. rewrite Hhi, Hlo, E, W.
      assert (Hr : (0 <=? u) && (u <? 65536) = true).
      { unfold code_unit in Hu. rewrite andb_true_iff, Z.leb_le, Z.ltb_lt. lia. }
      rewrite Hr. cbn [andb].
      split; [reflexivity|]. split; [reflexivity|].
      rewrite <- I. split; [intros H; now injection H | now intros ->].
Qed.

(** X13. On any text, "Hex decoding" of the "Hex encoding" and "Base64
    decoding" of the "Base64 encoding" give the text in which every
    surrogate without a partner has become U+FFFD; that is the text
    itself exactly when it is well-formed UTF-16. *)
Theorem buffer_round_trip_of_any_text (h : Host) (now : Z) (text : jsstring) :
  Forall code_unit text ->
  (exists x,
      apply_entry h (js "Hex encoding") now text = Some (Normal (Some x))
      /\ apply_entry h (js "Hex decoding") now x
         = Some (Normal (Some (toWellFormed text))))
  /\ (exists b,
         apply_entry h (js "Base64 encoding") now text = Some (Normal (Some b))
         /\ apply_entry h (js "Base64 decoding") now b
            = Some (Normal (Some (toWellFormed text))))
  /\ (toWellFormed text = text <-> well_formed text = true).
Proof.
  intros Ht.
  destruct (toWellFormed_spec _ text (le_n _) Ht) as (E & W & I).
  pose proof (utf8_encode_bytes_any_bounded _ text (le_n _) Ht) as Hb.
  split; [|split; [|exact I]].
  - eexists. split; [reflexivity|].
    change (apply_entry h (js "Hex decoding") now (Hex.encode (Utf8.encode text)))
      with (Some (Normal (A := option jsstring)
                    (Some (Utf8.decode
                             (Hex.decode (Hex.encode (Utf8.encode text))))))).
    rewrite hex_decode_encode by assumption.
    now rewrite <- E, utf8_decode_encode.
  - eexists. split; [reflexivity|].
    change (apply_entry h (js "Base64 decoding") now
              (Base64.encode (Utf8.encode text)))
      with (Some (Normal (A := option jsstring)
                    (Some (Utf8.decode
                             (Base64.decode (Base64.encode (Utf8.encode text))))))).
    rewrite base64_decode_encode by assumption.
    now rewrite <- E, utf8_decode_encode.
Qed.

Lemma buffer_round_trip_of_any_text_witness :
  (exists x,
      apply_entry Sample.host (js "Hex encoding") 0 [97; 56832; 55357]
      = Some (Normal (Some x))
      /\ apply_entry Sample.host (js "Hex decoding") 0 x
         = Some (Normal (Some (toWellFormed [97; 56832; 55357]))))
  /\ (exists b,
         apply_entry Sample.host (js "Base64 encoding") 0 [97; 56832; 55357]
         = Some (Normal (Some b))
         /\ apply_entry Sample.host (js "Base64 decoding") 0 b
            = Some (Normal (Some (toWellFormed [97; 56832; 55357]))))
  /\ (toWellFormed [97; 56832; 55357] = [97; 56832; 55357]
      <-> well_formed [97; 56832; 55357] = true).
Proof.
  apply (buffer_round_trip_of_any_text Sample.host 0 [97; 56832; 55357]).
  repeat constructor; unfold code_unit; lia.
Defined.

(** ** The lines of "Extract JWT" *)

Lemma take_jwt_chars_class s :
  Forall (fun u => is_jwt_char u = true) (fst (take_jwt_chars s)).
Proof.
  induction s as [|u s IH]; [constructor|].
  cbn [take_jwt_chars]. destruct (is_jwt_char u) eqn:Eu; [|constructor].
  destruct (take_jwt_chars s) as [run r]. cbn [fst] in *.
  now constructor.
Qed.

Lemma match_segment_class s seg r :
  match_segment s = Some (seg, r) ->
  Forall (fun u => is_jwt_char u = true) seg /\ exists t, seg = 101 :: t.
Proof.
  unfold match_segment.
  destruct (expect_word (js "eyJ") s) as [r0|]; [|discriminate].
  pose proof (take_jwt_chars_class r0) as Hrun.
  destruct (take_jwt_chars r0) as [[|c run] rest]; [discriminate|].
  destruct (expect 46 rest) as [r'|]; [|discriminate].
  intros [= <- <-]. cbn [fst] in Hrun. split.
  - repeat (constructor; [reflexivity|]). exact Hrun.
  - eexists. reflexivity.
Qed.

Lemma match_jwt_class s m :
  match_jwt s = Some m ->
  Forall (fun u => is_jwt_char u = true \/ u = 46) m /\ exists t, m = 101 :: t.
Proof.
  unfold match_jwt.
  destruct (match_segment s) as [[header r1]|] eqn:E1; [|discriminate].
  destruct (match_segment r1) as [[payload r2]|] eqn:E2; [|discriminate].
  intros [= <-].
  apply match_segment_class in E1 as [H1 [t ->]].
  apply match_segment_class in E2 as [H2 _].
  pose proof (take_jwt_chars_class r2) as H3.
  split; [|eexists; reflexivity].
  assert (W : forall l, Forall (fun u => is_jwt_char u = true) l ->
                        Forall (fun u => is_jwt_char u = true \/ u = 46) l).
  { intros l Hl. eapply Forall_impl; [|exact Hl]. now left. }
  apply Forall_app. split; [now apply W|].
  constructor; [now right|]. apply Forall_app. split; [now apply W|].
  constructor; [now right|]. now apply W.
Qed.

Lemma jwt_class_not_line_feed u : is_jwt_char u = true \/ u = 46 -> u <> 10.
Proof.
  intros [H| ->]; [|discriminate]. intros ->. discriminate H.
Qed.

Lemma join_head sep u t rest : exists t', join sep ((u :: t) :: rest) = u :: t'.
Proof. destruct rest; cbn [join app]; eexists; reflexivity. Qed.

(** X14. "Extract JWT" writes one match of the pattern on each line:
    when the text holds no match, it and "Extract and Decode JWT" record
    the empty string; otherwise its value is not empty, its lines are
    the matches in order, and each line is made of the characters of
    the pattern and splits at its dots into exactly three parts. *)
Theorem extract_JWT_lines (h : Host) (now : Z) (text : jsstring) :
  match jwt_matches text with
  | [] =>
      value_of (js "Extract JWT") (manipulateString h now text) = Some []
      /\ value_of (js "Extract and Decode JWT") (manipulateString h now text)
         = Some []
  | matches =>
      exists out,
        value_of (js "Extract JWT") (manipulateString h now text) = Some out
        /\ out <> []
        /\ split_on 10 out = matches
        /\ Forall (fun line =>
                     List.length (split_on 46 line) = 3%nat
                     /\ Forall (fun u => is_jwt_char u = true \/ u = 46) line)
             (split_on 10 out)
  end.
Proof.
  rewrite !value_of_entry.
  change (entry h (js "Extract JWT"))
    with (Some {| key := js "Extract JWT";
                  manipulation := fun _ text => extract_JWT text |}).
  change (entry h (js "Extract and Decode JWT"))
    with (Some {| key := js "Extract and Decode JWT";
                  manipulation := fun _ text => extract_and_decode_JWT h text |}).
  cbn [option_map run manipulation value].
  unfold extract_JWT, extract_and_decode_JWT.
  assert (Hall : Forall (fun m =>
                   List.length (split_on 46 m) = 3%nat
                   /\ Forall (fun u => is_jwt_char u = true \/ u = 46) m
                   /\ exists t, m = 101 :: t) (jwt_matches text)).
  { apply Forall_forall. intros m Hin.
    split; [now apply (jwt_matches_three_parts text)|].
    apply jwt_matches_from_match in Hin as [s' Hs'].
    now apply match_jwt_class in Hs'. }
  destruct (jwt_matches text) as [|m rest] eqn:E; [now split|].
  exists (join [10] (m :: rest)). split; [reflexivity|].
  assert (Hs : split_on 10 (join [10] (m :: rest)) = m :: rest).
  { apply split_on_join; [discriminate|].
    eapply Forall_impl; [|exact Hall]. intros a (_ & Ha & _).
    eapply Forall_impl; [|exact Ha]. apply jwt_class_not_line_feed. }
  split; [|split; [exact Hs|]].
  - inversion Hall as [|? ? (_ & _ & t & Hm) _].
    destruct (join_head [10] 101 t rest) as [t' Ht'].
    unfold jsstring in *. rewrite Hm, Ht'. discriminate.
  - rewrite Hs. eapply Forall_impl; [|exact Hall]. now intros a (H1 & H2 & _).
Qed.

(** ** When the case conversions throw *)

Lemma throws_mapM_capitalize h ws :
  throws (mapM (capitalize h) ws)
  = existsb (fun w : jsstring => match w with [] => true | _ :: _ => false end) ws.
Proof.
  induction ws as [|w ws IH]; [reflexivity|].
  cbn [mapM existsb]. destruct w as [|u w]; [reflexivity|].
  cbn [capitalize bind orb]. rewrite <- IH.
  now destruct (mapM (capitalize h) ws).
Qed.

Lemma mapM_index_rest h ws : forall i,
  mapM_index
    (fun word index => if Nat.eqb index 0 then capitalize h word else Normal word)
    (S i) ws
  = Normal ws.
Proof.
  induction ws as [|w ws IH]; intros i; [reflexivity|].
  cbn [mapM_index Nat.eqb bind]. now rewrite IH.
Qed.

Lemma throws_bind_total {A B} (c : completion A) (k : A -> B) :
  throws (x <- c ;; Normal (k x)) = throws c.
Proof. now destruct c. Qed.

(** X15. The case conversions fail on an empty word exactly where they
    read its first character.  When the tokenizer returns [words],
    "Convert PascalCase" and "Convert Words Capitalized" throw if and
    only if some word is empty, "Convert camelCase" if and only if a
    word after the first is empty, "Convert First word capitalized" if
    and only if the first word is empty, and the seven entries that
    only map and join the words never throw. *)
Theorem case_conversions_throw_on_an_empty_word
  (h : Host) (now : Z) (text : jsstring) (words : list jsstring) :
  splitIntoWords h (trim text) = Normal words ->
  let empty := fun w : jsstring => match w with [] => true | _ :: _ => false end in
  option_map throws (apply_entry h (js "Convert PascalCase") now text)
  = Some (existsb empty words)
  /\ option_map throws (apply_entry h (js "Convert Words Capitalized") now text)
     = Some (existsb empty words)
  /\ option_map throws (apply_entry h (js "Convert camelCase") now text)
     = Some (existsb empty (tl words))
  /\ option_map throws
       (apply_entry h (js "Convert First word capitalized") now text)
     = Some (match words with w :: _ => empty w | [] => false end)
  /\ Forall
       (fun label =>
          option_map throws (apply_entry h label now text) = Some false)
       [ js "Convert lower-kebab-case"; js "Convert UPPER-KEBAB-CASE";
         js "Convert lower_snake_case"; js "Convert UPPER_SNAKE_CASE";
         js "Convert dot.case"; js "Convert words lowercase";
         js "Generate fuzzy search regex" ].
Proof.
  intros Hsplit empty. subst empty.
  split; [|split; [|split; [|split]]].
  - change (apply_entry h (js "Convert PascalCase") now text)
      with (Some (convert_capitalized h [] text)).
    cbn [option_map]. unfold convert_capitalized. rewrite Hsplit. cbn [bind].
    now rewrite throws_bind_total, throws_mapM_capitalize.
  - change (apply_entry h (js "Convert Words Capitalized") now text)
      with (Some (convert_capitalized h (js " ") text)).
    cbn [option_map]. unfold convert_capitalized. rewrite Hsplit. cbn [bind].
    now rewrite throws_bind_total, throws_mapM_capitalize.
  - change (apply_entry h (js "Convert camelCase") now text)
      with (Some (convert_camelCase h text)).
    cbn [option_map]. unfold convert_camelCase. rewrite Hsplit. cbn [bind].
    rewrite throws_bind_total.
    destruct words as [|w ws]; [reflexivity|].
    cbn [mapM_index Nat.eqb bind tl].
    now rewrite mapM_index_capitalize, throws_bind_total, throws_mapM_capitalize.
  - change (apply_entry h (js "Convert First word capitalized") now text)
      with (Some (convert_first_word_capitalized h text)).
    cbn [option_map]. unfold convert_first_word_capitalized.
    rewrite Hsplit. cbn [bind]. rewrite throws_bind_total.
    destruct words as [|w ws]; [reflexivity|].
    cbn [mapM_index Nat.eqb]. rewrite mapM_index_rest.
    now destruct w.
  - repeat (apply Forall_cons; [|]); try apply Forall_nil.
    + change (apply_entry h (js "Convert lower-kebab-case") now text)
        with (Some (convert_words h (toLowerCase h) (js "-") text)).
      cbn [option_map]. unfold convert_words. now rewrite Hsplit.
    + change (apply_entry h (js "Convert UPPER-KEBAB-CASE") now text)
        with (Some (convert_words h (toUpperCase h) (js "-") text)).
      cbn [option_map]. unfold convert_words. now rewrite Hsplit.
    + change (apply_entry h (js "Convert lower_snake_case") now text)
        with (Some (convert_words h (toLowerCase h) (js "_") text)).
      cbn [option_map]. unfold convert_words. now rewrite Hsplit.
    + change (apply_entry h (js "Convert UPPER_SNAKE_CASE") now text)
        with (Some (convert_words h (toUpperCase h) (js "_") text)).
      cbn [option_map]. unfold convert_words. now rewrite Hsplit.
    + change (apply_entry h (js "Convert dot.case") now text)
        with (Some (convert_words h (toLowerCase h) (js ".") text)).
      cbn [option_map]. unfold convert_words. now rewrite Hsplit.
    + change (apply_entry h (js "Convert words lowercase") now text)
        with (Some (convert_words h (toLowerCase h) (js " ") text)).
      cbn [option_map]. unfold convert_words. now rewrite Hsplit.
    + change (apply_entry h (js "Generate fuzzy search regex") now text)
        with (Some (convert_words h (fun w => w) (js ".*") text)).
      cbn [option_map]. unfold convert_words. now rewrite Hsplit.
Qed.

Lemma case_conversions_throw_on_an_empty_word_witness :
  let empty := fun w : jsstring => match w with [] => true | _ :: _ => false end in
  let words := [js "foo"; js "Bar"] in
  option_map throws (apply_entry Sample.host (js "Convert PascalCase") 0 (js " fooBar "))
  = Some (existsb empty words)
  /\ option_map throws
       (apply_entry Sample.host (js "Convert Words Capitalized") 0 (js " fooBar "))
     = Some (existsb empty words)
  /\ option_map throws
       (apply_entry Sample.host (js "Convert camelCase") 0 (js " fooBar "))
     = Some (existsb empty (tl words))
  /\ option_map throws
       (apply_entry Sample.host (js "Convert First word capitalized") 0 (js " fooBar "))
     = Some (match words with w :: _ => empty w | [] => false end)
  /\ Forall
       (fun label =>
          option_map throws (apply_entry Sample.host label 0 (js " fooBar "))
          = Some false)
       [ js "Convert lower-kebab-case"; js "Convert UPPER-KEBAB-CASE";
         js "Convert lower_snake_case"; js "Convert UPPER_SNAKE_CASE";
         js "Convert dot.case"; js "Convert words lowercase";
         js "Generate fuzzy search regex" ].
Proof.
  apply (case_conversions_throw_on_an_empty_word Sample.host 0 (js " fooBar ")
           [js "foo"; js "Bar"]).
  reflexivity.
Defined.

(** ** The text "HTML encoding" writes *)

Lemma html_encode_spec text :
  Forall (fun u => u <> 60 /\ u <> 62 /\ u <> 34 /\ u <> 39) (html_encode text)
  /\ (Forall (fun u => u <> 60 /\ u <> 62 /\ u <> 34 /\ u <> 39 /\ u <> 38) text ->
      html_encode text = text)
  /\ (List.length text <= List.length (html_encode text))%nat.
Proof.
  induction text as [|u text (IHf & IHi & IHl)].
  { split; [constructor|]. now split. }
  cbn [html_encode flat_map]. fold (html_encode text).
  assert (Hsafe : forall w : string,
             Forall (fun u => u <> 60 /\ u <> 62 /\ u <> 34 /\ u <> 39) (js w) ->
             (1 <= List.length (js w))%nat ->
             Forall (fun u => u <> 60 /\ u <> 62 /\ u <> 34 /\ u <> 39)
               (js w ++ html_encode text)
             /\ (List.length (u :: text)
                 <= List.length (js w ++ html_encode text))%nat).
  { intros w Hw Hl. split; [apply Forall_app; now split|].
    rewrite length_app. cbn [List.length]. lia. }
  assert (Hno : forall P : Prop,
             u = 60 \/ u = 62 \/ u = 34 \/ u = 39 \/ u = 38 ->
             Forall (fun u => u <> 60 /\ u <> 62 /\ u <> 34 /\ u <> 39 /\ u <> 38)
               (u :: text) -> P).
  { intros P Hu Hall. inversion Hall as [|? ? Hu' _]; subst. lia. }
  destruct (Z.eqb_spec u 60) as [Hu|H60].
  { destruct (Hsafe "&lt;"%string) as [H1 H2];
      [apply Forall_forall; intros x Hx; cbn in Hx; lia | cbn; lia|].
    split; [exact H1|]. split; [apply Hno; auto | exact H2]. }
  destruct (Z.eqb_spec u 62) as [Hu|H62].
  { destruct (Hsafe "&gt;"%string) as [H1 H2];
      [apply Forall_forall; intros x Hx; cbn in Hx; lia | cbn; lia|].
    split; [exact H1|]. split; [apply Hno; auto | exact H2]. }
  destruct (Z.eqb_spec u 34) as [Hu|H34].
  { destruct (Hsafe "&quot;"%string) as [H1 H2];
      [apply Forall_forall; intros x Hx; cbn in Hx; lia | cbn; lia|].
    split; [exact H1|]. split; [apply Hno; auto | exact H2]. }
  destruct (Z.eqb_spec u 39) as [Hu|H39].
  { destruct (Hsafe "&apos;"%string) as [H1 H2];
      [apply Forall_forall; intros x Hx; cbn in Hx; lia | cbn; lia|].
    split; [exact H1|]. split; [apply Hno; auto | exact H2]. }
  destruct (Z.eqb_spec u 38) as [Hu|H38].
  { destruct (Hsafe "&amp;"%string) as [H1 H2];
      [apply Forall_forall; intros x Hx; cbn in Hx; lia | cbn; lia|].
    split; [exact H1|]. split; [apply Hno; auto 6 | exact H2]. }
  cbn [app List.length]. split; [constructor; [lia | exact IHf]|].
  split; [|lia].
  intros Hall. inversion Hall; subst. f_equal. now apply IHi.
Qed.

(** X16. "HTML encoding" never fails, and its result holds none of the
    characters [<], [>], the double and the single quote; a text with
    none of these and no ampersand is returned as it is, and no text
    gets shorter. *)
Theorem HTML_encoding_leaves_no_markup (h : Host) (now : Z) (text : jsstring) :
  exists out,
    apply_entry h (js "HTML encoding") now text = Some (Normal (Some out))
    /\ value_of (js "HTML encoding") (manipulateString h now text) = Some out
    /\ Forall (fun u => u <> 60 /\ u <> 62 /\ u <> 34 /\ u <> 39) out
    /\ (Forall (fun u => u <> 60 /\ u <> 62 /\ u <> 34 /\ u <> 39 /\ u <> 38) text ->
        out = text)
    /\ (List.length text <= List.length out)%nat.
Proof.
  exists (html_encode text). split; [reflexivity|].
  split; [|apply html_encode_spec].
  rewrite value_of_entry.
  change (entry h (js "HTML encoding"))
    with (Some {| key := js "HTML encoding";
                  manipulation := fun _ text => Normal (Some (html_encode text)) |}).
  reflexivity.
Qed.

(** X17. The text "Escape as JSON string" returns is JSON that "Prettify
    JSON" and "Minify JSON" both accept and return unchanged: a string
    literal has no layout to change. *)
Theorem escaped_text_is_already_pretty_and_minimal
  (h : Host) (now : Z) (x : jsstring) :
  Forall code_unit x ->
  exists v,
    value_of (js "Escape as JSON string") (manipulateString h now x) = Some v
    /\ apply_entry h (js "Prettify JSON") now v = Some (Normal (Some v))
    /\ apply_entry h (js "Minify JSON") now v = Some (Normal (Some v)).
Proof.
  intros Hx. exists (Json.quote x).
  split; [rewrite value_of_entry; reflexivity|].
  change (apply_entry h (js "Prettify JSON") now (Json.quote x))
    with (Some (v <- Json.parse (Json.quote x) ;;
                Normal (Some (stringify (number_text h) v 2)))).
  change (apply_entry h (js "Minify JSON") now (Json.quote x))
    with (Some (v <- Json.parse (Json.quote x) ;;
                Normal (Some (stringify (number_text h) v 0)))).
  rewrite parse_quote by assumption. split; reflexivity.
Qed.

Lemma escaped_text_is_already_pretty_and_minimal_witness :
  exists v,
    value_of (js "Escape as JSON string")
      (manipulateString Sample.host 0 [123; 34; 9; 92; 56320]) = Some v
    /\ apply_entry Sample.host (js "Prettify JSON") 0 v = Some (Normal (Some v))
    /\ apply_entry Sample.host (js "Minify JSON") 0 v = Some (Normal (Some v)).
Proof.
  apply (escaped_text_is_already_pretty_and_minimal Sample.host 0
           [123; 34; 9; 92; 56320]).
  repeat constructor; unfold code_unit; lia.
Defined.
